(** * MultiBlink (Multi_Blink5_Neo): the table-driven LED state machine

    A shallow embedding of the sketch's data model ([stateDef_t],
    [sequence_t], [scratchpad_t]), of the [cNeoFade] colour interpolator
    and of the interpreter functions [BlinkInit] and [MultiBlink],
    followed by the properties proved about them.

    Machine integers are kept as [Z] with the wrap-around of every C
    conversion written out.  Undefined behaviour of the C++ source (an
    integer division by zero, an array index out of bounds) is the
    result [None]. *)

From Stdlib Require Import ZArith Bool Lia.
From stdpp Require Import base option list.

Local Open Scope Z_scope.

(** ** Fixed-width integers *)

Module CInt.

Definition to_uint8 (z : Z) : Z := z mod 256.
Definition to_uint16 (z : Z) : Z := z mod 65536.
Definition to_uint32 (z : Z) : Z := z mod 4294967296.

(** Conversion to a signed type wraps (two's complement), as GCC
    defines it for every Arduino target. *)
Definition to_int8 (z : Z) : Z := (z + 128) mod 256 - 128.
Definition to_int16 (z : Z) : Z := (z + 32768) mod 65536 - 32768.

(** [uint32_t] subtraction and addition. *)
Definition sub32 (a b : Z) : Z := to_uint32 (a - b).
Definition add32 (a b : Z) : Z := to_uint32 (a + b).

Definition is_uint8 (z : Z) : Prop := 0 <= z < 256.
Definition is_uint16 (z : Z) : Prop := 0 <= z < 65536.
Definition is_uint32 (z : Z) : Prop := 0 <= z < 4294967296.

End CInt.
Import CInt.

(** ** FastLED's pixel type

    [CRGB] belongs to the FastLED library: three [uint8_t] components and
    a constructor from a packed [0xRRGGBB] colour code. *)

Module FastLED.

Record CRGB : Type := mkCRGB { r : Z; g : Z; b : Z }.

(** [CRGB(uint32_t colorcode)] *)
Definition of_code (colorcode : Z) : CRGB :=
  {| r := Z.land (Z.shiftr colorcode 16) 255;
     g := Z.land (Z.shiftr colorcode 8) 255;
     b := Z.land colorcode 255 |}.

Definition valid (c : CRGB) : Prop :=
  is_uint8 (r c) /\ is_uint8 (g c) /\ is_uint8 (b c).

(** The [HTMLColorCode] constants the tables use. *)
Definition Black : Z := 0x000000.
Definition Blue : Z := 0x0000FF.
Definition Red : Z := 0xFF0000.
Definition White : Z := 0xFFFFFF.
Definition SeaGreen : Z := 0x2E8B57.
Definition Beige : Z := 0xF5F5DC.
Definition Yellow : Z := 0xFFFF00.

End FastLED.
Abbreviation CRGB := FastLED.CRGB.

#[global] Instance CRGB_eq_dec : EqDecision CRGB.
Proof. solve_decision. Defined.

Definition NUM_LEDS : Z := 8.

(** State values for the finite state machine: [state_t].  The field is
    kept as the integer the table stores, so that a value outside the
    enumeration can be represented. *)
Definition MB_NULL : Z := 0.
Definition MB_SET : Z := 1.
Definition MB_FADE : Z := 2.
Definition MB_LOOP : Z := 3.
Definition MB_GOTO : Z := 4.
Definition MB_STOP : Z := 5.

(** ** class cNeoFade *)

Record cNeoFade : Type := mkNeoFade {
  _r0 : Z; _g0 : Z; _b0 : Z;            (* int16_t *)
  _r1 : Z; _g1 : Z; _b1 : Z;            (* int16_t *)
  _steps : Z;                           (* int16_t *)
  _dR : Z; _dG : Z; _dB : Z; _dMax : Z; (* int16_t *)
  _sR : Z; _sG : Z; _sB : Z;            (* int8_t *)
  _ended : bool;
  _timeStart : Z;                       (* uint32_t *)
  _timeInterval : Z                     (* uint32_t *)
}.

Definition isEnded (f : cNeoFade) : bool := _ended f.

(** [uint16_t uiabs(uint16_t a, uint16_t b)] *)
Definition uiabs (a b : Z) : Z :=
  if a >? b then to_uint16 (a - b) else to_uint16 (b - a).

(** [uint16_t max3(uint16_t x, uint16_t y, uint16_t z)] *)
Definition max3 (x y z : Z) : Z :=
  let m := z in
  if x >? y then (if x >? z then x else m)
  else (if y >? z then y else m).

(** The number of steps [setFade] computes for a pair of colours. *)
Definition fade_dMax (rgb0 rgb1 : CRGB) : Z :=
  let r0 := to_int16 (FastLED.r rgb0) in let r1 := to_int16 (FastLED.r rgb1) in
  let g0 := to_int16 (FastLED.g rgb0) in let g1 := to_int16 (FastLED.g rgb1) in
  let b0 := to_int16 (FastLED.b rgb0) in let b1 := to_int16 (FastLED.b rgb1) in
  let dR := to_int16 (uiabs (to_uint16 r1) (to_uint16 r0)) in
  let dG := to_int16 (uiabs (to_uint16 g1) (to_uint16 g0)) in
  let dB := to_int16 (uiabs (to_uint16 b1) (to_uint16 b0)) in
  to_int16 (max3 (to_uint16 dR) (to_uint16 dG) (to_uint16 dB)).

(** [void setFade(uint16_t period, const CRGB &rgb0, const CRGB &rgb1)].
    The statement [_timeInterval = period / _steps] has no guard: with
    [_steps == 0] it divides by zero, which is undefined. *)
Definition setFade (period : Z) (rgb0 rgb1 : CRGB) : option cNeoFade :=
  let r0 := to_int16 (FastLED.r rgb0) in let r1 := to_int16 (FastLED.r rgb1) in
  let g0 := to_int16 (FastLED.g rgb0) in let g1 := to_int16 (FastLED.g rgb1) in
  let b0 := to_int16 (FastLED.b rgb0) in let b1 := to_int16 (FastLED.b rgb1) in
  let dR := to_int16 (uiabs (to_uint16 r1) (to_uint16 r0)) in
  let sR := if r0 <? r1 then 1 else -1 in
  let dG := to_int16 (uiabs (to_uint16 g1) (to_uint16 g0)) in
  let sG := if g0 <? g1 then 1 else -1 in
  let dB := to_int16 (uiabs (to_uint16 b1) (to_uint16 b0)) in
  let sB := if b0 <? b1 then 1 else -1 in
  let dMax := to_int16 (max3 (to_uint16 dR) (to_uint16 dG) (to_uint16 dB)) in
  let steps := dMax in
  let err := to_int16 (Z.quot dMax 2) in
  if steps =? 0 then None
  else
    let interval := to_uint32 (Z.quot period steps) in
    let interval := if interval =? 0 then 1 else interval in
    Some {| _r0 := r0; _g0 := g0; _b0 := b0;
            _r1 := err; _g1 := err; _b1 := err;
            _steps := steps;
            _dR := dR; _dG := dG; _dB := dB; _dMax := dMax;
            _sR := sR; _sG := sG; _sB := sB;
            _ended := false;
            _timeStart := 0;
            _timeInterval := interval |}.

(** One axis of the 3-D Bresenham step:
    [_r1 -= _dR; if (_r1 < 0) { _r1 += _dMax; _r0 += _sR; }] *)
Definition axis_step (x0 x1 dX sX dMax : Z) : Z * Z :=
  let x1 := to_int16 (x1 - dX) in
  if x1 <? 0 then (to_int16 (x0 + sX), to_int16 (x1 + dMax)) else (x0, x1).

(** [bool getNext(uint32_t nowTime, CRGB *rgb)].  [ms] is the value the
    call of [millis()] inside the method returns.  The third component of
    the result is the colour stored through [rgb], if the call stores
    one. *)
Definition getNext (nowTime ms : Z) (f : cNeoFade)
  : cNeoFade * bool * option CRGB :=
  if negb (_ended f) && (sub32 nowTime (_timeStart f) <? _timeInterval f)
  then (f, false, None)
  else
    let rgb := FastLED.mkCRGB (to_uint8 (_r0 f)) (to_uint8 (_g0 f)) (to_uint8 (_b0 f)) in
    let ended := _steps f =? 0 in
    if ended then
      (mkNeoFade (_r0 f) (_g0 f) (_b0 f) (_r1 f) (_g1 f) (_b1 f) (_steps f)
                 (_dR f) (_dG f) (_dB f) (_dMax f) (_sR f) (_sG f) (_sB f)
                 true ms (_timeInterval f),
       false, Some rgb)
    else
      let '(r0, r1) := axis_step (_r0 f) (_r1 f) (_dR f) (_sR f) (_dMax f) in
      let '(g0, g1) := axis_step (_g0 f) (_g1 f) (_dG f) (_sG f) (_dMax f) in
      let '(b0, b1) := axis_step (_b0 f) (_b1 f) (_dB f) (_sB f) (_dMax f) in
      (mkNeoFade r0 g0 b0 r1 g1 b1 (to_int16 (_steps f - 1))
                 (_dR f) (_dG f) (_dB f) (_dMax f) (_sR f) (_sG f) (_sB f)
                 false ms (_timeInterval f),
       true, Some rgb).

Arguments setFade : simpl never.
Arguments getNext : simpl never.

(** ** The tables and the scratchpad *)

(** The number of state definitions of each element of the LED table. *)
Definition MAX_STATE : Z := 5.

Record stateDef_t : Type := mkStateDef {
  stateID : Z;      (* state_t: state value for this state (MB_* ) *)
  activeTime : Z;   (* uint32_t: active time for this state *)
  data1 : Z;        (* uint32_t: colour, start of fade or jump target *)
  data2 : Z         (* uint32_t: end colour of a fade or loop count *)
}.

Record sequence_t : Type := mkSequence {
  ledId : Z;                  (* uint8_t: led number in the LED array *)
  state : list stateDef_t     (* stateDef_t state[MAX_STATE] *)
}.

Record scratchpad_t : Type := mkScratchpad {
  enabled : bool;             (* true if this table entry is enabled *)
  currentState : Z;           (* uint8_t: index of currently active state *)
  lastWakeup : Z;             (* uint32_t: millis() value when last woken up *)
  nf : option cNeoFade;       (* cNeoFade*: nullptr is None *)
  counter : Z                 (* uint16_t: current loop counter *)
}.

(** Macros used to statically initialize the data *)
Definition SET (t c : Z) : stateDef_t := mkStateDef MB_SET t c 0.
Definition DO (t j n : Z) : stateDef_t := mkStateDef MB_LOOP t j n.
Definition FADE (t c1 c2 : Z) : stateDef_t := mkStateDef MB_FADE t c1 c2.
Definition GOTO (t j : Z) : stateDef_t := mkStateDef MB_GOTO t j 0.
Definition STOP : stateDef_t := mkStateDef MB_STOP 0 0 0.
Definition NOP : stateDef_t := mkStateDef MB_NULL 0 0 0.

(** What the program does to the world outside the scratchpads, newest
    first: stores into [leds[]], and [new] / [delete] of a [cNeoFade]. *)
Inductive event : Type :=
  | EvWrite (id : Z) (c : CRGB)
  | EvNew
  | EvDelete.

(** The global variables [leds] and [needsUpdate], with the trace of
    events. *)
Record globals : Type := mkGlobals {
  leds : list CRGB;           (* CRGB leds[NUM_LEDS] *)
  needsUpdate : bool;         (* true when a color has changed *)
  trace : list event
}.

(** Array access [a[i]]: an index outside the array is undefined. *)
Definition zget {A : Type} (a : list A) (i : Z) : option A :=
  if i <? 0 then None else a !! Z.to_nat i.

Definition zset {A : Type} (a : list A) (i : Z) (x : A) : option (list A) :=
  if (0 <=? i) && (i <? Z.of_nat (length a))
  then Some (<[Z.to_nat i := x]> a) else None.

(** [leds[id] = c;] *)
Definition led_store (id : Z) (c : CRGB) (G : globals) : option globals :=
  l ← zset (leds G) id c;
  Some (mkGlobals l (needsUpdate G) (EvWrite id c :: trace G)).

(** [needsUpdate = true;] *)
Definition set_needsUpdate (G : globals) : globals :=
  mkGlobals (leds G) true (trace G).

Definition log (e : event) (G : globals) : globals :=
  mkGlobals (leds G) (needsUpdate G) (e :: trace G).

Definition set_nf (S : scratchpad_t) (p : option cNeoFade) : scratchpad_t :=
  mkScratchpad (enabled S) (currentState S) (lastWakeup S) p (counter S).

Definition set_counter (S : scratchpad_t) (c : Z) : scratchpad_t :=
  mkScratchpad (enabled S) (currentState S) (lastWakeup S) (nf S) c.

Definition set_enabled (S : scratchpad_t) (e : bool) : scratchpad_t :=
  mkScratchpad e (currentState S) (lastWakeup S) (nf S) (counter S).

(** ** BlinkInit *)

(** The body of the loop of [BlinkInit] for one scratchpad. *)
Definition BlinkInit_entry (now : Z) (G : globals) (S : scratchpad_t)
  : globals * scratchpad_t :=
  (match nf S with Some _ => log EvDelete G | None => G end,
   mkScratchpad true 0 now None 0).

(** [void BlinkInit(scratchpad_t *pS, const uint8_t tableSize)]: [now] is
    the value of [millis()] read on entry. *)
Fixpoint BlinkInit_loop (now : Z) (tableSize : nat) (pS : list scratchpad_t)
    (G : globals) : option (globals * list scratchpad_t) :=
  match tableSize with
  | O => Some (G, pS)
  | Datatypes.S n =>
      match pS with
      | [] => None
      | S0 :: rest =>
          let '(G1, S1) := BlinkInit_entry now G S0 in
          '(G2, rest') ← BlinkInit_loop now n rest G1;
          Some (G2, S1 :: rest')
      end
  end.

Definition BlinkInit (now : Z) (pS : list scratchpad_t) (tableSize : nat)
    (G : globals) : option (globals * list scratchpad_t) :=
  '(G1, pS') ← BlinkInit_loop now tableSize pS G;
  Some (set_needsUpdate G1, pS').

(** ** MultiBlink *)

(** What one pass reads from outside: the value of [millis()] inside
    [getNext], and whether [new cNeoFade] returns an object. *)
Record tick_env : Type := mkEnv { ms : Z; alloc_ok : bool }.

(** The [switch] on [T.state[cs].stateID].  The result carries the two
    locals [setNextState] and [nextState] (an [int16_t], [-1] when no
    jump was asked for). *)
Definition dispatch (now : Z) (env : tick_env) (id : Z) (ins : stateDef_t)
    (timeExpired : bool) (G : globals) (S : scratchpad_t)
  : option (globals * scratchpad_t * bool * Z) :=
  if stateID ins =? MB_SET then
    if bool_decide (zget (leds G) id = Some (FastLED.of_code (data1 ins)))
    then Some (G, S, timeExpired, -1)
    else
      match zget (leds G) id with
      | None => None
      | Some _ =>
          G1 ← led_store id (FastLED.of_code (data1 ins)) G;
          Some (set_needsUpdate G1, S, timeExpired, -1)
      end
  else if stateID ins =? MB_FADE then
    if timeExpired then
      let G0 := match nf S with Some _ => log EvDelete G | None => G end in
      G1 ← led_store id (FastLED.of_code (data2 ins)) G0;
      Some (set_needsUpdate G1, set_nf S None, true, -1)
    else
      match nf S with
      | None =>
          if alloc_ok env then
            f ← setFade (to_uint16 (activeTime ins))
                  (FastLED.of_code (data1 ins)) (FastLED.of_code (data2 ins));
            G1 ← led_store id (FastLED.of_code (data1 ins)) (log EvNew G);
            Some (set_needsUpdate G1, set_nf S (Some f), false, -1)
          else
            G1 ← led_store id (FastLED.of_code (data1 ins)) G;
            Some (set_needsUpdate G1, set_nf S None, false, -1)
      | Some f =>
          if negb (isEnded f) then
            match getNext now (ms env) f with
            | (f', true, Some rgb) =>
                G1 ← led_store id rgb G;
                Some (set_needsUpdate G1, set_nf S (Some f'), false, -1)
            | (f', _, _) => Some (G, set_nf S (Some f'), false, -1)
            end
          else Some (G, S, false, -1)
      end
  else if stateID ins =? MB_LOOP then
    if timeExpired then
      let S1 := set_counter S (to_uint16 (counter S + 1)) in
      if data2 ins >? counter S1
      then Some (G, S1, false, to_int16 (data1 ins))
      else Some (G, set_counter S1 0, true, -1)
    else Some (G, S, false, -1)
  else if stateID ins =? MB_GOTO then
    if timeExpired then Some (G, S, false, to_int16 (data1 ins))
    else Some (G, S, false, -1)
  else if stateID ins =? MB_STOP then
    Some (G, set_enabled S false, false, -1)
  else if stateID ins =? MB_NULL then
    Some (G, S, true, -1)
  else
    Some (G, S, true, -1).

(** The end of the loop body: "set next state if required". *)
Definition transition (ins : stateDef_t) (S : scratchpad_t)
    (setNextState : bool) (nextState : Z) : scratchpad_t :=
  let nextState :=
    if setNextState then to_int16 (currentState S + 1) else nextState in
  if negb (nextState =? -1) then
    mkScratchpad (enabled S)
                 (to_uint8 (Z.rem nextState MAX_STATE))
                 (add32 (lastWakeup S) (activeTime ins))
                 (nf S) (counter S)
  else S.

(** The body of the loop of [MultiBlink] for one table entry. *)
Definition MultiBlink_entry (now : Z) (env : tick_env) (T : sequence_t)
    (G : globals) (S : scratchpad_t) : option (globals * scratchpad_t) :=
  if enabled S then
    ins ← zget (state T) (currentState S);
    let timeExpired := sub32 now (lastWakeup S) >=? activeTime ins in
    '(G1, S1, setNextState, nextState) ←
        dispatch now env (ledId T) ins timeExpired G S;
    Some (G1, transition ins S1 setNextState nextState)
  else Some (G, S).

(** [void MultiBlink(const sequence_t *pT, scratchpad_t *pS,
    const uint8_t tableSize)]: [now] is [millis()] read on entry, [envs i]
    is what the body for entry [i] reads. *)
Fixpoint MultiBlink_loop (now : Z) (envs : nat -> tick_env) (i : nat)
    (tableSize : nat) (pT : list sequence_t) (pS : list scratchpad_t)
    (G : globals) : option (globals * list scratchpad_t) :=
  match tableSize with
  | O => Some (G, pS)
  | Datatypes.S n =>
      match pT, pS with
      | T :: pT', S0 :: pS' =>
          '(G1, S1) ← MultiBlink_entry now (envs i) T G S0;
          '(G2, rest) ← MultiBlink_loop now envs (Datatypes.S i) n pT' pS' G1;
          Some (G2, S1 :: rest)
      | _, _ => None
      end
  end.

Definition MultiBlink (now : Z) (envs : nat -> tick_env)
    (pT : list sequence_t) (pS : list scratchpad_t) (tableSize : nat)
    (G : globals) : option (globals * list scratchpad_t) :=
  MultiBlink_loop now envs 0 tableSize pT pS G.

(** One table entry polled at successive passes: each element of [ticks]
    is the time base of a pass with what the pass reads. *)
Fixpoint run_entry (T : sequence_t) (ticks : list (Z * tick_env))
    (G : globals) (S : scratchpad_t) : option (globals * scratchpad_t) :=
  match ticks with
  | [] => Some (G, S)
  | (now, env) :: rest =>
      '(G1, S1) ← MultiBlink_entry now env T G S;
      run_entry T rest G1 S1
  end.

(** The bound the wrap-around of a transition is meant to establish. *)
Definition MAX_STATE_range (cs : Z) : Prop := 0 <= cs < MAX_STATE.

(** The state of a scratchpad that [BlinkInit] at time [now] leaves. *)
Definition is_reset (now : Z) (S : scratchpad_t) : Prop :=
  enabled S = true /\ currentState S = 0 /\ counter S = 0 /\
  lastWakeup S = now /\ nf S = None.

(** The number of scratchpads that own a [cNeoFade]. *)
Fixpoint owned_count (pS : list scratchpad_t) : nat :=
  match pS with
  | [] => O
  | S0 :: rest =>
      match nf S0 with
      | Some _ => Datatypes.S (owned_count rest)
      | None => owned_count rest
      end
  end.

(** The state values the [switch] of [MultiBlink] has a [case] for. *)
Definition known_stateID (id : Z) : Prop :=
  id = MB_NULL \/ id = MB_SET \/ id = MB_FADE \/ id = MB_LOOP \/
  id = MB_GOTO \/ id = MB_STOP.

(** The condition [now - pS->lastWakeup >= T.state[cs].activeTime]. *)
Definition expired (now : Z) (S : scratchpad_t) (ins : stateDef_t) : Prop :=
  activeTime ins <= sub32 now (lastWakeup S).

(** The scratchpad after the [k]-th expiry of a loop state [DO(t, j, n)]:
    a jump to state [j] with [k] loops counted while [k < n], and the next
    state in sequence with the counter back at 0 at [k = n]. *)
Definition loop_expiry_outcome (n k : Z) (ins : stateDef_t) (S : scratchpad_t)
  : scratchpad_t :=
  if k <? n then
    mkScratchpad (enabled S) (data1 ins)
                 (add32 (lastWakeup S) (activeTime ins)) (nf S) k
  else
    mkScratchpad (enabled S) ((currentState S + 1) mod MAX_STATE)
                 (add32 (lastWakeup S) (activeTime ins)) (nf S) 0.

(** "A loop state with count [n] is left in sequence at its [n]-th expiry
    and jumps at each expiry before": the loop counter holds [k - 1] when
    the state expires for the [k]-th time since the loop was entered. *)
Definition LOOP_repeats (n : Z) : Prop :=
  forall (now : Z) (env : tick_env) (T : sequence_t) (G : globals)
         (S : scratchpad_t) (ins : stateDef_t) (k : Z),
    enabled S = true ->
    is_uint8 (currentState S) ->
    zget (state T) (currentState S) = Some ins ->
    stateID ins = MB_LOOP ->
    data2 ins = n ->
    MAX_STATE_range (data1 ins) ->
    expired now S ins ->
    1 <= k <= n ->
    counter S = k - 1 ->
    MultiBlink_entry now env T G S = Some (G, loop_expiry_outcome n k ins S).

(** A two-state loop body: hold a colour, then [DO(0, 0, n)].  With active
    times of 0 every pass makes one transition. *)
Definition loop_table (id c n : Z) : sequence_t :=
  mkSequence id [SET 0 c; DO 0 0 n; NOP; NOP; NOP].

(** The largest of the three component distances of two colours. *)
Definition max_delta (c0 c1 : CRGB) : Z :=
  Z.max (Z.abs (FastLED.r c1 - FastLED.r c0))
        (Z.max (Z.abs (FastLED.g c1 - FastLED.g c0))
               (Z.abs (FastLED.b c1 - FastLED.b c0))).

(** Successive calls of [getNext] on one fade object; each call is the
    pair of its argument [nowTime] and of what [millis()] returns inside
    it.  The result counts the calls that returned [true]. *)
Fixpoint getNext_run (calls : list (Z * Z)) (f : cNeoFade) : nat * cNeoFade :=
  match calls with
  | [] => (O, f)
  | (nowTime, ms) :: rest =>
      let '(f1, ret, _) := getNext nowTime ms f in
      let '(n, f2) := getNext_run rest f1 in
      (if ret then Datatypes.S n else n, f2)
  end.

(** A call is due when it gets past the timing test at the head of
    [getNext]. *)
Definition is_due (nowTime : Z) (f : cNeoFade) : bool :=
  negb (negb (_ended f) && (sub32 nowTime (_timeStart f) <? _timeInterval f)).

(** The number of due calls in a run. *)
Fixpoint due_calls (calls : list (Z * Z)) (f : cNeoFade) : nat :=
  match calls with
  | [] => O
  | (nowTime, ms) :: rest =>
      let n := due_calls rest (fst (fst (getNext nowTime ms f))) in
      if is_due nowTime f then Datatypes.S n else n
  end.

(** An enabled scratchpad at state [cs] with [j] loops counted. *)
Definition at_state (w : Z) (p : option cNeoFade) (cs j : Z) : scratchpad_t :=
  mkScratchpad true cs w p j.

(** The first entry of the table [T1] of the sketch: an emergency-vehicle
    double flasher on LED 0. *)
Definition T1_0 : sequence_t :=
  mkSequence 0 [SET 100 FastLED.Blue; SET 50 FastLED.Red; DO 0 0 4;
                SET 600 FastLED.Black; NOP].

(** One pass per millisecond from time [t0], [n] passes. *)
Definition every_ms (t0 : Z) (n : nat) : list (Z * tick_env) :=
  map (fun i => (t0 + Z.of_nat i, mkEnv (t0 + Z.of_nat i) true)) (seq 0 n).

(** The colours stored in LED [id], oldest first. *)
Definition colours_of (id : Z) (tr : list event) : list CRGB :=
  rev (omap (fun e => match e with
                      | EvWrite i c => if i =? id then Some c else None
                      | _ => None
                      end) tr).

(** ** The colours of a fade *)

(** The colours that the calls of a run return with [true], in order. *)
Fixpoint getNext_colours (calls : list (Z * Z)) (f : cNeoFade) : list CRGB :=
  match calls with
  | [] => []
  | (nowTime, ms) :: rest =>
      match getNext nowTime ms f with
      | (f1, true, Some rgb) => rgb :: getNext_colours rest f1
      | (f1, _, _) => getNext_colours rest f1
      end
  end.

(** The number of unit moves an axis of distance [d] has made after [k]
    steps of a line whose longest axis is [D]: [k * d / D] rounded to the
    nearest, a half rounding down. *)
Definition axis_moves (d D k : Z) : Z := (k * d + (D - 1 - D / 2)) / D.

(** The position on one axis after [k] steps. *)
Definition axis_point (x0 x1 D k : Z) : Z :=
  if x0 <? x1 then x0 + axis_moves (Z.abs (x1 - x0)) D k
  else x0 - axis_moves (Z.abs (x1 - x0)) D k.

(** The point of the line from [c0] to [c1] after [k] steps. *)
Definition fade_point (c0 c1 : CRGB) (k : Z) : CRGB :=
  FastLED.mkCRGB
    (axis_point (FastLED.r c0) (FastLED.r c1) (max_delta c0 c1) k)
    (axis_point (FastLED.g c0) (FastLED.g c1) (max_delta c0 c1) k)
    (axis_point (FastLED.b c0) (FastLED.b c1) (max_delta c0 c1) k).

(** One axis of a fade object that has made [k] steps from [x0] towards
    [x1]: position [x], error term [e], distance [d], direction [s]. *)
Definition axis_inv (x0 x1 D k x e d s : Z) : Prop :=
  d = Z.abs (x1 - x0) /\ s = (if x0 <? x1 then 1 else -1) /\
  0 <= e < D /\ x = axis_point x0 x1 D k /\
  e + k * d = D / 2 + axis_moves d D k * D.

(** A fade object from [c0] to [c1] that has made [k] steps and has not
    ended. *)
Definition fade_inv (c0 c1 : CRGB) (k : Z) (f : cNeoFade) : Prop :=
  _ended f = false /\ 0 <= k <= max_delta c0 c1 /\
  _steps f = max_delta c0 c1 - k /\ _dMax f = max_delta c0 c1 /\
  axis_inv (FastLED.r c0) (FastLED.r c1) (max_delta c0 c1) k
           (_r0 f) (_r1 f) (_dR f) (_sR f) /\
  axis_inv (FastLED.g c0) (FastLED.g c1) (max_delta c0 c1) k
           (_g0 f) (_g1 f) (_dG f) (_sG f) /\
  axis_inv (FastLED.b c0) (FastLED.b c1) (max_delta c0 c1) k
           (_b0 f) (_b1 f) (_dB f) (_sB f).

(** [b] is [a] or one unit from [a] in the direction of [target], and not
    beyond it. *)
Definition one_unit_towards (target a b : Z) : Prop :=
  (a <= b <= target \/ target <= b <= a) /\ Z.abs (b - a) <= 1.

(** [n] calls of [getNext], one every [dt] milliseconds. *)
Definition every_call (dt : Z) (n : nat) : list (Z * Z) :=
  map (fun i => (dt * Z.of_nat (S i), dt * Z.of_nat (S i))) (seq 0 n).

(** ** Tables that keep a pass defined *)

(** A state definition that cannot take [MultiBlink] out of its defined
    behaviour: a fade between two different colours, a jump whose target
    is not negative as an [int16_t] (or is the "no jump" value -1). *)
Definition state_safe (ins : stateDef_t) : bool :=
  if stateID ins =? MB_FADE then
    negb (fade_dMax (FastLED.of_code (data1 ins))
                    (FastLED.of_code (data2 ins)) =? 0)
  else if (stateID ins =? MB_LOOP) || (stateID ins =? MB_GOTO) then
    -1 <=? to_int16 (data1 ins)
  else true.

(** A table entry with [MAX_STATE] safe states and an LED inside an array
    of [nleds] LEDs. *)
Definition sequence_safe (nleds : nat) (T : sequence_t) : bool :=
  (Z.of_nat (length (state T)) =? MAX_STATE)
  && (0 <=? ledId T) && (ledId T <? Z.of_nat nleds)
  && forallb state_safe (state T).

(** The fade objects alive after a trace: those made less those
    deleted. *)
Fixpoint live (tr : list event) : Z :=
  match tr with
  | [] => 0
  | EvNew :: rest => live rest + 1
  | EvDelete :: rest => live rest - 1
  | EvWrite _ _ :: rest => live rest
  end.

(** What a pass over one entry may do to the globals: nothing, or one
    store into the LED of the entry with [needsUpdate] set, next to which a
    fade object may be made or deleted. *)
Inductive entry_effect (id : Z) (G : globals) (S : scratchpad_t)
    (G' : globals) (S' : scratchpad_t) : Prop :=
  | effect_none :
      G' = G ->
      (is_Some (nf S') <-> is_Some (nf S)) ->
      entry_effect id G S G' S'
  | effect_store (c : CRGB) (l : list CRGB) (ev : list event) :
      zset (leds G) id c = Some l ->
      G' = mkGlobals l true (EvWrite id c :: ev ++ trace G) ->
      (ev = [] /\ (is_Some (nf S') <-> is_Some (nf S))
       \/ ev = [EvNew] /\ nf S = None /\ is_Some (nf S')
       \/ ev = [EvDelete] /\ is_Some (nf S) /\ nf S' = None) ->
      entry_effect id G S G' S'.

(** 1 when the scratchpad owns a fade object, 0 when not. *)
Definition owned (S : scratchpad_t) : Z := Z.of_nat (owned_count [S]).

(** Successive passes of [MultiBlink] over one table: each element of
    [passes] is the time base of a pass with what its entries read. *)
Fixpoint run_table (pT : list sequence_t)
    (passes : list (Z * (nat -> tick_env))) (pS : list scratchpad_t)
    (G : globals) : option (globals * list scratchpad_t) :=
  match passes with
  | [] => Some (G, pS)
  | (now, envs) :: rest =>
      '(G1, pS1) ← MultiBlink now envs pT pS (length pT) G;
      run_table pT rest pS1 G1
  end.

(** ** The sketch: its tables, [LEDInit], [switchState], [InitTables],
    [setup] and [loop] *)

Module Sketch.

Definition T_WAIT : Z := 200.
Definition T_FADE : Z := to_uint16 (Z.quot NUM_LEDS 2 * T_WAIT).
Definition COL_ON : Z := FastLED.Yellow.
Definition COL_OFF : Z := FastLED.Black.

(** Alternate double flashers, like emergency vehicles *)
Definition T1 : list sequence_t :=
  [ mkSequence 0 [SET 100 FastLED.Blue; SET 50 FastLED.Red; DO 0 0 4; SET 600 FastLED.Black; NOP];
    mkSequence 1 [SET 50 FastLED.Red; SET 100 FastLED.Blue; DO 0 0 4; SET 600 FastLED.Black; NOP];
    mkSequence 2 [SET 600 FastLED.Black; SET 50 FastLED.Red; SET 100 FastLED.Blue; DO 0 1 4; NOP];
    mkSequence 3 [SET 600 FastLED.Black; SET 100 FastLED.Blue; SET 50 FastLED.Red; DO 0 1 4; NOP];
    mkSequence 4 [SET 600 FastLED.Black; SET 100 FastLED.Blue; SET 50 FastLED.Red; DO 0 1 4; NOP];
    mkSequence 5 [SET 600 FastLED.Black; SET 50 FastLED.Red; SET 100 FastLED.Blue; DO 0 1 4; NOP];
    mkSequence 6 [SET 50 FastLED.Red; SET 100 FastLED.Blue; DO 0 0 4; SET 600 FastLED.Black; NOP];
    mkSequence 7 [SET 100 FastLED.Blue; SET 50 FastLED.Red; DO 0 0 4; SET 600 FastLED.Black; NOP] ].

(** Wing tip flashers, a fade in and out, a lighthouse beam, a railway
    crossing *)
Definition T2 : list sequence_t :=
  [ mkSequence 0 [SET 20 FastLED.White; SET 50 FastLED.Black; DO 0 0 3; SET 250 FastLED.White; SET 530 FastLED.Black];
    mkSequence 1 [SET 530 FastLED.Black; SET 20 FastLED.White; SET 50 FastLED.Black; DO 0 1 3; SET 250 FastLED.White];
    mkSequence 3 [FADE 2048 FastLED.Black FastLED.SeaGreen; FADE 2048 FastLED.SeaGreen FastLED.Black; DO 1000 0 4; STOP; NOP];
    mkSequence 4 [FADE 1400 FastLED.Black FastLED.Beige; SET 100 FastLED.Beige; FADE 1400 FastLED.Beige FastLED.Black; NOP; NOP];
    mkSequence 6 [SET 1000 FastLED.Black; SET 1000 FastLED.Red; NOP; NOP; NOP];
    mkSequence 7 [SET 1000 FastLED.Red; SET 1000 FastLED.Black; NOP; NOP; NOP] ].

(** Fading LED chaser *)
Definition T3 : list sequence_t :=
  map (fun i =>
         mkSequence i [GOTO (T_WAIT * i) 1; FADE T_FADE COL_ON COL_OFF;
                       GOTO (T_WAIT * (7 - i)) 0; NOP; NOP])
      [0; 1; 2; 3; 4; 5; 6; 7].

(** The static and global variables of the sketch, with the frames that
    [FastLED.show()] has sent to the strip, newest first. *)
Record state : Type := mkState {
  glob : globals;              (* leds, needsUpdate *)
  S1 : list scratchpad_t;      (* scratchpad_t S1[ARRAY_SIZE(T1)] *)
  S2 : list scratchpad_t;
  S3 : list scratchpad_t;
  nTable : Z;                  (* static uint8_t nTable in loop() *)
  bLastHigh : bool;            (* static bool bLastHigh in switchState() *)
  shown : list (list CRGB)
}.

(** The variables as the program starts: zero-initialised storage and the
    two initialised statics. *)
Definition power_on : state :=
  mkState (mkGlobals (replicate (Z.to_nat NUM_LEDS) (FastLED.mkCRGB 0 0 0))
                     false [])
          (replicate (length T1) (mkScratchpad false 0 0 None 0))
          (replicate (length T2) (mkScratchpad false 0 0 None 0))
          (replicate (length T3) (mkScratchpad false 0 0 None 0))
          0 true [].

(** The loop of [LEDInit]: [leds[i] = CRGB::Black] for [n] more LEDs from
    [i] on. *)
Fixpoint LEDInit_loop (i : Z) (n : nat) (G : globals) : option globals :=
  match n with
  | O => Some G
  | Datatypes.S n' =>
      G1 ← led_store i (FastLED.of_code FastLED.Black) G;
      LEDInit_loop (i + 1) n' G1
  end.

(** [void LEDInit(void)] *)
Definition LEDInit (G : globals) : option globals :=
  G1 ← LEDInit_loop 0 (Z.to_nat NUM_LEDS) G;
  Some (set_needsUpdate G1).

(** [bool switchState(void)]: [pin] is [digitalRead(SWITCH_TABLE) == HIGH];
    the result is the value returned and the new [bLastHigh]. *)
Definition switchState (pin : bool) (last : bool) : bool * bool :=
  let b := pin in
  let bRet := negb last && b in
  (bRet, b).

(** [void InitTables(void)]: [t1], [t2], [t3] are the values of [millis()]
    that the three calls of [BlinkInit] read. *)
Definition InitTables (t1 t2 t3 : Z) (st : state) : option state :=
  G0 ← LEDInit (glob st);
  '(G1, pS1) ← BlinkInit t1 (S1 st) (length (S1 st)) G0;
  '(G2, pS2) ← BlinkInit t2 (S2 st) (length (S2 st)) G1;
  '(G3, pS3) ← BlinkInit t3 (S3 st) (length (S3 st)) G2;
  Some (mkState G3 pS1 pS2 pS3 (nTable st) (bLastHigh st) (shown st)).

(** [void setup(void)]: the part that touches the state is
    [InitTables()]. *)
Definition setup (t1 t2 t3 : Z) : option state := InitTables t1 t2 t3 power_on.

(** What one call of [loop] reads from outside. *)
Record loop_in : Type := mkLoopIn {
  pin : bool;                    (* digitalRead(SWITCH_TABLE) == HIGH *)
  init_ms : Z * Z * Z;           (* millis() in the three BlinkInit calls *)
  now : Z;                       (* millis() on entry of MultiBlink *)
  envs : nat -> tick_env         (* what the pass over entry i reads *)
}.

(** [if (needsUpdate) { FastLED.show(); needsUpdate = false; }] *)
Definition show_if_needed (st : state) : state :=
  if needsUpdate (glob st) then
    mkState (mkGlobals (leds (glob st)) false (trace (glob st)))
            (S1 st) (S2 st) (S3 st) (nTable st) (bLastHigh st)
            (leds (glob st) :: shown st)
  else st.

(** [loop], first part: "check if we need to switch table". *)
Definition loop_switch (i : loop_in) (st : state) : option state :=
  let '(bRet, last) := switchState (pin i) (bLastHigh st) in
  if bRet then
    let '(t1, t2, t3) := init_ms i in
    InitTables t1 t2 t3
      (mkState (glob st) (S1 st) (S2 st) (S3 st)
               (to_uint8 (nTable st + 1)) last (shown st))
  else
    Some (mkState (glob st) (S1 st) (S2 st) (S3 st) (nTable st) last
                  (shown st)).

(** [loop], last part: "run with the selected table". *)
Definition loop_run (i : loop_in) (st : state) : option state :=
  if nTable st =? 0 then
    '(G', pS') ← MultiBlink (now i) (envs i) T1 (S1 st) (length T1) (glob st);
    Some (mkState G' pS' (S2 st) (S3 st) (nTable st) (bLastHigh st) (shown st))
  else if nTable st =? 1 then
    '(G', pS') ← MultiBlink (now i) (envs i) T2 (S2 st) (length T2) (glob st);
    Some (mkState G' (S1 st) pS' (S3 st) (nTable st) (bLastHigh st) (shown st))
  else if nTable st =? 2 then
    '(G', pS') ← MultiBlink (now i) (envs i) T3 (S3 st) (length T3) (glob st);
    Some (mkState G' (S1 st) (S2 st) pS' (nTable st) (bLastHigh st) (shown st))
  else
    Some (mkState (glob st) (S1 st) (S2 st) (S3 st) 0 (bLastHigh st)
                  (shown st)).

(** [void loop(void)] *)
Definition loop (i : loop_in) (st : state) : option state :=
  st1 ← loop_switch i st;
  loop_run i (show_if_needed st1).

(** [setup] followed by calls of [loop]. *)
Fixpoint run_loop (inputs : list loop_in) (st : state) : option state :=
  match inputs with
  | [] => Some st
  | i :: rest => st1 ← loop i st; run_loop rest st1
  end.

(** Successive calls of [switchState]: the values returned. *)
Fixpoint switch_run (pins : list bool) (last : bool) : list bool :=
  match pins with
  | [] => []
  | p :: rest =>
      let '(bRet, last') := switchState p last in
      bRet :: switch_run rest last'
  end.

(** The arrays have their sizes and every state index is inside its
    table. *)
Definition arrays_ok (st : state) : Prop :=
  length (leds (glob st)) = Z.to_nat NUM_LEDS
  /\ length (S1 st) = length T1 /\ length (S2 st) = length T2
  /\ length (S3 st) = length T3
  /\ Forall (fun S0 => MAX_STATE_range (currentState S0)) (S1 st)
  /\ Forall (fun S0 => MAX_STATE_range (currentState S0)) (S2 st)
  /\ Forall (fun S0 => MAX_STATE_range (currentState S0)) (S3 st).

(** The state is within the bounds of its arrays and selects one of the
    three tables. *)
Definition in_bounds (st : state) : Prop :=
  arrays_ok st /\ 0 <= nTable st <= 2.

(** The strip shows the LED array unless [needsUpdate] is set. *)
Definition coherent (st : state) : Prop :=
  needsUpdate (glob st) = false -> head (shown st) = Some (leds (glob st)).

(** Every fade object alive is owned by a scratchpad of one of the three
    tables. *)
Definition balanced (st : state) : Prop :=
  live (trace (glob st))
  = Z.of_nat (owned_count (S1 st)) + Z.of_nat (owned_count (S2 st))
    + Z.of_nat (owned_count (S3 st)).

(** All LEDs of the array are black. *)
Definition all_black (G : globals) : Prop :=
  forall j, 0 <= j < NUM_LEDS ->
    zget (leds G) j = Some (FastLED.of_code FastLED.Black).

End Sketch.

(** An input of [loop] with the switch at [p], every clock reading at [t]
    and memory for [new]. *)
Definition loop_at (p : bool) (t : Z) : Sketch.loop_in :=
  Sketch.mkLoopIn p (t, t, t) t (fun _ => mkEnv t true).

(** ** The first sketch, Multi_Blink: two states per LED *)

Module Blink1.

Definition HIGH : Z := 1.
Definition LOW : Z := 0.

Record stateDef : Type := mkStateDef {
  activeVal : Z;     (* uint8_t: digital value for this state (HIGH/LOW) *)
  activeTime : Z     (* uint16_t: time to stay active in this state *)
}.

Record ledTable : Type := mkLed {
  ledPin : Z;             (* uint8_t: Arduino I/O pin number *)
  currentState : Z;       (* uint8_t: current active state *)
  state : list stateDef;  (* stateDef state[2] *)
  lastTransTime : Z       (* uint32_t: millis() of the last transition *)
}.

Definition MAX_STATE : Z := 2.

Definition T : list ledTable :=
  [ mkLed 3 0 [mkStateDef HIGH 300; mkStateDef LOW 300] 0;
    mkLed 4 1 [mkStateDef HIGH 300; mkStateDef LOW 600] 0;
    mkLed 5 0 [mkStateDef HIGH 500; mkStateDef LOW 500] 0;
    mkLed 6 1 [mkStateDef HIGH 50; mkStateDef LOW 100] 0;
    mkLed 7 0 [mkStateDef HIGH 100; mkStateDef LOW 50] 0;
    mkLed 8 1 [mkStateDef HIGH 500; mkStateDef LOW 500] 0;
    mkLed 9 0 [mkStateDef HIGH 400; mkStateDef LOW 600] 0;
    mkLed 10 0 [mkStateDef HIGH 600; mkStateDef LOW 400] 0 ].

(** [digitalWrite(pin, val)] on the levels of the output pins. *)
Definition digitalWrite (pin val : Z) (pins : Z -> Z) : Z -> Z :=
  fun p => if p =? pin then val else pins p.

(** The body of the loop of [setup]: [m] is the value of [millis()]. *)
Definition setup_entry (m : Z) (e : ledTable) (pins : Z -> Z)
  : option (ledTable * (Z -> Z)) :=
  st ← zget (state e) (currentState e);
  Some (mkLed (ledPin e) (currentState e) (state e) m,
        digitalWrite (ledPin e) (activeVal st) pins).

(** [void setup()]: [clk i] is the clock read for entry [i]. *)
Fixpoint setup_from (clk : nat -> Z) (i : nat) (tab : list ledTable)
    (pins : Z -> Z) : option (list ledTable * (Z -> Z)) :=
  match tab with
  | [] => Some ([], pins)
  | e :: rest =>
      '(e1, pins1) ← setup_entry (clk i) e pins;
      '(rest1, pins2) ← setup_from clk (Datatypes.S i) rest pins1;
      Some (e1 :: rest1, pins2)
  end.

Definition setup (clk : nat -> Z) (tab : list ledTable) (pins : Z -> Z) :=
  setup_from clk 0 tab pins.

(** The body of the loop of [loop]: [m1] is the value of [millis()] in
    the test, [m2] the one stored as the time of the transition. *)
Definition loop_entry (m1 m2 : Z) (e : ledTable) (pins : Z -> Z)
  : option (ledTable * (Z -> Z)) :=
  st ← zget (state e) (currentState e);
  if m1 >=? add32 (lastTransTime e) (activeTime st) then
    let cs := to_uint8 ((currentState e + 1) mod MAX_STATE) in
    st' ← zget (state e) cs;
    Some (mkLed (ledPin e) cs (state e) m2,
          digitalWrite (ledPin e) (activeVal st') pins)
  else Some (e, pins).

(** [void loop()]: [clk i] are the two clock readings for entry [i]. *)
Fixpoint loop_from (clk : nat -> Z * Z) (i : nat) (tab : list ledTable)
    (pins : Z -> Z) : option (list ledTable * (Z -> Z)) :=
  match tab with
  | [] => Some ([], pins)
  | e :: rest =>
      '(e1, pins1) ← loop_entry (fst (clk i)) (snd (clk i)) e pins;
      '(rest1, pins2) ← loop_from clk (Datatypes.S i) rest pins1;
      Some (e1 :: rest1, pins2)
  end.

Definition loop (clk : nat -> Z * Z) (tab : list ledTable) (pins : Z -> Z) :=
  loop_from clk 0 tab pins.

(** An entry with its two states and a state index inside them. *)
Definition entry_ok (e : ledTable) : Prop :=
  length (state e) = 2%nat /\ 0 <= currentState e < MAX_STATE.

(** The pin of the entry is at the level of the entry's current state. *)
Definition shows (pins : Z -> Z) (e : ledTable) : Prop :=
  exists st, zget (state e) (currentState e) = Some st
             /\ pins (ledPin e) = activeVal st.

End Blink1.

(** ** The second sketch, Multi_Blink2: delays and loops *)

Module Blink2.

Definition HIGH : Z := 1.
Definition LOW : Z := 0.

(** State values for FSM *)
Definition MB_NULL : Z := 0.
Definition MB_LOW : Z := 1.
Definition MB_HIGH : Z := 2.
Definition MB_LOOP : Z := 3.

Definition LOOP_UNDEF : Z := 255.

Record stateDef : Type := mkStateDef {
  activeVal : Z;    (* uint8_t: state value (MB_* defines) *)
  activeTime : Z;   (* uint16_t: time in this state, or loop counter *)
  nextState : Z     (* uint8_t: if MB_LOOP, the state to loop back to *)
}.

Record ledTable : Type := mkLed {
  ledPin : Z;             (* uint8_t *)
  currentState : Z;       (* uint8_t: current active state *)
  currentLoop : Z;        (* uint8_t: current position in the cycle *)
  state : list stateDef;  (* stateDef state[4] *)
  nextWakeup : Z          (* uint32_t: the time for the next wakeup *)
}.

Definition MAX_STATE : Z := 4.

(** [(++T[i].currentState) % MAX_STATE] *)
Definition next_state (cs : Z) : Z := to_uint8 (to_uint8 (cs + 1) mod MAX_STATE).

(** The body of the loop of [loop]: [m1] is the value of [millis()] in
    the test, [m2] the one the next wake-up is counted from. *)
Definition loop_entry (m1 m2 : Z) (e : ledTable) (pins : Z -> Z)
  : option (ledTable * (Z -> Z)) :=
  if m1 >=? nextWakeup e then
    st ← zget (state e) (currentState e);
    let wake := add32 m2 (activeTime st) in
    if (activeVal st =? MB_LOW) || (activeVal st =? MB_HIGH) then
      Some (mkLed (ledPin e) (next_state (currentState e)) (currentLoop e)
                  (state e) wake,
            Blink1.digitalWrite (ledPin e)
              (if activeVal st =? MB_HIGH then HIGH else LOW) pins)
    else if activeVal st =? MB_LOOP then
      let cl := if currentLoop e =? LOOP_UNDEF
                then to_uint8 (activeTime st) else currentLoop e in
      if cl >? 0 then
        Some (mkLed (ledPin e) (nextState st) (to_uint8 (cl - 1)) (state e) 0,
              pins)
      else
        Some (mkLed (ledPin e) (next_state (currentState e)) LOOP_UNDEF
                    (state e) wake,
              pins)
    else
      Some (mkLed (ledPin e) (next_state (currentState e)) (currentLoop e)
                  (state e) wake,
            pins)
  else Some (e, pins).


End Blink2.

(** ** A loop inside a loop *)

(** A loop state [DO(0, 0, m)] followed by an outer loop state
    [DO(0, 0, n)] over the same body. *)
Definition nested_table (id c m n : Z) : sequence_t :=
  mkSequence id [SET 0 c; DO 0 0 m; DO 0 0 n; NOP; NOP].


(** ** The expiries of the loop states over a run *)

(** The state of an enabled entry whose time has passed at a pass: the
    test [timeExpired] at the head of the loop body of [MultiBlink]. *)
Definition expiring (now : Z) (T : sequence_t) (S : scratchpad_t)
  : option stateDef_t :=
  if enabled S then
    ins ← zget (state T) (currentState S);
    if sub32 now (lastWakeup S) >=? activeTime ins then Some ins else None
  else None.

(** The pass finds a loop state with its time passed. *)
Definition loop_expiring (now : Z) (T : sequence_t) (S : scratchpad_t) : bool :=
  match expiring now T S with
  | Some ins => stateID ins =? MB_LOOP
  | None => false
  end.

(** The passes of a run at which a loop state expires, in order, each as
    the scratchpad before and after the pass.  The run is followed up to
    its first undefined pass. *)
Fixpoint loop_passes (T : sequence_t) (ticks : list (Z * tick_env))
    (G : globals) (S : scratchpad_t) : list (scratchpad_t * scratchpad_t) :=
  match ticks with
  | [] => []
  | (now, env) :: rest =>
      match MultiBlink_entry now env T G S with
      | Some (G1, S1) =>
          (if loop_expiring now T S then [(S, S1)] else [])
          ++ loop_passes T rest G1 S1
      | None => []
      end
  end.

(** The expiries of the loop state at index [L]. *)
Definition at_index (L : Z) (p : scratchpad_t * scratchpad_t) : bool :=
  currentState (fst p) =? L.

(** "The loop state [ins] at index [L] is left in sequence at every [n]-th
    of its expiries and jumps at the others", [n] being its count: the
    expiry number [i] of the run, counted from 0, is the [k]-th of its
    round with [k = i mod n + 1]. *)
Definition LOOP_visits (T : sequence_t) (L : Z) (ins : stateDef_t)
    (ticks : list (Z * tick_env)) (G : globals) (S : scratchpad_t) : Prop :=
  forall (i : nat) (Sb Sa : scratchpad_t),
    List.filter (at_index L) (loop_passes T ticks G S) !! i = Some (Sb, Sa) ->
    Sa = loop_expiry_outcome (data2 ins) (Z.of_nat i mod data2 ins + 1) ins Sb.

(** A loop state that jumps to itself. *)
Definition self_loop_table (id n : Z) : sequence_t :=
  mkSequence id [DO 0 0 n; NOP; NOP; NOP; NOP].

(** A strip of [NUM_LEDS] LEDs that all show the colour [c], nothing
    pending. *)
Definition strip_of (c : Z) : globals :=
  mkGlobals (replicate (Z.to_nat NUM_LEDS) (FastLED.of_code c)) false [].
(** * Properties *)

(** ** Integer conversions *)

Section Conversions.

Lemma to_uint8_id z : is_uint8 z -> to_uint8 z = z.
Proof. unfold is_uint8, to_uint8. intros. apply Z.mod_small. lia. Qed.

Lemma to_uint16_id z : is_uint16 z -> to_uint16 z = z.
Proof. unfold is_uint16, to_uint16. intros. apply Z.mod_small. lia. Qed.

Lemma to_int16_id z : -32768 <= z < 32768 -> to_int16 z = z.
Proof. unfold to_int16. intros. rewrite Z.mod_small; lia. Qed.

Lemma to_uint16_range z : is_uint16 (to_uint16 z).
Proof. unfold is_uint16, to_uint16. apply Z.mod_pos_bound. lia. Qed.


Lemma to_int16_range z : -32768 <= to_int16 z < 32768.
Proof.
  unfold to_int16.
  pose proof (Z.mod_pos_bound (z + 32768) 65536). lia.
Qed.

Lemma of_code_valid code : FastLED.valid (FastLED.of_code code).
Proof.
  assert (Hb : forall x, is_uint8 (Z.land x 255)).
  { intros x. unfold is_uint8. change 255 with (Z.ones 8).
    rewrite Z.land_ones by lia. apply Z.mod_pos_bound. lia. }
  unfold FastLED.valid, FastLED.of_code. simpl. auto.
Qed.

End Conversions.

(** ** Array access *)

Section Arrays.
Context {A : Type}.
Implicit Types (a : list A) (i : Z) (x : A).

Lemma zget_Some_range a i x :
  zget a i = Some x -> 0 <= i < Z.of_nat (length a).
Proof.
  unfold zget. destruct (Z.ltb_spec i 0); [discriminate|].
  intros H1. apply lookup_lt_Some in H1. lia.
Qed.

Lemma zset_Some a i x :
  0 <= i < Z.of_nat (length a) -> zset a i x = Some (<[Z.to_nat i := x]> a).
Proof.
  intros Hi. unfold zset.
  destruct (Z.leb_spec 0 i); [|lia].
  destruct (Z.ltb_spec i (Z.of_nat (length a))); [reflexivity|lia].
Qed.

Lemma zget_insert a i x :
  0 <= i < Z.of_nat (length a) -> zget (<[Z.to_nat i := x]> a) i = Some x.
Proof.
  intros Hi. unfold zget. destruct (Z.ltb_spec i 0); [lia|].
  apply list_lookup_insert_eq. lia.
Qed.

End Arrays.

Lemma led_store_Some id c G old :
  zget (leds G) id = Some old ->
  exists l, led_store id c G = Some (mkGlobals l (needsUpdate G) (EvWrite id c :: trace G))
            /\ zget l id = Some c /\ length l = length (leds G).
Proof.
  intros Hold. apply zget_Some_range in Hold.
  exists (<[Z.to_nat id := c]> (leds G)). unfold led_store.
  rewrite (zset_Some _ _ _ Hold). simpl.
  split; [reflexivity|]. split; [by apply zget_insert|apply length_insert].
Qed.

(** ** The state transition *)

(** Sequential advance from a [uint8_t] state index. *)
Lemma transition_sequential ins S nextState :
  is_uint8 (currentState S) ->
  transition ins S true nextState =
    mkScratchpad (enabled S) ((currentState S + 1) mod MAX_STATE)
                 (add32 (lastWakeup S) (activeTime ins)) (nf S) (counter S).
Proof.
  unfold is_uint8, transition, MAX_STATE. intros Hcs.
  rewrite to_int16_id by lia.
  destruct (Z.eqb_spec (currentState S + 1) (-1)); [lia|]. simpl.
  rewrite Z.rem_mod_nonneg by lia.
  rewrite to_uint8_id; [reflexivity|].
  pose proof (Z.mod_pos_bound (currentState S + 1) 5). unfold is_uint8. lia.
Qed.

(** A jump whose target, read as [int16_t], is not negative. *)
Lemma transition_jump ins S j :
  0 <= j < 32768 ->
  transition ins S false j =
    mkScratchpad (enabled S) (j mod MAX_STATE)
                 (add32 (lastWakeup S) (activeTime ins)) (nf S) (counter S).
Proof.
  unfold transition, MAX_STATE. intros Hj.
  destruct (Z.eqb_spec j (-1)); [lia|]. simpl.
  rewrite Z.rem_mod_nonneg by lia.
  rewrite to_uint8_id; [reflexivity|].
  pose proof (Z.mod_pos_bound j 5). unfold is_uint8. lia.
Qed.

Lemma transition_none ins S : transition ins S false (-1) = S.
Proof. reflexivity. Qed.

(** Whenever a transition is made, the wake time moves on by the active
    time of the state just left. *)
Lemma transition_wakeup ins S setNext nextState :
  transition ins S setNext nextState = S \/
  lastWakeup (transition ins S setNext nextState) =
    add32 (lastWakeup S) (activeTime ins).
Proof.
  unfold transition.
  destruct (negb _); [right; reflexivity | left; reflexivity].
Qed.

(** The wrap-around keeps the index in bounds for every target that is not
    negative as an [int16_t]. *)
Lemma transition_in_bounds ins S setNext nextState :
  is_uint8 (currentState S) ->
  (setNext = false -> 0 <= nextState < 32768) ->
  MAX_STATE_range (currentState (transition ins S setNext nextState)).
Proof.
  intros Hcs Hj. destruct setNext.
  - rewrite transition_sequential by done. simpl.
    apply Z.mod_pos_bound. reflexivity.
  - rewrite transition_jump by auto. simpl.
    apply Z.mod_pos_bound. reflexivity.
Qed.

Lemma expired_true now S ins :
  expired now S ins -> (sub32 now (lastWakeup S) >=? activeTime ins) = true.
Proof. unfold expired. intros. apply Z.geb_le. lia. Qed.

Lemma expired_false now S ins :
  ~ expired now S ins -> (sub32 now (lastWakeup S) >=? activeTime ins) = false.
Proof.
  unfold expired. intros H.
  destruct (sub32 now (lastWakeup S) >=? activeTime ins) eqn:E; [|reflexivity].
  apply Z.geb_le in E. lia.
Qed.

(** The loop body of [MultiBlink] for an enabled entry, with the state
    definition it reads. *)
Lemma MultiBlink_entry_enabled now env T G S ins :
  enabled S = true ->
  zget (state T) (currentState S) = Some ins ->
  MultiBlink_entry now env T G S =
    '(G1, S1, setNextState, nextState) ←
        dispatch now env (ledId T) ins
                 (sub32 now (lastWakeup S) >=? activeTime ins) G S;
    Some (G1, transition ins S1 setNextState nextState).
Proof. intros He Hi. unfold MultiBlink_entry. rewrite He, Hi. reflexivity. Qed.

Lemma MultiBlink_entry_disabled now env T G S :
  enabled S = false -> MultiBlink_entry now env T G S = Some (G, S).
Proof. intros He. unfold MultiBlink_entry. by rewrite He. Qed.

Lemma run_entry_disabled T ticks G S :
  enabled S = false -> run_entry T ticks G S = Some (G, S).
Proof.
  intros He. induction ticks as [|[now env] rest IH]; [reflexivity|].
  simpl. rewrite MultiBlink_entry_disabled by done. exact IH.
Qed.

(** ** BlinkInit *)

Lemma replicate_app_cons {A : Type} (n : nat) (x : A) (l : list A) :
  replicate n x ++ x :: l = x :: replicate n x ++ l.
Proof. induction n as [|n IH]; simpl; [reflexivity|]. by rewrite IH. Qed.

Lemma BlinkInit_loop_all now pS : forall G,
  exists pS',
    BlinkInit_loop now (length pS) pS G =
      Some (mkGlobals (leds G) (needsUpdate G)
                      (replicate (owned_count pS) EvDelete ++ trace G), pS')
    /\ length pS' = length pS /\ Forall (is_reset now) pS'.
Proof.
  induction pS as [|S0 rest IH]; intros G.
  - exists []. simpl. destruct G; auto.
  - simpl. unfold BlinkInit_entry.
    destruct (IH (match nf S0 with Some _ => log EvDelete G | None => G end))
      as (pS' & Hrun & Hlen & Hall).
    exists (mkScratchpad true 0 now None 0 :: pS'). rewrite Hrun. simpl.
    split; [|split].
    + f_equal. f_equal. destruct (nf S0); simpl; [|reflexivity].
      f_equal. apply replicate_app_cons.
    + by rewrite Hlen.
    + constructor; [|done]. by repeat split.
Qed.

(** C7. After [BlinkInit] over a whole scratchpad table, run at time [now],
    every scratchpad is enabled, at state 0, with loop counter 0, last
    wake-up [now] and no fade object; every fade object that was owned is
    deleted (one [EvDelete] each), the LEDs are untouched and
    [needsUpdate] is set. *)
Theorem BlinkInit_resets_every_scratchpad (now : Z) (pS : list scratchpad_t)
    (G : globals) :
  exists pS',
    BlinkInit now pS (length pS) G =
      Some (mkGlobals (leds G) true
                      (replicate (owned_count pS) EvDelete ++ trace G), pS')
    /\ length pS' = length pS
    /\ Forall (is_reset now) pS'.
Proof.
  destruct (BlinkInit_loop_all now pS G) as (pS' & Hrun & Hlen & Hall).
  exists pS'. unfold BlinkInit. rewrite Hrun. simpl. auto.
Qed.

(** ** MB_STOP *)

Lemma dispatch_STOP now env id ins e G S :
  stateID ins = MB_STOP ->
  dispatch now env id ins e G S = Some (G, set_enabled S false, false, -1).
Proof. intros H. unfold dispatch. rewrite H. reflexivity. Qed.

(** C6. An enabled entry whose current state is [MB_STOP] has its enabled
    flag cleared in that pass, whatever the time, and nothing else
    changes; over any later passes the globals (LEDs, [needsUpdate], no
    new event) and the scratchpad (state index, last wake-up) stay as
    they are. *)
Theorem STOP_is_terminal (now : Z) (env : tick_env) (T : sequence_t)
    (G : globals) (S : scratchpad_t) (ins : stateDef_t)
    (ticks : list (Z * tick_env)) :
  enabled S = true ->
  zget (state T) (currentState S) = Some ins ->
  stateID ins = MB_STOP ->
  MultiBlink_entry now env T G S = Some (G, set_enabled S false)
  /\ enabled (set_enabled S false) = false
  /\ currentState (set_enabled S false) = currentState S
  /\ lastWakeup (set_enabled S false) = lastWakeup S
  /\ forall G', run_entry T ticks G' (set_enabled S false)
                = Some (G', set_enabled S false).
Proof.
  intros He Hi Hid.
  rewrite (MultiBlink_entry_enabled _ _ _ _ _ _ He Hi).
  rewrite dispatch_STOP by done. simpl.
  repeat split; try reflexivity.
  intros G'. by apply run_entry_disabled.
Qed.

Lemma STOP_is_terminal_witness :
  let T := mkSequence 3 [SET 10 FastLED.Red; STOP; NOP; NOP; NOP] in
  let S := mkScratchpad true 1 10 None 0 in
  let G := mkGlobals (replicate 8 (FastLED.of_code FastLED.Red)) false [] in
  MultiBlink_entry 12 (mkEnv 12 true) T G S = Some (G, set_enabled S false)
  /\ run_entry T [(13, mkEnv 13 true); (5000, mkEnv 5000 true)] G
       (set_enabled S false) = Some (G, set_enabled S false).
Proof.
  intros T S G.
  destruct (STOP_is_terminal 12 (mkEnv 12 true) T G S STOP
              [(13, mkEnv 13 true); (5000, mkEnv 5000 true)])
    as (H1 & _ & _ & _ & H2); [reflexivity..|].
  split; [exact H1 | exact (H2 G)].
Defined.

(** ** MB_NULL and the default case *)

Lemma dispatch_NULL now env id ins e G S :
  stateID ins = MB_NULL ->
  dispatch now env id ins e G S = Some (G, S, true, -1).
Proof. intros H. unfold dispatch. rewrite H. reflexivity. Qed.

Lemma dispatch_default now env id ins e G S :
  ~ known_stateID (stateID ins) ->
  dispatch now env id ins e G S = Some (G, S, true, -1).
Proof.
  unfold known_stateID. intros H. unfold dispatch.
  repeat match goal with
  | |- context [?x =? ?y] => destruct (Z.eqb_spec x y); [tauto|]
  end.
  reflexivity.
Qed.

(** C9. For an enabled entry whose current state carries a state value
    with no [case] in the [switch], the pass leaves the globals as they
    are (no store to the LEDs, no event), moves the state index to the
    next one and the wake-up time on by the active time, and this is the
    result of the same pass over a table that has [MB_NULL] in that
    place. *)
Theorem unknown_stateID_as_NULL (now : Z) (env : tick_env) (T T' : sequence_t)
    (G : globals) (S : scratchpad_t) (ins : stateDef_t) :
  enabled S = true ->
  is_uint8 (currentState S) ->
  zget (state T) (currentState S) = Some ins ->
  ~ known_stateID (stateID ins) ->
  zget (state T') (currentState S) =
    Some (mkStateDef MB_NULL (activeTime ins) (data1 ins) (data2 ins)) ->
  MultiBlink_entry now env T G S =
    Some (G, mkScratchpad true ((currentState S + 1) mod MAX_STATE)
                          (add32 (lastWakeup S) (activeTime ins))
                          (nf S) (counter S))
  /\ MultiBlink_entry now env T' G S = MultiBlink_entry now env T G S.
Proof.
  intros He Hcs Hi Hid Hi'.
  rewrite (MultiBlink_entry_enabled _ _ _ _ _ _ He Hi).
  rewrite (MultiBlink_entry_enabled _ _ _ _ _ _ He Hi').
  rewrite dispatch_default by done.
  rewrite dispatch_NULL by reflexivity. simpl.
  rewrite !transition_sequential by done. simpl. rewrite He. auto.
Qed.

Lemma unknown_stateID_as_NULL_witness :
  let T := mkSequence 0 [mkStateDef 9 40 7 7; NOP; NOP; NOP; NOP] in
  let T' := mkSequence 0 [mkStateDef MB_NULL 40 7 7; NOP; NOP; NOP; NOP] in
  let S := mkScratchpad true 0 100 None 0 in
  let G := mkGlobals (replicate 8 (FastLED.of_code FastLED.Black)) false [] in
  MultiBlink_entry 101 (mkEnv 101 true) T G S
    = Some (G, mkScratchpad true 1 140 None 0)
  /\ MultiBlink_entry 101 (mkEnv 101 true) T' G S
     = MultiBlink_entry 101 (mkEnv 101 true) T G S.
Proof.
  intros T T' S G.
  refine (unknown_stateID_as_NULL 101 (mkEnv 101 true) T T' G S
            (mkStateDef 9 40 7 7) _ _ _ _ _);
    try reflexivity; unfold is_uint8, known_stateID; simpl;
    unfold MB_NULL, MB_SET, MB_FADE, MB_LOOP, MB_GOTO, MB_STOP; lia.
Defined.

(** ** MB_LOOP *)

Lemma dispatch_LOOP now env id ins e G S :
  stateID ins = MB_LOOP ->
  dispatch now env id ins e G S =
    if e then
      if data2 ins >? to_uint16 (counter S + 1)
      then Some (G, set_counter S (to_uint16 (counter S + 1)), false,
                 to_int16 (data1 ins))
      else Some (G, set_counter S 0, true, -1)
    else Some (G, S, false, -1).
Proof. intros H. unfold dispatch. rewrite H. reflexivity. Qed.

(** An expiry that finds the counter below [n - 1] jumps. *)
Lemma LOOP_expiry_jump now env T G S ins :
  enabled S = true ->
  zget (state T) (currentState S) = Some ins ->
  stateID ins = MB_LOOP ->
  MAX_STATE_range (data1 ins) ->
  expired now S ins ->
  0 <= counter S -> counter S + 1 < data2 ins -> counter S + 1 < 65536 ->
  MultiBlink_entry now env T G S =
    Some (G, mkScratchpad (enabled S) (data1 ins)
                          (add32 (lastWakeup S) (activeTime ins)) (nf S)
                          (counter S + 1)).
Proof.
  unfold MAX_STATE_range, MAX_STATE. intros He Hi Hid Hj Hx Hc0 Hc Hc16.
  rewrite (MultiBlink_entry_enabled _ _ _ _ _ _ He Hi).
  rewrite dispatch_LOOP, expired_true by done.
  rewrite to_uint16_id by (unfold is_uint16; lia).
  destruct (Z.gtb_spec (data2 ins) (counter S + 1)); [|lia]. simpl.
  rewrite to_int16_id by lia. rewrite transition_jump by lia. simpl.
  rewrite Z.mod_small by (unfold MAX_STATE; lia). reflexivity.
Qed.

(** An expiry that brings the counter up to the count (or beyond) goes on
    in sequence. *)
Lemma LOOP_expiry_fall_through now env T G S ins :
  enabled S = true ->
  is_uint8 (currentState S) ->
  zget (state T) (currentState S) = Some ins ->
  stateID ins = MB_LOOP ->
  expired now S ins ->
  data2 ins <= to_uint16 (counter S + 1) ->
  MultiBlink_entry now env T G S =
    Some (G, mkScratchpad (enabled S) ((currentState S + 1) mod MAX_STATE)
                          (add32 (lastWakeup S) (activeTime ins)) (nf S) 0).
Proof.
  intros He Hcs Hi Hid Hx Hc.
  rewrite (MultiBlink_entry_enabled _ _ _ _ _ _ He Hi).
  rewrite dispatch_LOOP, expired_true by done.
  destruct (Z.gtb_spec (data2 ins) (to_uint16 (counter S + 1))); [lia|].
  simpl. rewrite transition_sequential by done. reflexivity.
Qed.

(** One expiry of a loop state [DO(t, j, n)] with [1 <= n <= 65535] and a
    valid target index [j], the loop counter holding [k - 1]: a jump to
    [j] for [k < n], and at [k = n] the counter back at 0 and the next
    state in sequence. *)
Lemma LOOP_repeats_uint16 (n : Z) : 1 <= n <= 65535 -> LOOP_repeats n.
Proof.
  intros Hn now env T G S ins k He Hcs Hi Hid Hd2 Hj Hx Hk Hc.
  unfold loop_expiry_outcome. destruct (Z.ltb_spec k n).
  - rewrite (LOOP_expiry_jump now env T G S ins) by (done || lia).
    do 3 f_equal. lia.
  - apply LOOP_expiry_fall_through; try done.
    rewrite to_uint16_id by (unfold is_uint16; lia). lia.
Qed.

Lemma LOOP_repeats_uint16_witness :
  let T := mkSequence 0 [SET 100 FastLED.Blue; SET 50 FastLED.Red;
                         DO 0 0 4; SET 600 FastLED.Black; NOP] in
  let G := mkGlobals (replicate 8 (FastLED.of_code FastLED.Red)) false [] in
  MultiBlink_entry 150 (mkEnv 150 true) T G (mkScratchpad true 2 150 None 0)
    = Some (G, mkScratchpad true 0 150 None 1)
  /\ MultiBlink_entry 600 (mkEnv 600 true) T G (mkScratchpad true 2 600 None 3)
    = Some (G, mkScratchpad true 3 600 None 0).
Proof.
  intros T G. split.
  - refine (LOOP_repeats_uint16 4 _ 150 (mkEnv 150 true) T G
              (mkScratchpad true 2 150 None 0) (DO 0 0 4) 1 _ _ _ _ _ _ _ _ _);
      try reflexivity;
      unfold is_uint8, MAX_STATE_range, MAX_STATE, expired; simpl; try lia.
    vm_compute. discriminate.
  - refine (LOOP_repeats_uint16 4 _ 600 (mkEnv 600 true) T G
              (mkScratchpad true 2 600 None 3) (DO 0 0 4) 4 _ _ _ _ _ _ _ _ _);
      try reflexivity;
      unfold is_uint8, MAX_STATE_range, MAX_STATE, expired; simpl; try lia.
    vm_compute. discriminate.
Defined.

(** This fails for a count that does not fit the 16-bit loop counter: at the 65536th expiry of [DO(0, 0, 65536)] the counter
    wraps from 65535 to 0 and the state jumps again. *)
Lemma LOOP_repeats_fails_at_65536 : ~ LOOP_repeats 65536.
Proof.
  intros H.
  specialize (H 0 (mkEnv 0 true) (loop_table 0 FastLED.Blue 65536)
                (mkGlobals (replicate 8 (FastLED.of_code FastLED.Blue)) false [])
                (mkScratchpad true 1 0 None 65535) (DO 0 0 65536) 65536).
  assert (Hf : MultiBlink_entry 0 (mkEnv 0 true)
                 (loop_table 0 FastLED.Blue 65536)
                 (mkGlobals (replicate 8 (FastLED.of_code FastLED.Blue)) false [])
                 (mkScratchpad true 1 0 None 65535)
               = Some (mkGlobals (replicate 8 (FastLED.of_code FastLED.Blue)) false [],
                       mkScratchpad true 0 0 None 0)) by reflexivity.
  rewrite Hf in H.
  assert (Hg : Some (mkGlobals (replicate 8 (FastLED.of_code FastLED.Blue)) false [],
                     mkScratchpad true 0 0 None 0)
               = Some (mkGlobals (replicate 8 (FastLED.of_code FastLED.Blue)) false [],
                       mkScratchpad true 2 0 None 0)).
  { apply H; try reflexivity;
      unfold is_uint8, MAX_STATE_range, MAX_STATE, expired; simpl; try lia.
    vm_compute. discriminate. }
  discriminate Hg.
Qed.

(** With a count of 0 the jump condition fails whatever the counter holds. *)
Lemma LOOP_count_zero_never_jumps now env T G S ins :
  enabled S = true ->
  is_uint8 (currentState S) ->
  zget (state T) (currentState S) = Some ins ->
  stateID ins = MB_LOOP ->
  data2 ins = 0 ->
  expired now S ins ->
  MultiBlink_entry now env T G S =
    Some (G, mkScratchpad (enabled S) ((currentState S + 1) mod MAX_STATE)
                          (add32 (lastWakeup S) (activeTime ins)) (nf S) 0).
Proof.
  intros He Hcs Hi Hid Hd2 Hx.
  apply LOOP_expiry_fall_through; try done.
  rewrite Hd2. apply to_uint16_range.
Qed.

(** C10. For a loop state with count 0 entered with the loop counter at 0,
    the first expiry takes the counter to 1, the test [data2 > counter]
    fails, the counter is set back to 0 and the entry goes on to the next
    state in sequence; the pass has the result it has over a table with
    count 1 in that place. *)
Theorem LOOP_count_zero_as_one (now : Z) (env : tick_env) (T T' : sequence_t)
    (G : globals) (S : scratchpad_t) (ins : stateDef_t) :
  enabled S = true ->
  is_uint8 (currentState S) ->
  zget (state T) (currentState S) = Some ins ->
  stateID ins = MB_LOOP ->
  data2 ins = 0 ->
  expired now S ins ->
  counter S = 0 ->
  zget (state T') (currentState S) =
    Some (DO (activeTime ins) (data1 ins) 1) ->
  to_uint16 (counter S + 1) = 1
  /\ (data2 ins >? to_uint16 (counter S + 1)) = false
  /\ MultiBlink_entry now env T G S =
       Some (G, mkScratchpad true ((currentState S + 1) mod MAX_STATE)
                             (add32 (lastWakeup S) (activeTime ins)) (nf S) 0)
  /\ MultiBlink_entry now env T' G S = MultiBlink_entry now env T G S.
Proof.
  intros He Hcs Hi Hid Hd2 Hx Hc Hi'.
  rewrite Hc, Hd2. split; [reflexivity|]. split; [reflexivity|].
  rewrite (LOOP_count_zero_never_jumps now env T G S ins) by done.
  rewrite (LOOP_expiry_fall_through now env T' G S
             (DO (activeTime ins) (data1 ins) 1)); try done.
  - rewrite He. auto.
  - rewrite Hc. vm_compute. discriminate.
Qed.

Lemma LOOP_count_zero_as_one_witness :
  let T := mkSequence 2 [SET 30 FastLED.White; DO 10 0 0; NOP; NOP; NOP] in
  let T' := mkSequence 2 [SET 30 FastLED.White; DO 10 0 1; NOP; NOP; NOP] in
  let S := mkScratchpad true 1 30 None 0 in
  let G := mkGlobals (replicate 8 (FastLED.of_code FastLED.White)) false [] in
  MultiBlink_entry 40 (mkEnv 40 true) T G S
    = Some (G, mkScratchpad true 2 40 None 0)
  /\ MultiBlink_entry 40 (mkEnv 40 true) T' G S
     = MultiBlink_entry 40 (mkEnv 40 true) T G S.
Proof.
  intros T T' S G.
  refine (proj2 (proj2 (LOOP_count_zero_as_one 40 (mkEnv 40 true) T T' G S
                          (DO 10 0 0) _ _ _ _ _ _ _ _)));
    try reflexivity; unfold is_uint8, expired; simpl; try lia.
  vm_compute. discriminate.
Defined.

(** ** MB_GOTO and the wrap-around of the state index *)

Lemma dispatch_GOTO now env id ins e G S :
  stateID ins = MB_GOTO ->
  dispatch now env id ins e G S =
    if e then Some (G, S, false, to_int16 (data1 ins))
    else Some (G, S, false, -1).
Proof. intros H. unfold dispatch. rewrite H. reflexivity. Qed.

(** A jump to a target below 32768 lands in bounds, and the wake-up time
    moves on by the active time. *)
Lemma GOTO_in_bounds now env T G S ins :
  enabled S = true ->
  zget (state T) (currentState S) = Some ins ->
  stateID ins = MB_GOTO ->
  expired now S ins ->
  0 <= data1 ins < 32768 ->
  MultiBlink_entry now env T G S =
    Some (G, mkScratchpad (enabled S) (data1 ins mod MAX_STATE)
                          (add32 (lastWakeup S) (activeTime ins))
                          (nf S) (counter S))
  /\ MAX_STATE_range (data1 ins mod MAX_STATE).
Proof.
  intros He Hi Hid Hx Hj.
  rewrite (MultiBlink_entry_enabled _ _ _ _ _ _ He Hi).
  rewrite dispatch_GOTO, expired_true by done. simpl.
  rewrite to_int16_id by lia. rewrite transition_jump by lia.
  split; [reflexivity|]. apply Z.mod_pos_bound. reflexivity.
Qed.

(** C3 (the code departs from it). [GOTO(0, 65534)]: the target is read
    into the [int16_t nextState] as -2, the test against -1 lets it pass,
    [-2 % MAX_STATE] is -2 and the [uint8_t] state index becomes 254,
    outside [[0, MAX_STATE)]. *)
Theorem GOTO_65534_leaves_bounds :
  let T := mkSequence 0 [GOTO 0 65534; NOP; NOP; NOP; NOP] in
  let G := mkGlobals (replicate 8 (FastLED.of_code FastLED.Black)) false [] in
  MultiBlink_entry 10 (mkEnv 10 true) T G (mkScratchpad true 0 0 None 0)
    = Some (G, mkScratchpad true 254 0 None 0)
  /\ ~ MAX_STATE_range 254
  /\ MultiBlink_entry 11 (mkEnv 11 true) T G (mkScratchpad true 254 0 None 0)
     = None.
Proof.
  intros T G. split; [reflexivity|]. split; [|reflexivity].
  unfold MAX_STATE_range, MAX_STATE. lia.
Qed.

(** The same [int16_t] local makes a target of 65535 equal to the "no
    jump" value -1: the expired [GOTO] makes no transition at all. *)
Lemma GOTO_65535_makes_no_transition :
  let T := mkSequence 0 [GOTO 0 65535; NOP; NOP; NOP; NOP] in
  let G := mkGlobals (replicate 8 (FastLED.of_code FastLED.Black)) false [] in
  MultiBlink_entry 10 (mkEnv 10 true) T G (mkScratchpad true 0 0 None 0)
    = Some (G, mkScratchpad true 0 0 None 0).
Proof. reflexivity. Qed.

(** ** cNeoFade *)

Lemma uiabs_abs a b : is_uint8 a -> is_uint8 b -> uiabs a b = Z.abs (a - b).
Proof.
  unfold is_uint8, uiabs. intros Ha Hb.
  destruct (Z.gtb_spec a b); rewrite to_uint16_id by (unfold is_uint16; lia); lia.
Qed.

Lemma max3_max x y z : max3 x y z = Z.max x (Z.max y z).
Proof.
  unfold max3.
  destruct (Z.gtb_spec x y); [destruct (Z.gtb_spec x z)|destruct (Z.gtb_spec y z)];
    lia.
Qed.

Lemma axis_delta a b :
  is_uint8 a -> is_uint8 b ->
  to_uint16 (to_int16 (uiabs (to_uint16 (to_int16 b)) (to_uint16 (to_int16 a))))
  = Z.abs (b - a).
Proof.
  intros Ha Hb. pose proof Ha as Ha'. pose proof Hb as Hb'.
  unfold is_uint8 in Ha', Hb'.
  rewrite (to_int16_id a), (to_int16_id b) by lia.
  rewrite (to_uint16_id a), (to_uint16_id b) by (unfold is_uint16; lia).
  rewrite uiabs_abs by done.
  rewrite to_int16_id by lia. apply to_uint16_id. unfold is_uint16. lia.
Qed.

(** For colours with 8-bit components the step count is the largest
    component distance. *)
Lemma fade_dMax_max_delta c0 c1 :
  FastLED.valid c0 -> FastLED.valid c1 ->
  fade_dMax c0 c1 = max_delta c0 c1 /\ 0 <= max_delta c0 c1 <= 255.
Proof.
  unfold FastLED.valid, fade_dMax, max_delta.
  intros (Hr0 & Hg0 & Hb0) (Hr1 & Hg1 & Hb1).
  rewrite !axis_delta by done. rewrite max3_max.
  unfold is_uint8 in *. rewrite to_int16_id by lia. lia.
Qed.

Lemma setFade_defined period c0 c1 :
  fade_dMax c0 c1 <> 0 ->
  exists f, setFade period c0 c1 = Some f
            /\ _steps f = fade_dMax c0 c1
            /\ _ended f = false
            /\ _timeInterval f =
                 (if to_uint32 (Z.quot period (fade_dMax c0 c1)) =? 0 then 1
                  else to_uint32 (Z.quot period (fade_dMax c0 c1))).
Proof.
  intros Hd. unfold setFade. fold (fade_dMax c0 c1).
  destruct (Z.eqb_spec (fade_dMax c0 c1) 0); [done|].
  eexists. split; [reflexivity|]. simpl. auto.
Qed.

Lemma setFade_undefined period c0 c1 :
  fade_dMax c0 c1 = 0 -> setFade period c0 c1 = None.
Proof.
  intros Hd. unfold setFade. fold (fade_dMax c0 c1). by rewrite Hd.
Qed.

Lemma setFade_Some_steps period c0 c1 f :
  setFade period c0 c1 = Some f ->
  _steps f = fade_dMax c0 c1 /\ fade_dMax c0 c1 <> 0 /\ _ended f = false.
Proof.
  intros H. destruct (Z.eq_dec (fade_dMax c0 c1) 0) as [Hz|Hz].
  - rewrite setFade_undefined in H by done. discriminate.
  - destruct (setFade_defined period c0 c1 Hz) as (f' & Hf & Hs & He & _).
    rewrite Hf in H. injection H as <-. auto.
Qed.

(** Whenever [setFade] is defined, the interval between colour changes is
    [period / steps] rounded down, and 1 where that is 0. *)
Lemma setFade_interval period c0 c1 f :
  FastLED.valid c0 -> FastLED.valid c1 -> is_uint16 period ->
  setFade period c0 c1 = Some f ->
  _timeInterval f = Z.max 1 (period / max_delta c0 c1).
Proof.
  unfold is_uint16. intros H0 H1 Hp Hf.
  destruct (fade_dMax_max_delta c0 c1 H0 H1) as [Heq Hrange].
  destruct (setFade_Some_steps _ _ _ _ Hf) as (_ & Hnz & _).
  destruct (setFade_defined period c0 c1 Hnz) as (f' & Hf' & _ & _ & Hi).
  rewrite Hf in Hf'. injection Hf' as <-. rewrite Hi, Heq.
  rewrite Heq in Hnz.
  rewrite Z.quot_div_nonneg by lia.
  assert (0 <= period / max_delta c0 c1 <= period).
  { split; [apply Z.div_pos; lia|].
    apply Z.div_le_upper_bound; [lia|]. nia. }
  unfold to_uint32. rewrite Z.mod_small by lia.
  destruct (Z.eqb_spec (period / max_delta c0 c1) 0); lia.
Qed.

(** C2 (the code departs from it). [setFade] between two equal colours:
    all three distances are 0, so [_steps] is 0 and
    [_timeInterval = period / _steps] divides by zero; the construction has
    no defined result.  The entry [FADE(500, Black, Black)] reaches this
    call on its first pass. *)
Theorem setFade_equal_colours_divides_by_zero (period : Z) (c : CRGB) :
  fade_dMax c c = 0
  /\ setFade period c c = None
  /\ MultiBlink_entry 1 (mkEnv 1 true)
       (mkSequence 0 [FADE 500 FastLED.Black FastLED.Black; NOP; NOP; NOP; NOP])
       (mkGlobals (replicate 8 (FastLED.of_code FastLED.Black)) false [])
       (mkScratchpad true 0 0 None 0) = None.
Proof.
  assert (Hd : fade_dMax c c = 0).
  { unfold fade_dMax, uiabs. rewrite !Z.gtb_ltb, !Z.ltb_irrefl, !Z.sub_diag.
    reflexivity. }
  split; [exact Hd|]. split; [by apply setFade_undefined | reflexivity].
Qed.

(** The three ways a call of [getNext] can go. *)
Lemma getNext_cases nowTime ms f :
  (is_due nowTime f = false /\ getNext nowTime ms f = (f, false, None))
  \/ (is_due nowTime f = true /\ _steps f = 0 /\
      exists f1 rgb, getNext nowTime ms f = (f1, false, Some rgb)
                     /\ _ended f1 = true /\ _steps f1 = 0)
  \/ (is_due nowTime f = true /\ _steps f <> 0 /\
      exists f1 rgb, getNext nowTime ms f = (f1, true, Some rgb)
                     /\ _ended f1 = false
                     /\ _steps f1 = to_int16 (_steps f - 1)).
Proof.
  unfold is_due, getNext.
  destruct (negb (_ended f) && (sub32 nowTime (_timeStart f) <? _timeInterval f));
    simpl; [left; auto | right].
  destruct (Z.eqb_spec (_steps f) 0) as [Hz|Hz].
  - left. repeat split; try done. eauto.
  - right. repeat split; try done.
    destruct (axis_step (_r0 f) _ _ _ _), (axis_step (_g0 f) _ _ _ _),
             (axis_step (_b0 f) _ _ _ _).
    eauto.
Qed.

(** Once ended, a fade object returns no further colour. *)
Lemma getNext_run_ended calls : forall f,
  _ended f = true -> _steps f = 0 ->
  fst (getNext_run calls f) = O
  /\ _ended (snd (getNext_run calls f)) = true
  /\ due_calls calls f = length calls.
Proof.
  induction calls as [|[nowTime ms] rest IH]; intros f He Hs; [by simpl|].
  simpl.
  destruct (getNext_cases nowTime ms f)
    as [[Hd _]|[(Hd & _ & f1 & rgb & Hg & He1 & Hs1)|(_ & Hnz & _)]].
  - unfold is_due in Hd. rewrite He in Hd. discriminate.
  - rewrite Hg, Hd. simpl. destruct (IH f1 He1 Hs1) as (H1 & H2 & H3).
    destruct (getNext_run rest f1) as [n f2]. simpl in *. by rewrite H3.
  - done.
Qed.

(** The calls that return a colour are the due calls, up to the step
    count; the object is ended as soon as one more call than that was
    due. *)
Lemma getNext_run_count calls : forall f,
  0 <= _steps f < 32768 -> _ended f = false ->
  Z.of_nat (fst (getNext_run calls f))
    = Z.min (Z.of_nat (due_calls calls f)) (_steps f)
  /\ (_ended (snd (getNext_run calls f)) = true
      <-> _steps f < Z.of_nat (due_calls calls f)).
Proof.
  induction calls as [|[nowTime ms] rest IH]; intros f Hs He.
  - simpl. rewrite He. split; [lia|]. split; [done|lia].
  - simpl.
    destruct (getNext_cases nowTime ms f)
      as [[Hd Hg]|[(Hd & Hz & f1 & rgb & Hg & He1 & Hs1)
                  |(Hd & Hnz & f1 & rgb & Hg & He1 & Hs1)]];
      rewrite Hg, Hd; simpl.
    + destruct (IH f Hs He) as [H1 H2].
      destruct (getNext_run rest f) as [n f2]. simpl in *. auto.
    + destruct (getNext_run_ended rest f1 He1 Hs1) as (H1 & H2 & H3).
      destruct (getNext_run rest f1) as [n f2]. simpl in *.
      rewrite H1, H2, Hz. split; [lia|]. split; [lia|done].
    + rewrite to_int16_id in Hs1 by lia.
      destruct (IH f1) as [H1 H2]; [lia|done|].
      destruct (getNext_run rest f1) as [n f2]. simpl in *.
      rewrite Hs1 in H1, H2. split; [lia|]. rewrite H2. lia.
Qed.

(** C8. A fade object set up for the colours [c0] and [c1] (8-bit
    components) returns, over any sequence of calls of [getNext], one
    colour for each due call until [max(|dr|,|dg|,|db|)] colours were
    returned: the count never exceeds that maximum, and the object is
    ended from the next due call on, that is after exactly that many
    steps. *)
Theorem getNext_returns_max_delta_colours (period : Z) (c0 c1 : CRGB)
    (f : cNeoFade) (calls : list (Z * Z)) :
  FastLED.valid c0 -> FastLED.valid c1 ->
  setFade period c0 c1 = Some f ->
  Z.of_nat (fst (getNext_run calls f))
    = Z.min (Z.of_nat (due_calls calls f)) (max_delta c0 c1)
  /\ Z.of_nat (fst (getNext_run calls f)) <= max_delta c0 c1
  /\ (isEnded (snd (getNext_run calls f)) = true
      <-> max_delta c0 c1 < Z.of_nat (due_calls calls f))
  /\ (isEnded (snd (getNext_run calls f)) = true
      -> Z.of_nat (fst (getNext_run calls f)) = max_delta c0 c1).
Proof.
  intros H0 H1 Hf.
  destruct (fade_dMax_max_delta c0 c1 H0 H1) as [Heq Hrange].
  destruct (setFade_Some_steps _ _ _ _ Hf) as (Hs & _ & He).
  rewrite Heq in Hs.
  destruct (getNext_run_count calls f) as [Hn Hend]; [lia|done|].
  rewrite Hs in Hn, Hend. unfold isEnded.
  split; [exact Hn|]. split; [lia|]. split; [exact Hend|].
  intros Hx. apply Hend in Hx. lia.
Qed.

Lemma getNext_returns_max_delta_colours_witness :
  let c0 := FastLED.of_code 0x000000 in
  let c1 := FastLED.of_code 0x030201 in
  let calls := [(10, 10); (166, 167); (200, 200); (333, 333);
                (499, 500); (666, 666); (900, 900)] in
  exists f,
    setFade 500 c0 c1 = Some f
    /\ Z.of_nat (fst (getNext_run calls f))
        = Z.min (Z.of_nat (due_calls calls f)) (max_delta c0 c1)
    /\ Z.of_nat (fst (getNext_run calls f)) <= max_delta c0 c1
    /\ (isEnded (snd (getNext_run calls f)) = true
        <-> max_delta c0 c1 < Z.of_nat (due_calls calls f))
    /\ (isEnded (snd (getNext_run calls f)) = true
        -> Z.of_nat (fst (getNext_run calls f)) = max_delta c0 c1).
Proof.
  intros c0 c1 calls. eexists. split; [reflexivity|].
  apply (getNext_returns_max_delta_colours 500 c0 c1);
    [apply of_code_valid | apply of_code_valid | reflexivity].
Defined.

(** A run over a fade of three steps, evaluated: three colours, then
    ended. *)
Example getNext_run_three_steps :
  forall f, setFade 500 (FastLED.of_code 0x000000) (FastLED.of_code 0x030201) = Some f ->
  fst (getNext_run [(10, 10); (166, 167); (200, 200); (333, 333);
                    (499, 500); (666, 666); (900, 900)] f) = 3%nat
  /\ isEnded (snd (getNext_run [(10, 10); (166, 167); (200, 200); (333, 333);
                                (499, 500); (666, 666); (900, 900)] f)) = true.
Proof. intros f Hf. injection Hf as <-. split; reflexivity. Qed.

(** ** Runs of one entry *)

Lemma run_entry_app T ticks1 : forall ticks2 G S,
  run_entry T (ticks1 ++ ticks2) G S =
    '(G1, S1) ← run_entry T ticks1 G S; run_entry T ticks2 G1 S1.
Proof.
  induction ticks1 as [|[now env] rest IH]; intros ticks2 G S; [reflexivity|].
  simpl. destruct (MultiBlink_entry now env T G S) as [[G1 S1]|]; simpl; auto.
Qed.

Lemma run_entry_step T now env rest G S G1 S1 :
  MultiBlink_entry now env T G S = Some (G1, S1) ->
  run_entry T ((now, env) :: rest) G S = run_entry T rest G1 S1.
Proof. intros H. simpl. by rewrite H. Qed.

(** ** MB_SET *)

Lemma dispatch_SET now env id ins e G S :
  stateID ins = MB_SET ->
  dispatch now env id ins e G S =
    if bool_decide (zget (leds G) id = Some (FastLED.of_code (data1 ins)))
    then Some (G, S, e, -1)
    else
      match zget (leds G) id with
      | None => None
      | Some _ =>
          G1 ← led_store id (FastLED.of_code (data1 ins)) G;
          Some (set_needsUpdate G1, S, e, -1)
      end.
Proof. intros H. unfold dispatch. rewrite H. reflexivity. Qed.

(** A pass before the expiry that finds the colour in place changes
    nothing. *)
Lemma SET_hold_same now env T G S ins :
  enabled S = true ->
  zget (state T) (currentState S) = Some ins ->
  stateID ins = MB_SET ->
  ~ expired now S ins ->
  zget (leds G) (ledId T) = Some (FastLED.of_code (data1 ins)) ->
  MultiBlink_entry now env T G S = Some (G, S).
Proof.
  intros He Hi Hid Hx Hc.
  rewrite (MultiBlink_entry_enabled _ _ _ _ _ _ He Hi).
  rewrite dispatch_SET, expired_false by done.
  rewrite bool_decide_eq_true_2 by done. reflexivity.
Qed.

(** A pass before the expiry that finds another colour stores the colour
    of the state and sets [needsUpdate]. *)
Lemma SET_hold_other now env T G S ins old :
  enabled S = true ->
  zget (state T) (currentState S) = Some ins ->
  stateID ins = MB_SET ->
  ~ expired now S ins ->
  zget (leds G) (ledId T) = Some old ->
  old <> FastLED.of_code (data1 ins) ->
  exists l,
    MultiBlink_entry now env T G S =
      Some (mkGlobals l true
              (EvWrite (ledId T) (FastLED.of_code (data1 ins)) :: trace G), S)
    /\ zget l (ledId T) = Some (FastLED.of_code (data1 ins)).
Proof.
  intros He Hi Hid Hx Hold Hne.
  rewrite (MultiBlink_entry_enabled _ _ _ _ _ _ He Hi).
  rewrite dispatch_SET, expired_false by done.
  rewrite bool_decide_eq_false_2 by (rewrite Hold; congruence).
  rewrite Hold.
  destruct (led_store_Some (ledId T) (FastLED.of_code (data1 ins)) G old Hold)
    as (l & Hst & Hl & _).
  exists l. rewrite Hst. simpl. auto.
Qed.

Lemma SET_run_same T ticks : forall G S ins,
  enabled S = true ->
  zget (state T) (currentState S) = Some ins ->
  stateID ins = MB_SET ->
  Forall (fun tk => ~ expired (fst tk) S ins) ticks ->
  zget (leds G) (ledId T) = Some (FastLED.of_code (data1 ins)) ->
  run_entry T ticks G S = Some (G, S).
Proof.
  induction ticks as [|[now env] rest IH]; intros G S ins He Hi Hid Hall Hc;
    [reflexivity|].
  inversion Hall as [|? ? Hx Hrest]; subst. simpl in Hx. simpl.
  rewrite (SET_hold_same now env T G S ins) by done. simpl. eauto.
Qed.

(** C5. A [MB_SET] state polled at passes that all come before its
    expiry: the first pass stores the colour and sets [needsUpdate] only
    if the LED holds another colour (one [EvWrite]), and leaves globals
    and scratchpad as they are otherwise; the whole run ends in the state
    the first pass left, and from any globals that hold the colour in the
    LED the remaining passes change nothing. *)
Theorem SET_writes_at_most_once (T : sequence_t) (G : globals)
    (S : scratchpad_t) (ins : stateDef_t) (old : CRGB)
    (tick : Z * tick_env) (ticks : list (Z * tick_env)) :
  enabled S = true ->
  zget (state T) (currentState S) = Some ins ->
  stateID ins = MB_SET ->
  zget (leds G) (ledId T) = Some old ->
  Forall (fun tk => ~ expired (fst tk) S ins) (tick :: ticks) ->
  exists G1,
    MultiBlink_entry (fst tick) (snd tick) T G S = Some (G1, S)
    /\ zget (leds G1) (ledId T) = Some (FastLED.of_code (data1 ins))
    /\ (old = FastLED.of_code (data1 ins) -> G1 = G)
    /\ (old <> FastLED.of_code (data1 ins) ->
        needsUpdate G1 = true /\
        trace G1 = EvWrite (ledId T) (FastLED.of_code (data1 ins)) :: trace G)
    /\ run_entry T (tick :: ticks) G S = Some (G1, S)
    /\ (forall G2,
          zget (leds G2) (ledId T) = Some (FastLED.of_code (data1 ins)) ->
          run_entry T ticks G2 S = Some (G2, S)).
Proof.
  intros He Hi Hid Hold Hall.
  inversion Hall as [|? ? Hx Hrest]; subst.
  destruct tick as [now env]. simpl in Hx. simpl fst. simpl snd.
  assert (Hlater : forall G2,
            zget (leds G2) (ledId T) = Some (FastLED.of_code (data1 ins)) ->
            run_entry T ticks G2 S = Some (G2, S)).
  { intros G2 HG2. by apply (SET_run_same T ticks G2 S ins). }
  destruct (decide (old = FastLED.of_code (data1 ins))) as [Heq|Hne].
  - subst old. exists G.
    pose proof (SET_hold_same now env T G S ins He Hi Hid Hx Hold) as H1.
    repeat split; try done.
    simpl. rewrite H1. simpl. by apply Hlater.
  - destruct (SET_hold_other now env T G S ins old He Hi Hid Hx Hold Hne)
      as (l & H1 & Hl).
    eexists. split; [exact H1|]. simpl.
    repeat split; try done.
    rewrite H1. simpl. by apply Hlater.
Qed.

Lemma SET_writes_at_most_once_witness :
  let T := mkSequence 0 [SET 100 FastLED.Blue; SET 50 FastLED.Red;
                         DO 0 0 4; SET 600 FastLED.Black; NOP] in
  let G := mkGlobals (replicate 8 (FastLED.of_code FastLED.Black)) false [] in
  let S := mkScratchpad true 0 0 None 0 in
  let ticks := [(20, mkEnv 20 true); (60, mkEnv 60 true); (99, mkEnv 99 true)] in
  exists G1,
    MultiBlink_entry 0 (mkEnv 0 true) T G S = Some (G1, S)
    /\ trace G1 = [EvWrite 0 (FastLED.of_code FastLED.Blue)]
    /\ run_entry T ((0, mkEnv 0 true) :: ticks) G S = Some (G1, S).
Proof.
  intros T G S ticks.
  destruct (SET_writes_at_most_once T G S (SET 100 FastLED.Blue)
              (FastLED.of_code FastLED.Black) (0, mkEnv 0 true) ticks)
    as (G1 & H1 & _ & _ & H2 & H3 & _); try reflexivity.
  - repeat constructor; unfold expired; simpl; vm_compute; intros H; by apply H.
  - exists G1. split; [exact H1|]. split; [|exact H3].
    apply H2. vm_compute. discriminate.
Defined.

(** ** MB_FADE *)

Lemma dispatch_FADE now env id ins e G S :
  stateID ins = MB_FADE ->
  dispatch now env id ins e G S =
    if e then
      G1 ← led_store id (FastLED.of_code (data2 ins))
             (match nf S with Some _ => log EvDelete G | None => G end);
      Some (set_needsUpdate G1, set_nf S None, true, -1)
    else
      match nf S with
      | None =>
          if alloc_ok env then
            f ← setFade (to_uint16 (activeTime ins))
                  (FastLED.of_code (data1 ins)) (FastLED.of_code (data2 ins));
            G1 ← led_store id (FastLED.of_code (data1 ins)) (log EvNew G);
            Some (set_needsUpdate G1, set_nf S (Some f), false, -1)
          else
            G1 ← led_store id (FastLED.of_code (data1 ins)) G;
            Some (set_needsUpdate G1, set_nf S None, false, -1)
      | Some f =>
          if negb (isEnded f) then
            match getNext now (ms env) f with
            | (f', true, Some rgb) =>
                G1 ← led_store id rgb G;
                Some (set_needsUpdate G1, set_nf S (Some f'), false, -1)
            | (f', _, _) => Some (G, set_nf S (Some f'), false, -1)
            end
          else Some (G, S, false, -1)
      end.
Proof. intros H. unfold dispatch. rewrite H. reflexivity. Qed.

(** The pass at which the time of a fade has expired: the fade object, if
    there is one, is deleted, the end colour is stored, and the entry
    moves on. *)
Lemma FADE_expired now env T G S ins old :
  enabled S = true ->
  is_uint8 (currentState S) ->
  zget (state T) (currentState S) = Some ins ->
  stateID ins = MB_FADE ->
  zget (leds G) (ledId T) = Some old ->
  expired now S ins ->
  exists l,
    MultiBlink_entry now env T G S =
      Some (mkGlobals l true
              (EvWrite (ledId T) (FastLED.of_code (data2 ins))
               :: match nf S with
                  | Some _ => EvDelete :: trace G
                  | None => trace G
                  end),
            mkScratchpad true ((currentState S + 1) mod MAX_STATE)
                         (add32 (lastWakeup S) (activeTime ins))
                         None (counter S))
    /\ zget l (ledId T) = Some (FastLED.of_code (data2 ins)).
Proof.
  intros He Hcs Hi Hid Hold Hx.
  rewrite (MultiBlink_entry_enabled _ _ _ _ _ _ He Hi).
  rewrite dispatch_FADE, expired_true by done.
  set (G0 := match nf S with Some _ => log EvDelete G | None => G end).
  assert (Hold0 : zget (leds G0) (ledId T) = Some old)
    by (unfold G0; destruct (nf S); exact Hold).
  destruct (led_store_Some (ledId T) (FastLED.of_code (data2 ins)) G0 old Hold0)
    as (l & Hst & Hl & _).
  exists l. rewrite Hst. simpl. rewrite transition_sequential by done. simpl.
  rewrite He. split; [|exact Hl].
  unfold G0. destruct (nf S); reflexivity.
Qed.

(** A pass before the expiry never moves the entry on, whatever the fade
    object does. *)
Lemma FADE_hold_keeps_state now env T G S ins G' S' :
  enabled S = true ->
  zget (state T) (currentState S) = Some ins ->
  stateID ins = MB_FADE ->
  ~ expired now S ins ->
  MultiBlink_entry now env T G S = Some (G', S') ->
  enabled S' = true /\ currentState S' = currentState S
  /\ lastWakeup S' = lastWakeup S /\ counter S' = counter S.
Proof.
  intros He Hi Hid Hx.
  rewrite (MultiBlink_entry_enabled _ _ _ _ _ _ He Hi).
  rewrite dispatch_FADE, expired_false by done.
  intros H.
  destruct (nf S) as [f|].
  - destruct (negb (isEnded f)).
    + destruct (getNext now (ms env) f) as [[f' [|]] [rgb|]];
        try destruct (led_store (ledId T) rgb G);
        simpl in H; try discriminate; injection H as <- <-; simpl; auto.
    + simpl in H. injection H as <- <-. auto.
  - destruct (alloc_ok env).
    + destruct (setFade _ _ _); simpl in H; [|discriminate].
      destruct (led_store _ _ _); simpl in H; [|discriminate].
      injection H as <- <-. simpl. auto.
    + destruct (led_store _ _ _); simpl in H; [|discriminate].
      injection H as <- <-. simpl. auto.
Qed.

(** A fade object that has ended is left alone until the time expires. *)
Lemma FADE_hold_ended now env T G S ins f :
  enabled S = true ->
  zget (state T) (currentState S) = Some ins ->
  stateID ins = MB_FADE ->
  ~ expired now S ins ->
  nf S = Some f -> isEnded f = true ->
  MultiBlink_entry now env T G S = Some (G, S).
Proof.
  intros He Hi Hid Hx Hnf Hend.
  rewrite (MultiBlink_entry_enabled _ _ _ _ _ _ He Hi).
  rewrite dispatch_FADE, expired_false by done.
  rewrite Hnf, Hend. reflexivity.
Qed.

(** Between two different colours every pass before the expiry is
    defined. *)
Lemma FADE_hold_defined now env T G S ins :
  enabled S = true ->
  zget (state T) (currentState S) = Some ins ->
  stateID ins = MB_FADE ->
  ~ expired now S ins ->
  is_Some (zget (leds G) (ledId T)) ->
  fade_dMax (FastLED.of_code (data1 ins)) (FastLED.of_code (data2 ins)) <> 0 ->
  exists G' S',
    MultiBlink_entry now env T G S = Some (G', S')
    /\ is_Some (zget (leds G') (ledId T)).
Proof.
  intros He Hi Hid Hx [old Hold] Hd.
  rewrite (MultiBlink_entry_enabled _ _ _ _ _ _ He Hi).
  rewrite dispatch_FADE, expired_false by done.
  assert (Hst : forall c G0, leds G0 = leds G ->
            exists l, led_store (ledId T) c G0
                      = Some (mkGlobals l (needsUpdate G0)
                                        (EvWrite (ledId T) c :: trace G0))
                      /\ zget l (ledId T) = Some c).
  { intros c G0 HG0.
    destruct (led_store_Some (ledId T) c G0 old) as (l & H1 & H2 & _);
      [by rewrite HG0|eauto]. }
  destruct (nf S) as [f|].
  - destruct (negb (isEnded f)); [|simpl; eauto].
    destruct (getNext now (ms env) f) as [[f' [|]] [rgb|]]; simpl; eauto.
    destruct (Hst rgb G eq_refl) as (l & -> & Hl). simpl. eauto.
  - destruct (alloc_ok env).
    + destruct (setFade_defined (to_uint16 (activeTime ins)) _ _ Hd)
        as (f & -> & _).
      simpl. destruct (Hst (FastLED.of_code (data1 ins)) (log EvNew G) eq_refl)
        as (l & -> & Hl). simpl. eauto.
    + destruct (Hst (FastLED.of_code (data1 ins)) G eq_refl) as (l & -> & Hl).
      simpl. eauto.
Qed.

Lemma FADE_run_holds T ticks : forall G S ins,
  enabled S = true ->
  zget (state T) (currentState S) = Some ins ->
  stateID ins = MB_FADE ->
  Forall (fun tk => ~ expired (fst tk) S ins) ticks ->
  is_Some (zget (leds G) (ledId T)) ->
  fade_dMax (FastLED.of_code (data1 ins)) (FastLED.of_code (data2 ins)) <> 0 ->
  exists G1 S1,
    run_entry T ticks G S = Some (G1, S1)
    /\ enabled S1 = true /\ currentState S1 = currentState S
    /\ lastWakeup S1 = lastWakeup S /\ counter S1 = counter S
    /\ is_Some (zget (leds G1) (ledId T)).
Proof.
  induction ticks as [|[now env] rest IH]; intros G S ins He Hi Hid Hall Hl Hd.
  - exists G, S. simpl. repeat split; done.
  - inversion Hall as [|? ? Hx Hrest]; subst. simpl in Hx.
    destruct (FADE_hold_defined now env T G S ins He Hi Hid Hx Hl Hd)
      as (G' & S' & Hstep & Hl').
    destruct (FADE_hold_keeps_state now env T G S ins G' S' He Hi Hid Hx Hstep)
      as (He' & Hcs' & Hw' & Hc').
    destruct (IH G' S' ins) as (G1 & S1 & Hrun & ? & ? & ? & ? & ?);
      try done.
    { by rewrite Hcs'. }
    { eapply Forall_impl; [exact Hrest|]. intros tk. unfold expired.
      by rewrite Hw'. }
    exists G1, S1. simpl. rewrite Hstep. simpl.
    repeat split; try done; congruence.
Qed.

(** C1. For an enabled entry in a [MB_FADE] state with time [activeTime]
    and colours [data1] to [data2]:
    - the pass that finds the time expired deletes the fade object the
      entry owns, stores exactly the end colour [CRGB(data2)] in the LED
      and moves the entry to the next state;
    - a pass that finds the time not expired never moves the entry
      (state index and wake-up time stay), and when the fade object has
      ended it does nothing at all;
    - between two different colours, any run of passes before the expiry
      followed by a pass at or after it is defined and ends that way. *)
Theorem FADE_ends_on_the_timer (T : sequence_t) (G : globals)
    (S : scratchpad_t) (ins : stateDef_t) :
  enabled S = true ->
  is_uint8 (currentState S) ->
  zget (state T) (currentState S) = Some ins ->
  stateID ins = MB_FADE ->
  is_Some (zget (leds G) (ledId T)) ->
  (forall now env, expired now S ins ->
     exists l,
       MultiBlink_entry now env T G S =
         Some (mkGlobals l true
                 (EvWrite (ledId T) (FastLED.of_code (data2 ins))
                  :: match nf S with
                     | Some _ => EvDelete :: trace G
                     | None => trace G
                     end),
               mkScratchpad true ((currentState S + 1) mod MAX_STATE)
                            (add32 (lastWakeup S) (activeTime ins))
                            None (counter S))
       /\ zget l (ledId T) = Some (FastLED.of_code (data2 ins)))
  /\ (forall now env G' S', ~ expired now S ins ->
        MultiBlink_entry now env T G S = Some (G', S') ->
        enabled S' = true /\ currentState S' = currentState S
        /\ lastWakeup S' = lastWakeup S)
  /\ (forall now env f, ~ expired now S ins ->
        nf S = Some f -> isEnded f = true ->
        MultiBlink_entry now env T G S = Some (G, S))
  /\ (forall ticks now env,
        fade_dMax (FastLED.of_code (data1 ins)) (FastLED.of_code (data2 ins))
          <> 0 ->
        Forall (fun tk => ~ expired (fst tk) S ins) ticks ->
        expired now S ins ->
        exists G1 S1 l,
          run_entry T ticks G S = Some (G1, S1)
          /\ currentState S1 = currentState S
          /\ lastWakeup S1 = lastWakeup S
          /\ MultiBlink_entry now env T G1 S1 =
               Some (mkGlobals l true
                       (EvWrite (ledId T) (FastLED.of_code (data2 ins))
                        :: match nf S1 with
                           | Some _ => EvDelete :: trace G1
                           | None => trace G1
                           end),
                     mkScratchpad true ((currentState S + 1) mod MAX_STATE)
                                  (add32 (lastWakeup S) (activeTime ins))
                                  None (counter S))
          /\ zget l (ledId T) = Some (FastLED.of_code (data2 ins))).
Proof.
  intros He Hcs Hi Hid Hl. split; [|split; [|split]].
  - intros now env Hx. destruct Hl as [old Hold].
    by apply (FADE_expired now env T G S ins old).
  - intros now env G' S' Hx Hstep.
    destruct (FADE_hold_keeps_state now env T G S ins G' S' He Hi Hid Hx Hstep)
      as (? & ? & ? & _).
    auto.
  - intros now env f Hx Hnf Hend.
    by apply (FADE_hold_ended now env T G S ins f).
  - intros ticks now env Hd Hall Hx.
    destruct (FADE_run_holds T ticks G S ins He Hi Hid Hall Hl Hd)
      as (G1 & S1 & Hrun & He1 & Hcs1 & Hw1 & Hc1 & [old1 Hold1]).
    assert (Hx1 : expired now S1 ins) by (unfold expired; by rewrite Hw1).
    assert (Hcs' : is_uint8 (currentState S1)) by (by rewrite Hcs1).
    assert (Hi1 : zget (state T) (currentState S1) = Some ins)
      by (by rewrite Hcs1).
    destruct (FADE_expired now env T G1 S1 ins old1 He1 Hcs' Hi1 Hid Hold1 Hx1)
      as (l & Hstep & Hlast).
    exists G1, S1, l. rewrite Hstep, Hcs1, Hw1, Hc1. repeat split; done.
Qed.

Lemma FADE_ends_on_the_timer_witness :
  let T := mkSequence 3 [FADE 2048 FastLED.Black FastLED.SeaGreen;
                         FADE 2048 FastLED.SeaGreen FastLED.Black;
                         DO 1000 0 4; STOP; NOP] in
  let G := mkGlobals (replicate 8 (FastLED.of_code FastLED.Black)) false [] in
  let S := mkScratchpad true 0 0 None 0 in
  let ticks := [(0, mkEnv 0 true); (7, mkEnv 7 true); (14, mkEnv 15 true);
                (1000, mkEnv 1000 true); (2047, mkEnv 2047 true)] in
  exists G1 S1 l,
    run_entry T ticks G S = Some (G1, S1)
    /\ currentState S1 = 0
    /\ lastWakeup S1 = 0
    /\ MultiBlink_entry 2048 (mkEnv 2048 true) T G1 S1 =
         Some (mkGlobals l true
                 (EvWrite 3 (FastLED.of_code FastLED.SeaGreen)
                  :: match nf S1 with
                     | Some _ => EvDelete :: trace G1
                     | None => trace G1
                     end),
               mkScratchpad true 1 2048 None 0)
    /\ zget l 3 = Some (FastLED.of_code FastLED.SeaGreen).
Proof.
  intros T G S ticks.
  refine (proj2 (proj2 (proj2
            (FADE_ends_on_the_timer T G S
               (FADE 2048 FastLED.Black FastLED.SeaGreen) _ _ _ _ _)))
            ticks 2048 (mkEnv 2048 true) _ _ _);
    try reflexivity.
  - unfold is_uint8. simpl. lia.
  - eexists. reflexivity.
  - vm_compute. discriminate.
  - repeat constructor; unfold expired; simpl; vm_compute; intros H; by apply H.
  - unfold expired. vm_compute. discriminate.
Defined.

(** ** A loop body run from start to end *)

Section LoopTable.

Variables (id c n : Z) (G : globals) (w : Z) (p : option cNeoFade).
Hypothesis Hled : zget (leds G) id = Some (FastLED.of_code c).
Hypothesis Hw : is_uint32 w.

Lemma add32_0 : add32 w 0 = w.
Proof.
  unfold add32, to_uint32, is_uint32 in *. rewrite Z.add_0_r.
  apply Z.mod_small. lia.
Qed.

Lemma expired_at_0 now S ins : activeTime ins = 0 -> expired now S ins.
Proof.
  intros H. unfold expired, sub32, to_uint32. rewrite H.
  apply Z.mod_pos_bound. lia.
Qed.

(** State 0: the colour is in place, the time of 0 ms has expired. *)
Lemma loop_table_state_0 now env j :
  MultiBlink_entry now env (loop_table id c n) G (at_state w p 0 j)
  = Some (G, at_state w p 1 j).
Proof.
  rewrite (MultiBlink_entry_enabled _ _ _ _ _ (SET 0 c)) by reflexivity.
  rewrite dispatch_SET by reflexivity.
  rewrite expired_true by (by apply expired_at_0).
  simpl ledId. simpl data1.
  rewrite bool_decide_eq_true_2 by exact Hled. simpl.
  rewrite transition_sequential by (unfold is_uint8; simpl; lia).
  simpl. rewrite add32_0. reflexivity.
Qed.

(** State 1 while the count is not reached: back to state 0. *)
Lemma loop_table_state_1_jump now env j :
  0 <= j -> j + 1 < n -> j + 1 < 65536 ->
  MultiBlink_entry now env (loop_table id c n) G (at_state w p 1 j)
  = Some (G, at_state w p 0 (j + 1)).
Proof.
  intros Hj Hn H16.
  rewrite (LOOP_expiry_jump now env _ G (at_state w p 1 j) (DO 0 0 n));
    try reflexivity; try done.
  - simpl. rewrite add32_0. reflexivity.
  - by apply expired_at_0.
Qed.

Lemma loop_table_rounds (m : nat) : forall ticks j,
  length ticks = (2 * m)%nat ->
  0 <= j -> j + Z.of_nat m < n -> j + Z.of_nat m < 65536 ->
  run_entry (loop_table id c n) ticks G (at_state w p 0 j)
  = Some (G, at_state w p 0 (j + Z.of_nat m)).
Proof.
  induction m as [|m IH]; intros ticks j Hlen Hj Hn H16.
  - destruct ticks; [|discriminate]. simpl. by rewrite Z.add_0_r.
  - destruct ticks as [|[now1 env1] [|[now2 env2] rest]];
      simpl in Hlen; try lia.
    rewrite (run_entry_step _ _ _ _ _ _ _ _ (loop_table_state_0 now1 env1 j)).
    rewrite (run_entry_step _ _ _ _ _ _ _ _
               (loop_table_state_1_jump now2 env2 j Hj ltac:(lia) ltac:(lia))).
    rewrite IH by lia. do 3 f_equal. lia.
Qed.

(** From the reset state, [n - 1] rounds jump back and the [n]-th visit of
    the loop state goes on to state 2 with the counter at 0: the loop
    state is visited [n] times. *)
Lemma loop_table_visits ticks now1 env1 now2 env2 :
  1 <= n <= 65535 ->
  Z.of_nat (length ticks) = 2 * (n - 1) ->
  run_entry (loop_table id c n) ticks G (at_state w p 0 0)
    = Some (G, at_state w p 0 (n - 1))
  /\ run_entry (loop_table id c n) (ticks ++ [(now1, env1); (now2, env2)]) G
       (at_state w p 0 0)
     = Some (G, at_state w p 2 0).
Proof.
  intros Hn Hlen.
  assert (Hrun : run_entry (loop_table id c n) ticks G (at_state w p 0 0)
                 = Some (G, at_state w p 0 (n - 1))).
  { rewrite (loop_table_rounds (Z.to_nat (n - 1))) by lia.
    do 3 f_equal. lia. }
  split; [exact Hrun|].
  rewrite run_entry_app, Hrun.
  change (run_entry (loop_table id c n) [(now1, env1); (now2, env2)] G
            (at_state w p 0 (n - 1)) = Some (G, at_state w p 2 0)).
  rewrite (run_entry_step _ _ _ _ _ _ _ _ (loop_table_state_0 now1 env1 (n - 1))).
  erewrite run_entry_step; [reflexivity|].
  rewrite (LOOP_expiry_fall_through now2 env2 _ G (at_state w p 1 (n - 1)) (DO 0 0 n));
    try reflexivity.
  - simpl. rewrite add32_0. reflexivity.
  - unfold is_uint8. simpl. lia.
  - by apply expired_at_0.
  - simpl. rewrite to_uint16_id by (unfold is_uint16; lia). lia.
Qed.

End LoopTable.

(** With a count of 65536 the entry is back in its reset state after 65536
    visits of the loop state: it never reaches the state after the
    loop. *)
Lemma loop_table_65536_cycles id c G w p ticks now1 env1 now2 env2 :
  zget (leds G) id = Some (FastLED.of_code c) ->
  is_uint32 w ->
  Z.of_nat (length ticks) = 2 * 65535 ->
  run_entry (loop_table id c 65536) (ticks ++ [(now1, env1); (now2, env2)]) G
    (at_state w p 0 0)
  = Some (G, at_state w p 0 0).
Proof.
  intros Hled Hw Hlen.
  rewrite run_entry_app.
  rewrite (loop_table_rounds id c 65536 G w p Hled Hw (Z.to_nat 65535) ticks 0)
    by lia.
  rewrite Z2Nat.id, Z.add_0_l by lia.
  change (run_entry (loop_table id c 65536) [(now1, env1); (now2, env2)] G
            (at_state w p 0 65535) = Some (G, at_state w p 0 0)).
  rewrite (run_entry_step _ _ _ _ _ _ _ _
             (loop_table_state_0 id c 65536 G w p Hled Hw now1 env1 65535)).
  erewrite run_entry_step; [reflexivity|].
  rewrite (MultiBlink_entry_enabled _ _ _ _ _ (DO 0 0 65536)) by reflexivity.
  rewrite dispatch_LOOP by reflexivity.
  rewrite expired_true by (by apply expired_at_0).
  change (to_uint16 (counter (at_state w p 1 65535) + 1)) with 0.
  change (data2 (DO 0 0 65536) >? 0) with true.
  cbv iota. unfold mbind, option_bind.
  rewrite transition_jump by (vm_compute; split; [discriminate|reflexivity]).
  unfold set_counter, at_state. simpl enabled. simpl lastWakeup. simpl nf.
  simpl counter. simpl activeTime. rewrite (add32_0 w Hw). reflexivity.
Qed.

(** ** The whole table *)

Lemma MultiBlink_loop_length now envs tableSize : forall i pT pS G G' pS',
  MultiBlink_loop now envs i tableSize pT pS G = Some (G', pS') ->
  length pS' = length pS.
Proof.
  induction tableSize as [|n IH]; intros i pT pS G G' pS' H; simpl in H.
  - by injection H as <- <-.
  - destruct pT as [|T pT]; [discriminate|].
    destruct pS as [|S0 pS]; [discriminate|].
    destruct (MultiBlink_entry now (envs i) T G S0) as [[G1 S1]|];
      [|discriminate].
    simpl in H.
    destruct (MultiBlink_loop now envs (S i) n pT pS G1) as [[G2 rest]|] eqn:E;
      [|discriminate].
    simpl in H. injection H as <- <-. simpl. f_equal. by eapply IH.
Qed.

(** A pass over a table whose entries are all stopped changes nothing. *)
Lemma MultiBlink_all_disabled now envs : forall pT pS G,
  length pT = length pS ->
  Forall (fun S0 => enabled S0 = false) pS ->
  MultiBlink now envs pT pS (length pS) G = Some (G, pS).
Proof.
  unfold MultiBlink. generalize 0%nat as i.
  intros i pT pS. revert i pT.
  induction pS as [|S0 pS IH]; intros i pT G Hlen Hall; [reflexivity|].
  destruct pT as [|T pT]; [discriminate|].
  inversion Hall as [|? ? Hd Hrest]; subst. simpl.
  rewrite MultiBlink_entry_disabled by done. simpl.
  rewrite IH by (done || (simpl in Hlen; lia)). reflexivity.
Qed.

(** ** The flasher of table T1, run for one period

    Polled every millisecond from the reset at time 0, the entry shows
    blue and red four times, then black, and is back at state 0 at
    1201 ms with the wake-up time moved on by exactly 1200. *)
Example T1_0_one_period :
  let G := mkGlobals (replicate 8 (FastLED.of_code FastLED.Black)) true [] in
  exists G',
    run_entry T1_0 (every_ms 0 1202) G (mkScratchpad true 0 0 None 0)
      = Some (G', mkScratchpad true 0 1200 None 0)
    /\ colours_of 0 (trace G') =
         map FastLED.of_code
           [FastLED.Blue; FastLED.Red; FastLED.Blue; FastLED.Red;
            FastLED.Blue; FastLED.Red; FastLED.Blue; FastLED.Red;
            FastLED.Black].
Proof. intros G. eexists. split; vm_compute; reflexivity. Qed.

(** ** A fade cut short by the timer

    [FADE(100, Black, White)] has 255 steps at the least interval of 1 ms,
    so at 99 ms the fade object is not through its steps; the pass at
    100 ms deletes it and stores white all the same. *)
Example FADE_100_cut_short :
  let T := mkSequence 0 [FADE 100 FastLED.Black FastLED.White; NOP; NOP; NOP; NOP] in
  let G := mkGlobals (replicate 8 (FastLED.of_code FastLED.Black)) true [] in
  exists G1 f G2,
    run_entry T (every_ms 0 100) G (mkScratchpad true 0 0 None 0)
      = Some (G1, mkScratchpad true 0 0 (Some f) 0)
    /\ isEnded f = false /\ _steps f = 156
    /\ zget (leds G1) 0 = Some (FastLED.mkCRGB 98 98 98)
    /\ MultiBlink_entry 100 (mkEnv 100 true) T G1 (mkScratchpad true 0 0 (Some f) 0)
       = Some (G2, mkScratchpad true 1 100 None 0)
    /\ zget (leds G2) 0 = Some (FastLED.of_code FastLED.White)
    /\ head (trace G2) = Some (EvWrite 0 (FastLED.of_code FastLED.White)).
Proof.
  intros T G. eexists. eexists. eexists.
  split; [vm_compute; reflexivity|].
  repeat split; vm_compute; reflexivity.
Qed.

(** A loop target of 65535 is the "no jump" value of [nextState]: the
    expiry counts the loop and makes no transition. *)
Example LOOP_target_65535_stays :
  let T := mkSequence 0 [SET 10 FastLED.Red; DO 0 65535 4; NOP; NOP; NOP] in
  let G := mkGlobals (replicate 8 (FastLED.of_code FastLED.Red)) false [] in
  MultiBlink_entry 10 (mkEnv 10 true) T G (mkScratchpad true 1 10 None 0)
    = Some (G, mkScratchpad true 1 10 None 1).
Proof. reflexivity. Qed.

(** * Further properties *)

(** ** The line a fade follows *)

Lemma axis_moves_bounds d D k :
  0 < D -> 0 <= d <= D -> 0 <= k <= D ->
  0 <= axis_moves d D k <= d.
Proof.
  intros HD Hd Hk. unfold axis_moves.
  assert (H2 : 0 <= D / 2 < D) by (split; [apply Z.div_pos; lia|apply Z.div_lt_upper_bound; lia]).
  split.
  - apply Z.div_pos; nia.
  - assert (k * d + (D - 1 - D / 2) < D * (d + 1)) by nia.
    pose proof (Z.div_lt_upper_bound _ _ _ HD H). lia.
Qed.

Lemma axis_moves_0 d D : 0 < D -> axis_moves d D 0 = 0.
Proof.
  intros HD. unfold axis_moves.
  assert (H2 : 0 <= D / 2 < D) by (split; [apply Z.div_pos; lia|apply Z.div_lt_upper_bound; lia]).
  apply Z.div_small. lia.
Qed.

Lemma axis_moves_end d D : 0 < D -> axis_moves d D D = d.
Proof.
  intros HD. unfold axis_moves.
  assert (H2 : 0 <= D / 2 < D) by (split; [apply Z.div_pos; lia|apply Z.div_lt_upper_bound; lia]).
  symmetry. apply (Z.div_unique_pos _ _ d (D - 1 - D / 2)); lia.
Qed.

(** The longest axis moves at every step. *)
Lemma axis_moves_longest D k : 0 < D -> 0 <= k -> axis_moves D D k = k.
Proof.
  intros HD Hk. unfold axis_moves.
  assert (H2 : 0 <= D / 2 < D) by (split; [apply Z.div_pos; lia|apply Z.div_lt_upper_bound; lia]).
  symmetry. apply (Z.div_unique_pos _ _ k (D - 1 - D / 2)); lia.
Qed.

(** From one step to the next an axis moves by one unit or not at all; it
    moves exactly when the error term goes below zero. *)
Lemma axis_moves_succ d D k e :
  0 < D -> 0 <= d <= D -> 0 <= k ->
  0 <= e < D -> e + k * d = D / 2 + axis_moves d D k * D ->
  axis_moves d D (k + 1) =
    (if e - d <? 0 then axis_moves d D k + 1 else axis_moves d D k).
Proof.
  intros HD Hd Hk He Heq.
  assert (H2 : 0 <= D / 2 < D) by (split; [apply Z.div_pos; lia|apply Z.div_lt_upper_bound; lia]).
  set (m := axis_moves d D k) in *.
  unfold axis_moves. symmetry.
  destruct (Z.ltb_spec (e - d) 0).
  - apply (Z.div_unique_pos _ _ (m + 1) (d - e - 1)); lia.
  - apply (Z.div_unique_pos _ _ m (D - 1 - e + d)); lia.
Qed.

Lemma axis_point_between x0 x1 D k :
  0 < D -> Z.abs (x1 - x0) <= D -> 0 <= k <= D ->
  (x0 <= axis_point x0 x1 D k <= x1) \/ (x1 <= axis_point x0 x1 D k <= x0).
Proof.
  intros HD Hd Hk. unfold axis_point.
  pose proof (axis_moves_bounds (Z.abs (x1 - x0)) D k HD ltac:(lia) Hk).
  destruct (Z.ltb_spec x0 x1); lia.
Qed.

(** The step of one axis in [getNext] keeps the axis on the line. *)
Lemma axis_step_inv x0 x1 D k x e d s :
  is_uint8 x0 -> is_uint8 x1 -> 0 < D <= 255 -> Z.abs (x1 - x0) <= D ->
  0 <= k < D ->
  axis_inv x0 x1 D k x e d s ->
  axis_inv x0 x1 D (k + 1) (fst (axis_step x e d s D))
           (snd (axis_step x e d s D)) d s.
Proof.
  unfold is_uint8. intros H0 H1 HD Hd Hk (Hdd & Hs & He & Hx & Heq).
  pose proof (axis_moves_succ d D k e ltac:(lia) ltac:(lia) ltac:(lia) He Heq)
    as Hsucc.
  pose proof (axis_moves_bounds d D (k + 1) ltac:(lia) ltac:(lia) ltac:(lia))
    as Hb.
  unfold axis_inv, axis_step.
  rewrite (to_int16_id (e - d)) by lia.
  destruct (Z.ltb_spec (e - d) 0) as [Hneg|Hpos]; simpl fst; simpl snd.
  - rewrite (to_int16_id (e - d + D)) by lia.
    assert (Hx' : x + s = axis_point x0 x1 D (k + 1)).
    { rewrite Hx, Hs. unfold axis_point. rewrite <- Hdd, Hsucc.
      destruct (x0 <? x1); lia. }
    rewrite to_int16_id.
    + repeat split; try done; try lia; rewrite ?Hsucc; lia.
    + rewrite Hx'. unfold axis_point. rewrite <- Hdd.
      destruct (Z.ltb_spec x0 x1); lia.
  - repeat split; try done; try lia.
    all: try (rewrite Hx; unfold axis_point; rewrite <- Hdd, Hsucc; reflexivity).
    all: rewrite ?Hsucc; lia.
Qed.

Lemma to_int16_uiabs a b :
  is_uint8 a -> is_uint8 b ->
  to_int16 (uiabs (to_uint16 (to_int16 b)) (to_uint16 (to_int16 a)))
  = Z.abs (b - a).
Proof.
  intros Ha Hb. pose proof Ha as Ha'. pose proof Hb as Hb'.
  unfold is_uint8 in Ha', Hb'.
  rewrite (to_int16_id a), (to_int16_id b) by lia.
  rewrite (to_uint16_id a), (to_uint16_id b) by (unfold is_uint16; lia).
  rewrite uiabs_abs by done. apply to_int16_id. lia.
Qed.

Lemma axis_inv_start x0 x1 D :
  is_uint8 x0 -> is_uint8 x1 -> 0 < D <= 255 ->
  axis_inv x0 x1 D 0 (to_int16 x0) (to_int16 (Z.quot D 2))
    (to_int16 (uiabs (to_uint16 (to_int16 x1)) (to_uint16 (to_int16 x0))))
    (if to_int16 x0 <? to_int16 x1 then 1 else -1).
Proof.
  intros H0 H1 HD. pose proof H0 as H0'. pose proof H1 as H1'.
  unfold is_uint8 in H0', H1'.
  rewrite to_int16_uiabs by done.
  rewrite (to_int16_id x0), (to_int16_id x1) by lia.
  assert (H2 : 0 <= D / 2 < D)
    by (split; [apply Z.div_pos; lia|apply Z.div_lt_upper_bound; lia]).
  rewrite Z.quot_div_nonneg by lia. rewrite to_int16_id by lia.
  unfold axis_inv, axis_point. rewrite axis_moves_0 by lia.
  repeat split; try done; try lia. destruct (x0 <? x1); lia.
Qed.

(** [setFade] puts the object at the start of the line. *)
Lemma setFade_fade_inv period c0 c1 f :
  FastLED.valid c0 -> FastLED.valid c1 ->
  setFade period c0 c1 = Some f ->
  fade_inv c0 c1 0 f /\ 0 < max_delta c0 c1 <= 255.
Proof.
  intros H0 H1 Hf.
  destruct (fade_dMax_max_delta c0 c1 H0 H1) as [Heq Hrange].
  destruct (setFade_Some_steps _ _ _ _ Hf) as (_ & Hnz & _).
  assert (HD : 0 < max_delta c0 c1 <= 255) by lia.
  split; [|exact HD].
  unfold setFade in Hf. fold (fade_dMax c0 c1) in Hf.
  destruct (Z.eqb_spec (fade_dMax c0 c1) 0); [done|].
  injection Hf as <-. rewrite Heq.
  destruct H0 as (? & ? & ?), H1 as (? & ? & ?).
  unfold fade_inv; simpl.
  split; [reflexivity|]. split; [lia|]. split; [lia|]. split; [reflexivity|].
  split; [|split]; by apply axis_inv_start.
Qed.

Lemma max_delta_axes c0 c1 :
  Z.abs (FastLED.r c1 - FastLED.r c0) <= max_delta c0 c1
  /\ Z.abs (FastLED.g c1 - FastLED.g c0) <= max_delta c0 c1
  /\ Z.abs (FastLED.b c1 - FastLED.b c0) <= max_delta c0 c1.
Proof. unfold max_delta. lia. Qed.

Lemma axis_point_uint8 x0 x1 D k :
  is_uint8 x0 -> is_uint8 x1 -> 0 < D -> Z.abs (x1 - x0) <= D ->
  0 <= k <= D -> to_uint8 (axis_point x0 x1 D k) = axis_point x0 x1 D k.
Proof.
  unfold is_uint8. intros H0 H1 HD Hd Hk. apply to_uint8_id. unfold is_uint8.
  pose proof (axis_point_between x0 x1 D k HD Hd Hk). lia.
Qed.

Lemma axis_point_end x0 x1 D :
  0 < D -> axis_point x0 x1 D D = x1.
Proof.
  intros HD. unfold axis_point. rewrite axis_moves_end by done.
  destruct (Z.ltb_spec x0 x1); lia.
Qed.

(** The colour a due call returns is the point the object is at. *)
Lemma fade_inv_colour c0 c1 k f :
  FastLED.valid c0 -> FastLED.valid c1 -> 0 < max_delta c0 c1 ->
  fade_inv c0 c1 k f ->
  FastLED.mkCRGB (to_uint8 (_r0 f)) (to_uint8 (_g0 f)) (to_uint8 (_b0 f))
  = fade_point c0 c1 k.
Proof.
  intros (? & ? & ?) (? & ? & ?) HD (_ & Hk & _ & _ & Hr & Hg & Hb).
  destruct (max_delta_axes c0 c1) as (? & ? & ?).
  destruct Hr as (_ & _ & _ & -> & _), Hg as (_ & _ & _ & -> & _),
           Hb as (_ & _ & _ & -> & _).
  unfold fade_point. by rewrite !axis_point_uint8.
Qed.

(** A due call before the last step returns the point and moves on. *)
Lemma getNext_fade_step c0 c1 k f nowTime ms :
  FastLED.valid c0 -> FastLED.valid c1 -> 0 < max_delta c0 c1 <= 255 ->
  fade_inv c0 c1 k f -> is_due nowTime f = true -> k < max_delta c0 c1 ->
  exists f1,
    getNext nowTime ms f = (f1, true, Some (fade_point c0 c1 k))
    /\ fade_inv c0 c1 (k + 1) f1.
Proof.
  intros H0 H1 HD Hinv Hdue Hk.
  pose proof (fade_inv_colour c0 c1 k f H0 H1 ltac:(lia) Hinv) as Hcol.
  destruct Hinv as (He & Hk0 & Hs & HdM & Hr & Hg & Hb).
  destruct (max_delta_axes c0 c1) as (Har & Hag & Hab).
  destruct H0 as (Hr0 & Hg0 & Hb0), H1 as (Hr1 & Hg1 & Hb1).
  unfold getNext. unfold is_due in Hdue. apply negb_true_iff in Hdue.
  rewrite Hdue, Hcol.
  destruct (Z.eqb_spec (_steps f) 0); [lia|].
  assert (Hk' : 0 <= k < max_delta c0 c1) by lia.
  pose proof (axis_step_inv _ _ _ k _ _ _ _ Hr0 Hr1 HD Har Hk' Hr) as Hr'.
  pose proof (axis_step_inv _ _ _ k _ _ _ _ Hg0 Hg1 HD Hag Hk' Hg) as Hg'.
  pose proof (axis_step_inv _ _ _ k _ _ _ _ Hb0 Hb1 HD Hab Hk' Hb) as Hb'.
  rewrite HdM.
  destruct (axis_step (_r0 f) _ _ _ _) as [r0 r1],
           (axis_step (_g0 f) _ _ _ _) as [g0 g1],
           (axis_step (_b0 f) _ _ _ _) as [b0 b1].
  eexists. split; [reflexivity|].
  unfold fade_inv. simpl.
  split; [reflexivity|]. split; [lia|].
  split; [rewrite Hs, to_int16_id; lia|]. split; [reflexivity|].
  auto.
Qed.

(** The due call after the last step ends the object at the end colour. *)
Lemma getNext_fade_end c0 c1 f nowTime ms :
  FastLED.valid c0 -> FastLED.valid c1 -> 0 < max_delta c0 c1 ->
  fade_inv c0 c1 (max_delta c0 c1) f -> is_due nowTime f = true ->
  exists f1,
    getNext nowTime ms f = (f1, false, Some c1)
    /\ _ended f1 = true /\ _steps f1 = 0
    /\ _r0 f1 = FastLED.r c1 /\ _g0 f1 = FastLED.g c1 /\ _b0 f1 = FastLED.b c1.
Proof.
  intros H0 H1 HD Hinv Hdue.
  pose proof (fade_inv_colour c0 c1 _ f H0 H1 HD Hinv) as Hcol.
  destruct Hinv as (He & Hk0 & Hs & HdM & Hr & Hg & Hb).
  unfold getNext. unfold is_due in Hdue. apply negb_true_iff in Hdue.
  rewrite Hdue, Hcol.
  destruct (Z.eqb_spec (_steps f) 0); [|lia].
  destruct Hr as (_ & _ & _ & Hr & _), Hg as (_ & _ & _ & Hg & _),
           Hb as (_ & _ & _ & Hb & _).
  rewrite axis_point_end in Hr, Hg, Hb by done.
  assert (Hc1 : fade_point c0 c1 (max_delta c0 c1) = c1).
  { unfold fade_point. rewrite !axis_point_end by done. by destruct c1. }
  rewrite Hc1. eexists. split; [reflexivity|]. simpl. auto.
Qed.

Lemma getNext_not_due nowTime ms f :
  is_due nowTime f = false -> getNext nowTime ms f = (f, false, None).
Proof.
  unfold is_due, getNext. intros H. apply negb_false_iff in H. by rewrite H.
Qed.

Lemma getNext_ended nowTime ms f :
  _ended f = true -> _steps f = 0 ->
  exists f1 rgb, getNext nowTime ms f = (f1, false, Some rgb)
                 /\ _ended f1 = true /\ _steps f1 = 0
                 /\ _r0 f1 = _r0 f /\ _g0 f1 = _g0 f /\ _b0 f1 = _b0 f.
Proof.
  intros He Hs. unfold getNext. rewrite He, Hs. simpl.
  eexists. eexists. split; [reflexivity|]. simpl. auto.
Qed.

Lemma getNext_colours_ended calls : forall f,
  _ended f = true -> _steps f = 0 -> getNext_colours calls f = [].
Proof.
  induction calls as [|[nowTime ms] rest IH]; intros f He Hs; [reflexivity|].
  simpl. destruct (getNext_ended nowTime ms f He Hs)
    as (f1 & rgb & -> & He1 & Hs1 & _).
  by apply IH.
Qed.

Lemma getNext_run_ended_position calls : forall f,
  _ended f = true -> _steps f = 0 ->
  _r0 (snd (getNext_run calls f)) = _r0 f
  /\ _g0 (snd (getNext_run calls f)) = _g0 f
  /\ _b0 (snd (getNext_run calls f)) = _b0 f.
Proof.
  induction calls as [|[nowTime ms] rest IH]; intros f He Hs; [by simpl|].
  simpl. destruct (getNext_ended nowTime ms f He Hs)
    as (f1 & rgb & -> & He1 & Hs1 & Hr & Hg & Hb).
  destruct (IH f1 He1 Hs1) as (Hr' & Hg' & Hb').
  destruct (getNext_run rest f1) as [n f2]. simpl in *.
  rewrite Hr', Hg', Hb'. auto.
Qed.

Section FadeLine.

Variables c0 c1 : CRGB.
Hypothesis Hc0 : FastLED.valid c0.
Hypothesis Hc1 : FastLED.valid c1.
Hypothesis HD : 0 < max_delta c0 c1 <= 255.

(** The [i]-th colour returned from step [k] on is the point of step
    [k + i], and a point before the last. *)
Lemma getNext_colours_points calls : forall k f i c,
  fade_inv c0 c1 k f ->
  getNext_colours calls f !! i = Some c ->
  c = fade_point c0 c1 (k + Z.of_nat i)
  /\ 0 <= k + Z.of_nat i < max_delta c0 c1.
Proof.
  induction calls as [|[nowTime ms] rest IH]; intros k f i c Hinv Hl;
    [discriminate|].
  simpl in Hl. destruct (is_due nowTime f) eqn:Hdue.
  - pose proof Hinv as (_ & Hk & _).
    destruct (Z.eq_dec k (max_delta c0 c1)) as [->|Hne].
    + destruct (getNext_fade_end c0 c1 f nowTime ms Hc0 Hc1 ltac:(lia) Hinv Hdue)
        as (f1 & Hg & He1 & Hs1 & _).
      rewrite Hg, getNext_colours_ended in Hl by done. discriminate.
    + destruct (getNext_fade_step c0 c1 k f nowTime ms Hc0 Hc1 HD Hinv Hdue
                  ltac:(lia)) as (f1 & Hg & Hinv1).
      rewrite Hg in Hl. destruct i as [|j]; simpl in Hl.
      * injection Hl as <-. rewrite Z.add_0_r. split; [reflexivity|lia].
      * destruct (IH (k + 1) f1 j c Hinv1 Hl) as [-> ?].
        split; [f_equal; lia|lia].
  - rewrite getNext_not_due in Hl by done. by apply (IH k f).
Qed.

(** When a run has ended the object, the position it holds is the end
    colour. *)
Lemma getNext_run_end_position calls : forall k f,
  fade_inv c0 c1 k f ->
  _ended (snd (getNext_run calls f)) = true ->
  _r0 (snd (getNext_run calls f)) = FastLED.r c1
  /\ _g0 (snd (getNext_run calls f)) = FastLED.g c1
  /\ _b0 (snd (getNext_run calls f)) = FastLED.b c1.
Proof.
  induction calls as [|[nowTime ms] rest IH]; intros k f Hinv Hend.
  - simpl in Hend. destruct Hinv as (He & _). congruence.
  - simpl in *. destruct (is_due nowTime f) eqn:Hdue.
    + pose proof Hinv as (_ & Hk & _).
      destruct (Z.eq_dec k (max_delta c0 c1)) as [->|Hne].
      * destruct (getNext_fade_end c0 c1 f nowTime ms Hc0 Hc1 ltac:(lia) Hinv Hdue)
          as (f1 & Hg & He1 & Hs1 & Hr & Hgg & Hb).
        rewrite Hg in *.
        destruct (getNext_run_ended_position rest f1 He1 Hs1) as (? & ? & ?).
        destruct (getNext_run rest f1) as [n f2]. simpl in *.
        repeat split; congruence.
      * destruct (getNext_fade_step c0 c1 k f nowTime ms Hc0 Hc1 HD Hinv Hdue
                    ltac:(lia)) as (f1 & Hg & Hinv1).
        rewrite Hg in *. specialize (IH (k + 1) f1 Hinv1).
        destruct (getNext_run rest f1) as [n f2]. simpl in *. by apply IH.
    + rewrite getNext_not_due in * by done. specialize (IH k f Hinv).
      destruct (getNext_run rest f) as [n f2]. simpl in *. by apply IH.
Qed.

(** A point before the last is not the end colour: the longest axis has
    not arrived. *)
Lemma fade_point_not_end j :
  0 <= j < max_delta c0 c1 -> fade_point c0 c1 j <> c1.
Proof.
  intros Hj Heq. unfold fade_point in Heq.
  assert (Hax : forall x0 x1, Z.abs (x1 - x0) = max_delta c0 c1 ->
                  axis_point x0 x1 (max_delta c0 c1) j <> x1).
  { intros x0 x1 Hd. unfold axis_point. rewrite Hd.
    rewrite axis_moves_longest by lia. destruct (Z.ltb_spec x0 x1); lia. }
  destruct c1 as [r1 g1 b1]. simpl in *. injection Heq as Hr Hg Hb.
  assert (Hm : Z.abs (r1 - FastLED.r c0) = max_delta c0 (FastLED.mkCRGB r1 g1 b1)
               \/ Z.abs (g1 - FastLED.g c0) = max_delta c0 (FastLED.mkCRGB r1 g1 b1)
               \/ Z.abs (b1 - FastLED.b c0) = max_delta c0 (FastLED.mkCRGB r1 g1 b1))
    by (unfold max_delta; simpl; lia).
  destruct Hm as [Hm|[Hm|Hm]]; eapply Hax; eauto.
Qed.

(** From one point to the next each axis stays or moves one unit towards
    its end. *)
Lemma axis_point_succ x0 x1 j :
  Z.abs (x1 - x0) <= max_delta c0 c1 -> 0 <= j < max_delta c0 c1 ->
  one_unit_towards x1 (axis_point x0 x1 (max_delta c0 c1) j)
                   (axis_point x0 x1 (max_delta c0 c1) (j + 1)).
Proof.
  intros Hd Hj. set (D := max_delta c0 c1) in *.
  set (d := Z.abs (x1 - x0)) in *.
  assert (Hm1 : axis_moves d D j <= axis_moves d D (j + 1))
    by (unfold axis_moves; apply Z.div_le_mono; nia).
  assert (Hm2 : axis_moves d D (j + 1) <= axis_moves d D j + 1).
  { unfold axis_moves.
    rewrite <- (Z.div_add (j * d + (D - 1 - D / 2)) 1 D) by lia.
    apply Z.div_le_mono; nia. }
  pose proof (axis_moves_bounds d D (j + 1) ltac:(lia) ltac:(lia) ltac:(lia)).
  pose proof (axis_moves_bounds d D j ltac:(lia) ltac:(lia) ltac:(lia)).
  unfold one_unit_towards, axis_point. fold d.
  destruct (Z.ltb_spec x0 x1); lia.
Qed.

End FadeLine.

(** X1. The colours a fade object returns lie on the rounded straight
    line from the start colour: the [i]-th colour returned (counting from
    0) has each component at [x0 +/- round(i * |x1 - x0| / D)], where [D]
    is the largest component distance; the first colour returned is the
    start colour itself. *)
Theorem fade_colours_follow_the_line (period : Z) (c0 c1 : CRGB)
    (f : cNeoFade) (calls : list (Z * Z)) (i : nat) (c : CRGB) :
  FastLED.valid c0 -> FastLED.valid c1 ->
  setFade period c0 c1 = Some f ->
  getNext_colours calls f !! i = Some c ->
  c = fade_point c0 c1 (Z.of_nat i) /\ (i = O -> c = c0).
Proof.
  intros H0 H1 Hf Hl.
  destruct (setFade_fade_inv period c0 c1 f H0 H1 Hf) as [Hinv HD].
  destruct (getNext_colours_points c0 c1 H0 H1 HD calls 0 f i c Hinv Hl)
    as [Hc _].
  rewrite Z.add_0_l in Hc. split; [exact Hc|].
  intros ->. rewrite Hc. unfold fade_point, axis_point.
  rewrite !axis_moves_0 by lia.
  destruct c0 as [r0 g0 b0]. simpl.
  destruct (r0 <? _), (g0 <? _), (b0 <? _); f_equal; lia.
Qed.

Lemma fade_colours_follow_the_line_witness :
  let c0 := FastLED.of_code 0x000000 in
  let c1 := FastLED.of_code 0x030201 in
  let calls := [(10, 10); (166, 167); (200, 200); (333, 333); (499, 500)] in
  exists f,
    setFade 500 c0 c1 = Some f
    /\ getNext_colours calls f !! 2%nat = Some (FastLED.mkCRGB 2 1 1)
    /\ FastLED.mkCRGB 2 1 1 = fade_point c0 c1 2.
Proof.
  intros c0 c1 calls. eexists. split; [reflexivity|]. split; [reflexivity|].
  refine (proj1 (fade_colours_follow_the_line 500 c0 c1 _ calls 2
                   (FastLED.mkCRGB 2 1 1) _ _ _ _));
    [apply of_code_valid | apply of_code_valid | reflexivity | reflexivity].
Defined.

(** X2. No call of [getNext] returns the end colour: every colour
    returned differs from [c1] (the longest axis is still short of its
    end), which is why [MultiBlink] stores the end colour itself when the
    time of the fade expires. *)
Theorem fade_never_returns_end_colour (period : Z) (c0 c1 : CRGB)
    (f : cNeoFade) (calls : list (Z * Z)) (i : nat) (c : CRGB) :
  FastLED.valid c0 -> FastLED.valid c1 ->
  setFade period c0 c1 = Some f ->
  getNext_colours calls f !! i = Some c ->
  c <> c1.
Proof.
  intros H0 H1 Hf Hl.
  destruct (setFade_fade_inv period c0 c1 f H0 H1 Hf) as [Hinv HD].
  destruct (getNext_colours_points c0 c1 H0 H1 HD calls 0 f i c Hinv Hl)
    as [-> Hi].
  by apply fade_point_not_end.
Qed.

Lemma fade_never_returns_end_colour_witness :
  let c0 := FastLED.of_code FastLED.Black in
  let c1 := FastLED.of_code 0x030201 in
  let calls := [(166, 167); (333, 333); (499, 500); (666, 666); (900, 900)] in
  exists f,
    setFade 500 c0 c1 = Some f
    /\ getNext_colours calls f !! 2%nat = Some (FastLED.mkCRGB 2 1 1)
    /\ FastLED.mkCRGB 2 1 1 <> c1.
Proof.
  intros c0 c1 calls. eexists. split; [reflexivity|]. split; [reflexivity|].
  refine (fade_never_returns_end_colour 500 c0 c1 _ calls 2
            (FastLED.mkCRGB 2 1 1) _ _ _ _);
    [apply of_code_valid | apply of_code_valid | reflexivity | reflexivity].
Defined.

(** X3. When a run of calls has ended a fade object, the position the
    object holds is exactly the end colour: the line ends at [c1] with no
    rounding error left. *)
Theorem fade_ends_at_end_colour (period : Z) (c0 c1 : CRGB)
    (f : cNeoFade) (calls : list (Z * Z)) :
  FastLED.valid c0 -> FastLED.valid c1 ->
  setFade period c0 c1 = Some f ->
  isEnded (snd (getNext_run calls f)) = true ->
  _r0 (snd (getNext_run calls f)) = FastLED.r c1
  /\ _g0 (snd (getNext_run calls f)) = FastLED.g c1
  /\ _b0 (snd (getNext_run calls f)) = FastLED.b c1.
Proof.
  intros H0 H1 Hf Hend.
  destruct (setFade_fade_inv period c0 c1 f H0 H1 Hf) as [Hinv HD].
  by apply (getNext_run_end_position c0 c1 H0 H1 HD calls 0 f).
Qed.

Lemma fade_ends_at_end_colour_witness :
  let c0 := FastLED.of_code FastLED.SeaGreen in
  let c1 := FastLED.of_code FastLED.Beige in
  let calls := every_call 2 200 in
  exists f,
    setFade 400 c0 c1 = Some f
    /\ _r0 (snd (getNext_run calls f)) = 0xF5
    /\ _g0 (snd (getNext_run calls f)) = 0xF5
    /\ _b0 (snd (getNext_run calls f)) = 0xDC.
Proof.
  intros c0 c1 calls. eexists. split; [reflexivity|].
  refine (fade_ends_at_end_colour 400 c0 c1 _ calls _ _ _ _);
    [apply of_code_valid | apply of_code_valid | reflexivity
    | vm_compute; reflexivity].
Defined.

(** X4. Two colours returned one after the other differ by at most one
    unit in each component, and each component only ever moves towards
    its end value: the fade is smooth and monotone. *)
Theorem fade_moves_one_unit_at_a_time (period : Z) (c0 c1 : CRGB)
    (f : cNeoFade) (calls : list (Z * Z)) (i : nat) (a b : CRGB) :
  FastLED.valid c0 -> FastLED.valid c1 ->
  setFade period c0 c1 = Some f ->
  getNext_colours calls f !! i = Some a ->
  getNext_colours calls f !! S i = Some b ->
  one_unit_towards (FastLED.r c1) (FastLED.r a) (FastLED.r b)
  /\ one_unit_towards (FastLED.g c1) (FastLED.g a) (FastLED.g b)
  /\ one_unit_towards (FastLED.b c1) (FastLED.b a) (FastLED.b b).
Proof.
  intros H0 H1 Hf Ha Hb.
  destruct (setFade_fade_inv period c0 c1 f H0 H1 Hf) as [Hinv HD].
  destruct (getNext_colours_points c0 c1 H0 H1 HD calls 0 f i a Hinv Ha)
    as [-> Hi].
  destruct (getNext_colours_points c0 c1 H0 H1 HD calls 0 f (S i) b Hinv Hb)
    as [-> Hi'].
  destruct (max_delta_axes c0 c1) as (Har & Hag & Hab).
  replace (0 + Z.of_nat (S i)) with (0 + Z.of_nat i + 1) by lia.
  unfold fade_point. simpl.
  repeat split; apply axis_point_succ; try done; lia.
Qed.

Lemma fade_moves_one_unit_at_a_time_witness :
  let c0 := FastLED.of_code FastLED.Black in
  let c1 := FastLED.of_code 0x030201 in
  let calls := [(166, 167); (333, 333); (499, 500); (666, 666)] in
  exists f,
    setFade 500 c0 c1 = Some f
    /\ one_unit_towards 3 1 2 /\ one_unit_towards 2 1 1
    /\ one_unit_towards 1 0 1.
Proof.
  intros c0 c1 calls. eexists. split; [reflexivity|].
  refine (fade_moves_one_unit_at_a_time 500 c0 c1 _ calls 1
            (FastLED.mkCRGB 1 1 0) (FastLED.mkCRGB 2 1 1) _ _ _ _ _);
    [apply of_code_valid | apply of_code_valid | reflexivity
    | reflexivity | reflexivity].
Defined.

(** ** What a pass over one entry does to the globals *)

Lemma led_store_inv id c G G1 :
  led_store id c G = Some G1 ->
  exists l, zset (leds G) id c = Some l
            /\ G1 = mkGlobals l (needsUpdate G) (EvWrite id c :: trace G).
Proof.
  unfold led_store. destruct (zset (leds G) id c) as [l|]; [|discriminate].
  simpl. intros H. injection H as <-. eauto.
Qed.

Lemma transition_nf ins S b j : nf (transition ins S b j) = nf S.
Proof. unfold transition. by destruct (negb _). Qed.

Lemma stateID_cases id :
  id = MB_SET \/ id = MB_FADE \/ id = MB_LOOP \/ id = MB_GOTO
  \/ id = MB_STOP \/ id = MB_NULL \/ ~ known_stateID id.
Proof. unfold known_stateID. lia. Qed.

Lemma MultiBlink_entry_effect now env T G S G' S' :
  MultiBlink_entry now env T G S = Some (G', S') ->
  entry_effect (ledId T) G S G' S'.
Proof.
  unfold MultiBlink_entry. destruct (enabled S) eqn:He.
  2: { intros H. injection H as <- <-. by apply effect_none. }
  destruct (zget (state T) (currentState S)) as [ins|] eqn:Hi; [|discriminate].
  simpl. set (e := sub32 now (lastWakeup S) >=? activeTime ins).
  destruct (stateID_cases (stateID ins))
    as [Hid|[Hid|[Hid|[Hid|[Hid|[Hid|Hid]]]]]].
  - rewrite dispatch_SET by done.
    destruct (bool_decide _).
    + simpl. intros H. injection H as <- <-.
      apply effect_none; [done|]. by rewrite transition_nf.
    + destruct (zget (leds G) (ledId T)); [|discriminate].
      destruct (led_store _ _ G) as [G1|] eqn:Hst; [|discriminate].
      simpl. intros H. injection H as <- <-.
      apply led_store_inv in Hst as (l & Hz & ->).
      eapply (effect_store _ _ _ _ _ _ l []); [exact Hz|reflexivity|].
      left. split; [done|]. by rewrite transition_nf.
  - rewrite dispatch_FADE by done. destruct e.
    + destruct (led_store _ _ _) as [G1|] eqn:Hst; [|discriminate].
      simpl. intros H. injection H as <- <-.
      apply led_store_inv in Hst as (l & Hz & ->).
      destruct (nf S) as [f|] eqn:Hnf; simpl in *.
      * eapply (effect_store _ _ _ _ _ _ l [EvDelete]); [exact Hz|reflexivity|].
        right. right. rewrite transition_nf, Hnf. simpl. eauto.
      * eapply (effect_store _ _ _ _ _ _ l []); [exact Hz|reflexivity|].
        left. rewrite transition_nf, Hnf. simpl. done.
    + destruct (nf S) as [f|] eqn:Hnf.
      * destruct (negb (isEnded f)).
        -- destruct (getNext now (ms env) f) as [[f' [|]] [rgb|]]; simpl.
           ++ destruct (led_store _ _ G) as [G1|] eqn:Hst; [|discriminate].
              simpl. intros H. injection H as <- <-.
              apply led_store_inv in Hst as (l & Hz & ->).
              eapply (effect_store _ _ _ _ _ _ l []); [exact Hz|reflexivity|].
              left. rewrite Hnf. simpl. split; [done|]. split; eauto.
           ++ intros H. injection H as <- <-.
              apply effect_none; [done|]. rewrite Hnf. simpl. split; eauto.
           ++ intros H. injection H as <- <-.
              apply effect_none; [done|]. rewrite Hnf. simpl. split; eauto.
           ++ intros H. injection H as <- <-.
              apply effect_none; [done|]. rewrite Hnf. simpl. split; eauto.
        -- simpl. intros H. injection H as <- <-.
           apply effect_none; [done|]. by rewrite Hnf.
      * destruct (alloc_ok env).
        -- destruct (setFade _ _ _) as [f|]; [|discriminate]. simpl.
           destruct (led_store _ _ _) as [G1|] eqn:Hst; [|discriminate].
           simpl. intros H. injection H as <- <-.
           apply led_store_inv in Hst as (l & Hz & ->).
           eapply (effect_store _ _ _ _ _ _ l [EvNew]); [exact Hz|reflexivity|].
           right. left. rewrite Hnf. simpl. eauto.
        -- destruct (led_store _ _ _) as [G1|] eqn:Hst; [|discriminate].
           simpl. intros H. injection H as <- <-.
           apply led_store_inv in Hst as (l & Hz & ->).
           eapply (effect_store _ _ _ _ _ _ l []); [exact Hz|reflexivity|].
           left. rewrite Hnf. simpl. done.
  - rewrite dispatch_LOOP by done.
    destruct e; [destruct (data2 ins >? _)|]; simpl;
      intros H; injection H as <- <-;
      (apply effect_none; [done|]); by rewrite transition_nf.
  - rewrite dispatch_GOTO by done.
    destruct e; simpl; intros H; injection H as <- <-;
      (apply effect_none; [done|]); by rewrite transition_nf.
  - rewrite dispatch_STOP by done. simpl. intros H. injection H as <- <-.
    by apply effect_none.
  - rewrite dispatch_NULL by done. simpl. intros H. injection H as <- <-.
    apply effect_none; [done|]. by rewrite transition_nf.
  - rewrite dispatch_default by done. simpl. intros H. injection H as <- <-.
    apply effect_none; [done|]. by rewrite transition_nf.
Qed.

Lemma zset_inv {A : Type} (a l : list A) (i : Z) (x : A) :
  zset a i x = Some l ->
  length l = length a
  /\ zget l i = Some x
  /\ forall j, j <> i -> zget l j = zget a j.
Proof.
  unfold zset.
  destruct (Z.leb_spec 0 i); [|discriminate].
  destruct (Z.ltb_spec i (Z.of_nat (length a))); [|discriminate].
  simpl. intros H1. injection H1 as <-.
  split; [apply length_insert|]. split; [apply zget_insert; lia|].
  intros j Hj. unfold zget. destruct (Z.ltb_spec j 0); [reflexivity|].
  apply list_lookup_insert_ne. lia.
Qed.

Lemma live_app tr1 tr2 : live (tr1 ++ tr2) = live tr1 + live tr2.
Proof.
  induction tr1 as [|[id c| |] tr1 IH]; simpl; lia.
Qed.

Lemma owned_count_cons S0 pS :
  Z.of_nat (owned_count (S0 :: pS)) = owned S0 + Z.of_nat (owned_count pS).
Proof. unfold owned. simpl. destruct (nf S0); lia. Qed.

Lemma owned_is_Some S S' :
  (is_Some (nf S') <-> is_Some (nf S)) -> owned S' = owned S.
Proof.
  unfold owned. simpl. intros [H1 H2].
  destruct (nf S) as [f|], (nf S') as [f'|]; try reflexivity.
  - destruct H2 as [? ?]; [eauto|discriminate].
  - destruct H1 as [? ?]; [eauto|discriminate].
Qed.

(** The four facts about one entry that the passes over a table add up. *)
Lemma MultiBlink_entry_facts now env T G S G' S' :
  MultiBlink_entry now env T G S = Some (G', S') ->
  length (leds G') = length (leds G)
  /\ (forall j, j <> ledId T -> zget (leds G') j = zget (leds G) j)
  /\ (G' = G \/ needsUpdate G' = true)
  /\ live (trace G') + owned S = live (trace G) + owned S'.
Proof.
  intros H. apply MultiBlink_entry_effect in H.
  destruct H as [-> Hnf | c l ev Hz -> Hev].
  - repeat split; auto. rewrite (owned_is_Some _ _ Hnf). lia.
  - destruct (zset_inv _ _ _ _ Hz) as (Hlen & _ & Hother). simpl.
    repeat split; auto.
    rewrite live_app.
    destruct Hev as [[-> Hnf]|[(-> & Hn & Hs)|(-> & Hs & Hn)]]; simpl.
    + rewrite (owned_is_Some _ _ Hnf). lia.
    + unfold owned. simpl. rewrite Hn. destruct Hs as [f ->]. lia.
    + unfold owned. simpl. rewrite Hn. destruct Hs as [f ->]. lia.
Qed.

Lemma MultiBlink_loop_facts now envs tableSize : forall i pT pS G G' pS',
  MultiBlink_loop now envs i tableSize pT pS G = Some (G', pS') ->
  length (leds G') = length (leds G)
  /\ (forall j, (forall T, T ∈ take tableSize pT -> ledId T <> j) ->
        zget (leds G') j = zget (leds G) j)
  /\ (G' = G \/ needsUpdate G' = true)
  /\ (needsUpdate G = true -> needsUpdate G' = true)
  /\ live (trace G') + Z.of_nat (owned_count pS)
     = live (trace G) + Z.of_nat (owned_count pS').
Proof.
  induction tableSize as [|n IH]; intros i pT pS G G' pS' H; simpl in H.
  - injection H as <- <-. repeat split; auto.
  - destruct pT as [|T pT]; [discriminate|].
    destruct pS as [|S0 pS]; [discriminate|].
    destruct (MultiBlink_entry now (envs i) T G S0) as [[G1 S1]|] eqn:E1;
      [|discriminate].
    simpl in H.
    destruct (MultiBlink_loop now envs (S i) n pT pS G1) as [[G2 rest]|] eqn:E2;
      [|discriminate].
    simpl in H. injection H as <- <-.
    destruct (MultiBlink_entry_facts _ _ _ _ _ _ _ E1) as (L1 & F1 & D1 & B1).
    destruct (IH _ _ _ _ _ _ E2) as (L2 & F2 & D2 & M2 & B2).
    split; [congruence|]. split; [|split; [|split]].
    + intros j Hj. rewrite F2, F1; [reflexivity| |].
      * intros ->. apply (Hj T); [|reflexivity]. simpl. left.
      * intros T' HT'. apply Hj. simpl. by right.
    + destruct D2 as [->|?]; auto.
    + intros Hn. destruct D1 as [->|?]; auto.
    + rewrite !owned_count_cons. lia.
Qed.

(** ** Passes that stay defined *)

Lemma transition_range ins S setNext nextState :
  MAX_STATE_range (currentState S) ->
  (setNext = false -> -1 <= nextState < 32768) ->
  MAX_STATE_range (currentState (transition ins S setNext nextState)).
Proof.
  intros Hcs Hj.
  destruct setNext.
  - apply transition_in_bounds; [|discriminate].
    unfold MAX_STATE_range, MAX_STATE, is_uint8 in *. lia.
  - destruct (Z.eq_dec nextState (-1)) as [->|Hne]; [exact Hcs|].
    apply transition_in_bounds; [|intros _; specialize (Hj eq_refl); lia].
    unfold MAX_STATE_range, MAX_STATE, is_uint8 in *. lia.
Qed.

Lemma sequence_safe_inv nleds T :
  sequence_safe nleds T = true ->
  Z.of_nat (length (state T)) = MAX_STATE
  /\ 0 <= ledId T < Z.of_nat nleds
  /\ forall cs ins, zget (state T) cs = Some ins -> state_safe ins = true.
Proof.
  unfold sequence_safe. rewrite !andb_true_iff.
  intros [[[H1 H2] H3] H4].
  apply Z.eqb_eq in H1. apply Z.leb_le in H2. apply Z.ltb_lt in H3.
  split; [exact H1|]. split; [lia|].
  intros cs ins Hi. rewrite forallb_forall in H4. apply H4.
  unfold zget in Hi. destruct (cs <? 0); [discriminate|].
  apply list_elem_of_In. eapply list_elem_of_lookup_2. exact Hi.
Qed.

Lemma zget_in_range {A : Type} (a : list A) (i : Z) :
  0 <= i < Z.of_nat (length a) -> is_Some (zget a i).
Proof.
  intros Hi. unfold zget. destruct (Z.ltb_spec i 0); [lia|].
  apply lookup_lt_is_Some. lia.
Qed.

Lemma state_safe_FADE ins :
  stateID ins = MB_FADE -> state_safe ins = true ->
  fade_dMax (FastLED.of_code (data1 ins)) (FastLED.of_code (data2 ins)) <> 0.
Proof.
  unfold state_safe. intros ->. change (MB_FADE =? MB_FADE) with true.
  cbv iota. intros H. by apply negb_true_iff, Z.eqb_neq in H.
Qed.

Lemma state_safe_jump ins :
  stateID ins = MB_LOOP \/ stateID ins = MB_GOTO -> state_safe ins = true ->
  -1 <= to_int16 (data1 ins).
Proof.
  unfold state_safe.
  intros [-> | ->];
    [change (MB_LOOP =? MB_FADE) with false;
     change ((MB_LOOP =? MB_LOOP) || (MB_LOOP =? MB_GOTO)) with true
    |change (MB_GOTO =? MB_FADE) with false;
     change ((MB_GOTO =? MB_LOOP) || (MB_GOTO =? MB_GOTO)) with true];
    cbv iota; intros H; by apply Z.leb_le in H.
Qed.

Lemma MultiBlink_entry_safe now env T G S :
  sequence_safe (length (leds G)) T = true ->
  MAX_STATE_range (currentState S) ->
  exists G' S',
    MultiBlink_entry now env T G S = Some (G', S')
    /\ MAX_STATE_range (currentState S').
Proof.
  intros Hsafe Hcs.
  destruct (sequence_safe_inv _ _ Hsafe) as (Hlen & Hid & Hst).
  unfold MultiBlink_entry. destruct (enabled S) eqn:He; [|eauto].
  destruct (zget_in_range (state T) (currentState S)) as [ins Hi];
    [unfold MAX_STATE_range in Hcs; lia|].
  rewrite Hi. simpl.
  specialize (Hst _ _ Hi).
  destruct (zget_in_range (leds G) (ledId T) Hid) as [old Hold].
  assert (Hstore : forall c G0, leds G0 = leds G ->
            exists G1, led_store (ledId T) c G0 = Some G1).
  { intros c G0 HG0.
    destruct (led_store_Some (ledId T) c G0 old) as (l & -> & _);
      [by rewrite HG0|eauto]. }
  set (e := sub32 now (lastWakeup S) >=? activeTime ins).
  pose proof (to_int16_range (data1 ins)) as Hj.
  destruct (stateID_cases (stateID ins))
    as [Hid'|[Hid'|[Hid'|[Hid'|[Hid'|[Hid'|Hid']]]]]].
  - rewrite dispatch_SET by done. destruct (bool_decide _).
    + simpl. eexists _, _. split; [reflexivity|].
      apply transition_range; [done|]. lia.
    + rewrite Hold. destruct (Hstore (FastLED.of_code (data1 ins)) G eq_refl)
        as [G1 ->].
      simpl. eexists _, _. split; [reflexivity|].
      apply transition_range; [done|]. lia.
  - rewrite dispatch_FADE by done. apply state_safe_FADE in Hst; [|done].
    destruct e.
    + destruct (Hstore (FastLED.of_code (data2 ins))
                  (match nf S with Some _ => log EvDelete G | None => G end))
        as [G1 ->]; [by destruct (nf S)|].
      simpl. eexists _, _. split; [reflexivity|].
      by apply transition_range.
    + destruct (nf S) as [f|].
      * destruct (negb (isEnded f)).
        -- destruct (getNext now (ms env) f) as [[f' [|]] [rgb|]]; simpl;
             try (eexists _, _; split; [reflexivity|];
                  apply transition_range; [done|]; lia).
           destruct (Hstore rgb G eq_refl) as [G1 ->]. simpl.
           eexists _, _. split; [reflexivity|].
           apply transition_range; [done|]. lia.
        -- simpl. eexists _, _. split; [reflexivity|].
           apply transition_range; [done|]. lia.
      * destruct (alloc_ok env).
        -- destruct (setFade_defined (to_uint16 (activeTime ins)) _ _ Hst)
             as (f & -> & _).
           simpl.
           destruct (Hstore (FastLED.of_code (data1 ins)) (log EvNew G) eq_refl)
             as [G1 ->].
           simpl. eexists _, _. split; [reflexivity|].
           apply transition_range; [done|]. lia.
        -- destruct (Hstore (FastLED.of_code (data1 ins)) G eq_refl)
             as [G1 ->].
           simpl. eexists _, _. split; [reflexivity|].
           apply transition_range; [done|]. lia.
  - rewrite dispatch_LOOP by done.
    apply state_safe_jump in Hst; [|by left].
    destruct e; [destruct (data2 ins >? _)|]; simpl;
      eexists _, _; (split; [reflexivity|]);
      apply transition_range; try done; lia.
  - rewrite dispatch_GOTO by done.
    apply state_safe_jump in Hst; [|by right].
    destruct e; simpl; eexists _, _; (split; [reflexivity|]);
      apply transition_range; try done; lia.
  - rewrite dispatch_STOP by done. simpl. eexists _, _.
    split; [reflexivity|]. apply transition_range; [done|]. lia.
  - rewrite dispatch_NULL by done. simpl. eexists _, _.
    split; [reflexivity|]. by apply transition_range.
  - rewrite dispatch_default by done. simpl. eexists _, _.
    split; [reflexivity|]. by apply transition_range.
Qed.

Lemma MultiBlink_loop_safe now envs (nleds : nat) : forall pT i pS G,
  length pS = length pT ->
  length (leds G) = nleds ->
  Forall (fun T => sequence_safe nleds T = true) pT ->
  Forall (fun S0 => MAX_STATE_range (currentState S0)) pS ->
  exists G' pS',
    MultiBlink_loop now envs i (length pT) pT pS G = Some (G', pS')
    /\ length pS' = length pT
    /\ length (leds G') = nleds
    /\ Forall (fun S0 => MAX_STATE_range (currentState S0)) pS'.
Proof.
  induction pT as [|T pT IH]; intros i pS G Hlen Hleds HT HS.
  - destruct pS; [|discriminate]. exists G, []. simpl. auto.
  - destruct pS as [|S0 pS]; [discriminate|].
    inversion HT as [|? ? HT1 HTr]; subst.
    inversion HS as [|? ? HS1 HSr]; subst.
    destruct (MultiBlink_entry_safe now (envs i) T G S0 HT1 HS1)
      as (G1 & S1 & E1 & R1).
    destruct (MultiBlink_entry_facts _ _ _ _ _ _ _ E1) as (L1 & _).
    destruct (IH (S i) pS G1) as (G2 & pS2 & E2 & Hl2 & Hn2 & R2);
      [simpl in Hlen; lia|by rewrite L1|done|done|].
    exists G2, (S1 :: pS2). simpl. rewrite E1. simpl. rewrite E2. simpl.
    repeat split; auto.
Qed.

(** X5. A pass of [MultiBlink] stores only into the LEDs its table
    entries name: the LED array keeps its length, and every LED that is
    not the [ledId] of one of the entries visited holds the colour it
    held before. *)
Theorem MultiBlink_touches_only_its_leds (now : Z) (envs : nat -> tick_env)
    (pT : list sequence_t) (pS pS' : list scratchpad_t) (tableSize : nat)
    (G G' : globals) (j : Z) :
  MultiBlink now envs pT pS tableSize G = Some (G', pS') ->
  Forall (fun T => ledId T <> j) (take tableSize pT) ->
  length (leds G') = length (leds G)
  /\ zget (leds G') j = zget (leds G) j.
Proof.
  unfold MultiBlink. intros H Hj.
  destruct (MultiBlink_loop_facts _ _ _ _ _ _ _ _ _ H) as (L & F & _).
  split; [exact L|]. apply F. by apply Forall_forall.
Qed.

Lemma MultiBlink_touches_only_its_leds_witness :
  let G := mkGlobals (replicate 8 (FastLED.of_code FastLED.Red)) false [] in
  let pS := replicate 6 (mkScratchpad true 0 0 None 0) in
  exists G' pS',
    MultiBlink 5 (fun _ => mkEnv 5 true) Sketch.T2 pS 6 G = Some (G', pS')
    /\ length (leds G') = 8%nat
    /\ zget (leds G') 2 = Some (FastLED.of_code FastLED.Red).
Proof.
  intros G pS. eexists _, _. split; [vm_compute; reflexivity|].
  refine (MultiBlink_touches_only_its_leds 5 (fun _ => mkEnv 5 true)
            Sketch.T2 pS _ 6 G _ 2 _ _); [vm_compute; reflexivity|].
  repeat constructor; vm_compute; discriminate.
Defined.

(** X6. A pass of [MultiBlink] never changes an LED without setting
    [needsUpdate], and never clears the flag: its result either has
    [needsUpdate] set or has the very globals it started from. *)
Theorem MultiBlink_flags_every_change (now : Z) (envs : nat -> tick_env)
    (pT : list sequence_t) (pS pS' : list scratchpad_t) (tableSize : nat)
    (G G' : globals) :
  MultiBlink now envs pT pS tableSize G = Some (G', pS') ->
  (G' = G \/ needsUpdate G' = true)
  /\ (needsUpdate G = true -> needsUpdate G' = true).
Proof.
  unfold MultiBlink. intros H.
  destruct (MultiBlink_loop_facts _ _ _ _ _ _ _ _ _ H) as (_ & _ & D & M & _).
  auto.
Qed.

Lemma MultiBlink_flags_every_change_witness :
  let G := mkGlobals (replicate 8 (FastLED.of_code FastLED.Red)) false [] in
  let pS := replicate 6 (mkScratchpad true 0 0 None 0) in
  exists G' pS',
    MultiBlink 5 (fun _ => mkEnv 5 true) Sketch.T2 pS 6 G = Some (G', pS')
    /\ (G' = G \/ needsUpdate G' = true).
Proof.
  intros G pS. eexists _, _. split; [vm_compute; reflexivity|].
  refine (proj1 (MultiBlink_flags_every_change 5 (fun _ => mkEnv 5 true)
                   Sketch.T2 pS _ 6 G _ _)).
  vm_compute. reflexivity.
Defined.

(** X7. A pass of [MultiBlink] makes and deletes fade objects in step
    with what the scratchpads own: the number of objects made less those
    deleted changes by exactly the change in the number of scratchpads
    that hold one, so no object is leaked and none is deleted twice. *)
Theorem MultiBlink_keeps_fade_objects_balanced (now : Z)
    (envs : nat -> tick_env) (pT : list sequence_t)
    (pS pS' : list scratchpad_t) (tableSize : nat) (G G' : globals) :
  MultiBlink now envs pT pS tableSize G = Some (G', pS') ->
  live (trace G') - live (trace G)
  = Z.of_nat (owned_count pS') - Z.of_nat (owned_count pS).
Proof.
  unfold MultiBlink. intros H.
  destruct (MultiBlink_loop_facts _ _ _ _ _ _ _ _ _ H) as (_ & _ & _ & _ & B).
  lia.
Qed.

Lemma MultiBlink_keeps_fade_objects_balanced_witness :
  let G := mkGlobals (replicate 8 (FastLED.of_code FastLED.Red)) false [] in
  let pS := replicate 6 (mkScratchpad true 0 0 None 0) in
  exists G' pS',
    MultiBlink 5 (fun _ => mkEnv 5 true) Sketch.T2 pS 6 G = Some (G', pS')
    /\ live (trace G') - live (trace G)
       = Z.of_nat (owned_count pS') - Z.of_nat (owned_count pS)
    /\ owned_count pS' = 2%nat.
Proof.
  intros G pS. eexists _, _. split; [vm_compute; reflexivity|].
  split; [|vm_compute; reflexivity].
  refine (MultiBlink_keeps_fade_objects_balanced 5 (fun _ => mkEnv 5 true)
            Sketch.T2 pS _ 6 G _ _).
  vm_compute. reflexivity.
Defined.

Lemma run_table_safe (nleds : nat) pT passes : forall pS G,
  length pS = length pT ->
  length (leds G) = nleds ->
  Forall (fun T => sequence_safe nleds T = true) pT ->
  Forall (fun S0 => MAX_STATE_range (currentState S0)) pS ->
  exists G' pS',
    run_table pT passes pS G = Some (G', pS')
    /\ length pS' = length pT
    /\ length (leds G') = nleds
    /\ Forall (fun S0 => MAX_STATE_range (currentState S0)) pS'.
Proof.
  induction passes as [|[now envs] rest IH]; intros pS G Hlen Hleds HT HS.
  - exists G, pS. simpl. auto.
  - destruct (MultiBlink_loop_safe now envs nleds pT 0 pS G Hlen Hleds HT HS)
      as (G1 & pS1 & E1 & Hl1 & Hn1 & R1).
    destruct (IH pS1 G1 Hl1 Hn1 HT R1) as (G2 & pS2 & E2 & ?).
    exists G2, pS2. simpl. unfold MultiBlink. rewrite E1. simpl. auto.
Qed.

(** X8. Over a table whose entries are safe ([MAX_STATE] states each, LED
    inside the array, fades between different colours, jump targets not
    negative as [int16_t]), any number of passes of [MultiBlink], at any
    times and whatever [new] returns, is defined: no array is indexed out
    of bounds and no division by zero is made, and every state index
    stays in [[0, MAX_STATE)]. *)
Theorem MultiBlink_defined_on_safe_tables (pT : list sequence_t)
    (passes : list (Z * (nat -> tick_env))) (pS : list scratchpad_t)
    (G : globals) :
  length pS = length pT ->
  Forall (fun T => sequence_safe (length (leds G)) T = true) pT ->
  Forall (fun S0 => MAX_STATE_range (currentState S0)) pS ->
  exists G' pS',
    run_table pT passes pS G = Some (G', pS')
    /\ length (leds G') = length (leds G)
    /\ Forall (fun S0 => MAX_STATE_range (currentState S0)) pS'.
Proof.
  intros Hlen HT HS.
  destruct (run_table_safe (length (leds G)) pT passes pS G Hlen eq_refl HT HS)
    as (G' & pS' & E & _ & L & R).
  eauto.
Qed.

Lemma MultiBlink_defined_on_safe_tables_witness :
  let G := mkGlobals (replicate 8 (FastLED.of_code FastLED.Black)) true [] in
  let pS := replicate 8 (mkScratchpad true 0 0 None 0) in
  let passes := [(0, fun _ => mkEnv 0 true); (250, fun _ => mkEnv 251 false);
                 (1700, fun _ => mkEnv 1700 true)] in
  exists G' pS',
    run_table Sketch.T3 passes pS G = Some (G', pS')
    /\ length (leds G') = length (leds G)
    /\ Forall (fun S0 => MAX_STATE_range (currentState S0)) pS'.
Proof.
  intros G pS passes.
  apply (MultiBlink_defined_on_safe_tables Sketch.T3 passes pS G).
  - reflexivity.
  - repeat constructor.
  - repeat constructor; vm_compute; try discriminate.
Defined.

(** ** The sketch *)

Lemma LEDInit_loop_spec (n : nat) : forall i G,
  0 <= i -> i + Z.of_nat n <= Z.of_nat (length (leds G)) ->
  exists G',
    Sketch.LEDInit_loop i n G = Some G'
    /\ length (leds G') = length (leds G)
    /\ needsUpdate G' = needsUpdate G
    /\ live (trace G') = live (trace G)
    /\ (forall j, i <= j < i + Z.of_nat n ->
          zget (leds G') j = Some (FastLED.of_code FastLED.Black))
    /\ (forall j, j < i -> zget (leds G') j = zget (leds G) j).
Proof.
  induction n as [|n IH]; intros i G Hi Hn.
  - exists G. simpl. repeat split; auto. intros j Hj. lia.
  - simpl Sketch.LEDInit_loop.
    destruct (zget_in_range (leds G) i ltac:(lia)) as [old Hold].
    destruct (led_store_Some i (FastLED.of_code FastLED.Black) G old Hold)
      as (l & Hst & Hl & Hlen).
    rewrite Hst. simpl.
    destruct (IH (i + 1) (mkGlobals l (needsUpdate G)
                    (EvWrite i (FastLED.of_code FastLED.Black) :: trace G)))
      as (G' & E & L & N & Lv & B & F); [lia|simpl; lia|].
    exists G'. simpl in *. split; [exact E|].
    split; [congruence|]. split; [exact N|]. split; [exact Lv|]. split.
    + intros j Hj. destruct (Z.eq_dec j i) as [->|Hne].
      * rewrite F by lia. exact Hl.
      * apply B. lia.
    + intros j Hj. rewrite F by lia.
      unfold led_store in Hst. destruct (zset (leds G) i _) as [l'|] eqn:Hz;
        [|discriminate].
      simpl in Hst. injection Hst as <-.
      destruct (zset_inv _ _ _ _ Hz) as (_ & _ & Ho). apply Ho. lia.
Qed.

Lemma LEDInit_spec G :
  length (leds G) = Z.to_nat NUM_LEDS ->
  exists G',
    Sketch.LEDInit G = Some G'
    /\ length (leds G') = length (leds G)
    /\ needsUpdate G' = true
    /\ live (trace G') = live (trace G)
    /\ Sketch.all_black G'.
Proof.
  intros Hlen. unfold Sketch.LEDInit.
  destruct (LEDInit_loop_spec (Z.to_nat NUM_LEDS) 0 G)
    as (G1 & E & L & N & Lv & B & _); [lia|rewrite Hlen; lia|].
  rewrite E. simpl. exists (set_needsUpdate G1). simpl.
  repeat split; auto.
Qed.

Lemma BlinkInit_spec now pS G :
  exists pS',
    BlinkInit now pS (length pS) G =
      Some (mkGlobals (leds G) true
                      (replicate (owned_count pS) EvDelete ++ trace G), pS')
    /\ length pS' = length pS
    /\ Forall (is_reset now) pS'.
Proof.
  destruct (BlinkInit_loop_all now pS G) as (pS' & Hrun & Hlen & Hall).
  exists pS'. unfold BlinkInit. rewrite Hrun. simpl. auto.
Qed.

Lemma live_deletes n tr : live (replicate n EvDelete ++ tr) = live tr - Z.of_nat n.
Proof. induction n as [|n IH]; simpl; lia. Qed.

Lemma is_reset_owned now pS :
  Forall (is_reset now) pS -> owned_count pS = O.
Proof.
  induction 1 as [|S0 pS (_ & _ & _ & _ & Hnf) _ IH]; simpl; [reflexivity|].
  by rewrite Hnf.
Qed.

Lemma is_reset_range now pS :
  Forall (is_reset now) pS ->
  Forall (fun S0 => MAX_STATE_range (currentState S0)) pS.
Proof.
  intros H. eapply Forall_impl; [exact H|].
  intros S0 (_ & -> & _). unfold MAX_STATE_range, MAX_STATE. lia.
Qed.

Lemma InitTables_spec t1 t2 t3 st :
  length (leds (Sketch.glob st)) = Z.to_nat NUM_LEDS ->
  exists G' pS1 pS2 pS3,
    Sketch.InitTables t1 t2 t3 st =
      Some (Sketch.mkState G' pS1 pS2 pS3 (Sketch.nTable st)
                           (Sketch.bLastHigh st) (Sketch.shown st))
    /\ length (leds G') = Z.to_nat NUM_LEDS
    /\ needsUpdate G' = true
    /\ Sketch.all_black G'
    /\ live (trace G') = live (trace (Sketch.glob st))
         - Z.of_nat (owned_count (Sketch.S1 st))
         - Z.of_nat (owned_count (Sketch.S2 st))
         - Z.of_nat (owned_count (Sketch.S3 st))
    /\ length pS1 = length (Sketch.S1 st) /\ Forall (is_reset t1) pS1
    /\ length pS2 = length (Sketch.S2 st) /\ Forall (is_reset t2) pS2
    /\ length pS3 = length (Sketch.S3 st) /\ Forall (is_reset t3) pS3.
Proof.
  intros Hlen. unfold Sketch.InitTables.
  destruct (LEDInit_spec _ Hlen) as (G0 & -> & L0 & N0 & Lv0 & B0). simpl.
  destruct (BlinkInit_spec t1 (Sketch.S1 st) G0) as (pS1 & -> & Hl1 & R1).
  simpl.
  destruct (BlinkInit_spec t2 (Sketch.S2 st)
              (mkGlobals (leds G0) true
                 (replicate (owned_count (Sketch.S1 st)) EvDelete ++ trace G0)))
    as (pS2 & -> & Hl2 & R2).
  simpl.
  match goal with
  | |- context [BlinkInit t3 _ _ ?G] =>
      destruct (BlinkInit_spec t3 (Sketch.S3 st) G) as (pS3 & -> & Hl3 & R3)
  end.
  simpl. eexists _, pS1, pS2, pS3. split; [reflexivity|]. simpl.
  split; [congruence|]. split; [reflexivity|]. split; [exact B0|].
  split; [rewrite !live_deletes; lia|]. auto 10.
Qed.

Lemma T1_safe : Forall (fun T => sequence_safe 8 T = true) Sketch.T1.
Proof. repeat constructor. Qed.

Lemma T2_safe : Forall (fun T => sequence_safe 8 T = true) Sketch.T2.
Proof. repeat constructor. Qed.

Lemma T3_safe : Forall (fun T => sequence_safe 8 T = true) Sketch.T3.
Proof. repeat constructor. Qed.

Lemma show_if_needed_arrays st :
  Sketch.arrays_ok st -> Sketch.arrays_ok (Sketch.show_if_needed st).
Proof.
  unfold Sketch.show_if_needed. by destruct (needsUpdate (Sketch.glob st)).
Qed.

Lemma show_if_needed_nTable st :
  Sketch.nTable (Sketch.show_if_needed st) = Sketch.nTable st.
Proof.
  unfold Sketch.show_if_needed. by destruct (needsUpdate (Sketch.glob st)).
Qed.

Lemma loop_switch_arrays i st :
  Sketch.in_bounds st ->
  exists st1,
    Sketch.loop_switch i st = Some st1
    /\ Sketch.arrays_ok st1 /\ 0 <= Sketch.nTable st1 <= 3.
Proof.
  intros [(L & L1 & L2 & L3 & R1 & R2 & R3) Hn]. unfold Sketch.loop_switch.
  unfold Sketch.switchState.
  destruct (negb (Sketch.bLastHigh st) && Sketch.pin i).
  - destruct (Sketch.init_ms i) as [[t1 t2] t3].
    destruct (InitTables_spec t1 t2 t3
                (Sketch.mkState (Sketch.glob st) (Sketch.S1 st) (Sketch.S2 st)
                   (Sketch.S3 st) (to_uint8 (Sketch.nTable st + 1))
                   (Sketch.pin i) (Sketch.shown st)) L)
      as (G' & pS1 & pS2 & pS3 & -> & L' & _ & _ & _ & Hl1 & Hr1 & Hl2 & Hr2
          & Hl3 & Hr3).
    eexists. split; [reflexivity|]. simpl in *. split.
    + unfold Sketch.arrays_ok. simpl.
      repeat split; try congruence; eapply is_reset_range; eauto.
    + rewrite to_uint8_id by (unfold is_uint8; lia). lia.
  - eexists. split; [reflexivity|]. simpl. split; [|lia].
    unfold Sketch.arrays_ok. simpl. auto 10.
Qed.

Lemma loop_run_bounds i st :
  Sketch.arrays_ok st -> 0 <= Sketch.nTable st <= 3 ->
  exists st', Sketch.loop_run i st = Some st' /\ Sketch.in_bounds st'.
Proof.
  intros (L & L1 & L2 & L3 & R1 & R2 & R3) Hn. unfold Sketch.loop_run.
  destruct (Z.eqb_spec (Sketch.nTable st) 0) as [H0|H0].
  - destruct (MultiBlink_loop_safe (Sketch.now i) (Sketch.envs i) 8 Sketch.T1 0
                (Sketch.S1 st) (Sketch.glob st) L1 L T1_safe R1)
      as (G' & pS' & E & Hl & HL & R).
    unfold MultiBlink. rewrite E. simpl. eexists. split; [reflexivity|].
    unfold Sketch.in_bounds, Sketch.arrays_ok. simpl. rewrite H0.
    repeat split; auto; lia.
  - destruct (Z.eqb_spec (Sketch.nTable st) 1) as [H1|H1].
    + destruct (MultiBlink_loop_safe (Sketch.now i) (Sketch.envs i) 8 Sketch.T2 0
                  (Sketch.S2 st) (Sketch.glob st) L2 L T2_safe R2)
        as (G' & pS' & E & Hl & HL & R).
      unfold MultiBlink. rewrite E. simpl. eexists. split; [reflexivity|].
      unfold Sketch.in_bounds, Sketch.arrays_ok. simpl. rewrite H1.
      repeat split; auto; lia.
    + destruct (Z.eqb_spec (Sketch.nTable st) 2) as [H2|H2].
      * destruct (MultiBlink_loop_safe (Sketch.now i) (Sketch.envs i) 8 Sketch.T3 0
                    (Sketch.S3 st) (Sketch.glob st) L3 L T3_safe R3)
          as (G' & pS' & E & Hl & HL & R).
        unfold MultiBlink. rewrite E. simpl. eexists. split; [reflexivity|].
        unfold Sketch.in_bounds, Sketch.arrays_ok. simpl. rewrite H2.
        repeat split; auto; lia.
      * eexists. split; [reflexivity|].
        unfold Sketch.in_bounds, Sketch.arrays_ok. simpl.
        repeat split; auto; lia.
Qed.

Lemma loop_bounds i st :
  Sketch.in_bounds st ->
  exists st', Sketch.loop i st = Some st' /\ Sketch.in_bounds st'.
Proof.
  intros Hb. unfold Sketch.loop.
  destruct (loop_switch_arrays i st Hb) as (st1 & -> & Ha & Hn). simpl.
  apply loop_run_bounds; [by apply show_if_needed_arrays|].
  by rewrite show_if_needed_nTable.
Qed.

Lemma run_loop_bounds inputs : forall st,
  Sketch.in_bounds st ->
  exists st', Sketch.run_loop inputs st = Some st' /\ Sketch.in_bounds st'.
Proof.
  induction inputs as [|i rest IH]; intros st Hb; [by exists st|].
  destruct (loop_bounds i st Hb) as (st1 & E & Hb1).
  destruct (IH st1 Hb1) as (st' & E' & Hb').
  exists st'. simpl. rewrite E. simpl. auto.
Qed.

Lemma setup_bounds t1 t2 t3 :
  exists st0, Sketch.setup t1 t2 t3 = Some st0 /\ Sketch.in_bounds st0.
Proof.
  unfold Sketch.setup.
  destruct (InitTables_spec t1 t2 t3 Sketch.power_on eq_refl)
    as (G' & pS1 & pS2 & pS3 & -> & L' & _ & _ & _ & Hl1 & Hr1 & Hl2 & Hr2
        & Hl3 & Hr3).
  eexists. split; [reflexivity|].
  unfold Sketch.in_bounds, Sketch.arrays_ok. simpl in *.
  repeat split; try done; try lia; eapply is_reset_range; eauto.
Qed.

(** X9. The sketch never leaves its defined behaviour: after [setup], any
    number of calls of [loop], whatever the switch reads, whatever the
    clock returns and whether or not [new] finds memory, is defined, with
    every array at its size, every state index inside its table and
    [nTable] one of 0, 1, 2.  The defects of [setFade] and of the state
    wrap-around are out of reach of the tables [T1], [T2] and [T3]. *)
Theorem sketch_stays_in_bounds (t1 t2 t3 : Z) (inputs : list Sketch.loop_in) :
  exists st0 st',
    Sketch.setup t1 t2 t3 = Some st0
    /\ Sketch.run_loop inputs st0 = Some st'
    /\ Sketch.in_bounds st'.
Proof.
  destruct (setup_bounds t1 t2 t3) as (st0 & E0 & Hb0).
  destruct (run_loop_bounds inputs st0 Hb0) as (st' & E & Hb).
  eauto.
Qed.

(** X10. [switchState] is edge-triggered: over any sequence of readings
    of the switch, call [k] returns [true] exactly when reading [k] is
    high and the reading before it was low (before the first reading:
    the initial [bLastHigh]); it never returns [true] on two calls in a
    row, however long the switch is held. *)
Theorem switchState_fires_on_rising_edges (pins : list bool) (last : bool)
    (k : nat) :
  (Sketch.switch_run pins last !! k = Some true
   <-> pins !! k = Some true
       /\ match k with
          | O => last = false
          | Datatypes.S k' => pins !! k' = Some false
          end)
  /\ (Sketch.switch_run pins last !! k = Some true ->
      Sketch.switch_run pins last !! Datatypes.S k <> Some true).
Proof.
  assert (Hiff : forall pins last k,
            Sketch.switch_run pins last !! k = Some true
            <-> pins !! k = Some true
                /\ match k with
                   | O => last = false
                   | Datatypes.S k' => pins !! k' = Some false
                   end).
  { clear. induction pins as [|p rest IH]; intros last k.
    - simpl. split; [discriminate|]. intros [H _]. discriminate.
    - simpl. destruct k as [|k']; simpl.
      + destruct last, p; simpl; split; try discriminate; auto;
          intros [? ?]; discriminate.
      + rewrite IH. destruct k' as [|k'']; simpl; [|reflexivity].
        destruct p; split; intros [? H]; split; auto; congruence. }
  split; [apply Hiff|].
  intros H1 H2. apply Hiff in H1 as [Hk _]. apply Hiff in H2 as [_ Hk'].
  congruence.
Qed.

Lemma switchState_fires_on_rising_edges_witness :
  Sketch.switch_run [true; true; false; true; true; false; true] true
  = [false; false; false; true; false; false; true]
  /\ (Sketch.switch_run [true; true; false; true; true; false; true] true
        !! 3%nat = Some true ->
      Sketch.switch_run [true; true; false; true; true; false; true] true
        !! 4%nat <> Some true).
Proof.
  split; [reflexivity|].
  exact (proj2 (switchState_fires_on_rising_edges
                  [true; true; false; true; true; false; true] true 3)).
Defined.

Lemma show_if_needed_shown st :
  Sketch.coherent st ->
  needsUpdate (Sketch.glob (Sketch.show_if_needed st)) = false
  /\ head (Sketch.shown (Sketch.show_if_needed st))
     = Some (leds (Sketch.glob (Sketch.show_if_needed st))).
Proof.
  unfold Sketch.coherent, Sketch.show_if_needed. intros H.
  destruct (needsUpdate (Sketch.glob st)) eqn:E; simpl; auto.
Qed.

Lemma LEDInit_loop_live (n : nat) : forall i G G',
  Sketch.LEDInit_loop i n G = Some G' -> live (trace G') = live (trace G).
Proof.
  induction n as [|n IH]; intros i G G' H; simpl in H.
  - by injection H as <-.
  - destruct (led_store i _ G) as [G1|] eqn:Hst; [|discriminate]. simpl in H.
    apply led_store_inv in Hst as (l & _ & ->).
    apply IH in H. simpl in H. exact H.
Qed.

Lemma InitTables_inv t1 t2 t3 st st' :
  Sketch.InitTables t1 t2 t3 st = Some st' ->
  Sketch.nTable st' = Sketch.nTable st
  /\ Sketch.bLastHigh st' = Sketch.bLastHigh st
  /\ Sketch.shown st' = Sketch.shown st
  /\ needsUpdate (Sketch.glob st') = true
  /\ live (trace (Sketch.glob st'))
     = live (trace (Sketch.glob st))
       - Z.of_nat (owned_count (Sketch.S1 st))
       - Z.of_nat (owned_count (Sketch.S2 st))
       - Z.of_nat (owned_count (Sketch.S3 st))
  /\ Forall (is_reset t1) (Sketch.S1 st')
  /\ Forall (is_reset t2) (Sketch.S2 st')
  /\ Forall (is_reset t3) (Sketch.S3 st').
Proof.
  unfold Sketch.InitTables, Sketch.LEDInit.
  destruct (Sketch.LEDInit_loop 0 _ (Sketch.glob st)) as [G0|] eqn:E0;
    [|discriminate].
  apply LEDInit_loop_live in E0. simpl.
  destruct (BlinkInit_spec t1 (Sketch.S1 st) (set_needsUpdate G0))
    as (pS1 & -> & Hl1 & R1).
  simpl.
  match goal with
  | |- context [BlinkInit t2 _ _ ?G] =>
      destruct (BlinkInit_spec t2 (Sketch.S2 st) G) as (pS2 & -> & Hl2 & R2)
  end.
  simpl.
  match goal with
  | |- context [BlinkInit t3 _ _ ?G] =>
      destruct (BlinkInit_spec t3 (Sketch.S3 st) G) as (pS3 & -> & Hl3 & R3)
  end.
  simpl. intros H. injection H as <-. simpl.
  repeat split; auto. rewrite !live_deletes. simpl. lia.
Qed.

(** [loop] keeps the strip coherent with the LED array. *)
Lemma loop_coherent (i : Sketch.loop_in) (st st' : Sketch.state) :
  Sketch.coherent st ->
  Sketch.loop i st = Some st' ->
  Sketch.coherent st'.
Proof.
  intros Hc. unfold Sketch.loop.
  destruct (Sketch.loop_switch i st) as [st1|] eqn:E1; [|discriminate].
  simpl.
  assert (Hc1 : Sketch.coherent st1).
  { unfold Sketch.loop_switch, Sketch.switchState in E1.
    destruct (negb (Sketch.bLastHigh st) && Sketch.pin i).
    - destruct (Sketch.init_ms i) as [[t1 t2] t3].
      apply InitTables_inv in E1 as (_ & _ & _ & Hn & _).
      unfold Sketch.coherent. congruence.
    - injection E1 as <-. exact Hc. }
  destruct (show_if_needed_shown st1 Hc1) as [Hn Hs].
  set (st2 := Sketch.show_if_needed st1) in *.
  unfold Sketch.loop_run.
  assert (Hpass : forall pT pS G' pS',
            MultiBlink (Sketch.now i) (Sketch.envs i) pT pS (length pT)
                       (Sketch.glob st2) = Some (G', pS') ->
            needsUpdate G' = false ->
            head (Sketch.shown st2) = Some (leds G')).
  { intros pT pS G' pS' E Hn'. unfold MultiBlink in E.
    destruct (MultiBlink_loop_facts _ _ _ _ _ _ _ _ _ E)
      as (_ & _ & [-> | D] & _); [exact Hs|congruence]. }
  destruct (Sketch.nTable st2 =? 0).
  { destruct (MultiBlink _ _ Sketch.T1 _ _ _) as [[G' pS']|] eqn:E;
      [|discriminate].
    simpl. intros H. injection H as <-. unfold Sketch.coherent. simpl.
    by apply (Hpass _ _ _ _ E). }
  destruct (Sketch.nTable st2 =? 1).
  { destruct (MultiBlink _ _ Sketch.T2 _ _ _) as [[G' pS']|] eqn:E;
      [|discriminate].
    simpl. intros H. injection H as <-. unfold Sketch.coherent. simpl.
    by apply (Hpass _ _ _ _ E). }
  destruct (Sketch.nTable st2 =? 2).
  { destruct (MultiBlink _ _ Sketch.T3 _ _ _) as [[G' pS']|] eqn:E;
      [|discriminate].
    simpl. intros H. injection H as <-. unfold Sketch.coherent. simpl.
    by apply (Hpass _ _ _ _ E). }
  intros H. injection H as <-. unfold Sketch.coherent. simpl. auto.
Qed.

Lemma loop_run_inv i st st' :
  Sketch.loop_run i st = Some st' ->
  Sketch.bLastHigh st' = Sketch.bLastHigh st
  /\ Sketch.shown st' = Sketch.shown st
  /\ (0 <= Sketch.nTable st <= 2 -> Sketch.nTable st' = Sketch.nTable st)
  /\ (~ 0 <= Sketch.nTable st <= 2 ->
      st' = Sketch.mkState (Sketch.glob st) (Sketch.S1 st) (Sketch.S2 st)
              (Sketch.S3 st) 0 (Sketch.bLastHigh st) (Sketch.shown st))
  /\ (Sketch.nTable st <> 0 -> Sketch.S1 st' = Sketch.S1 st)
  /\ (Sketch.nTable st <> 1 -> Sketch.S2 st' = Sketch.S2 st)
  /\ (Sketch.nTable st <> 2 -> Sketch.S3 st' = Sketch.S3 st).
Proof.
  unfold Sketch.loop_run.
  destruct (Z.eqb_spec (Sketch.nTable st) 0).
  { destruct (MultiBlink _ _ _ _ _ _) as [[G' pS']|]; [|discriminate].
    simpl. intros H. injection H as <-. simpl. repeat split; auto; lia. }
  destruct (Z.eqb_spec (Sketch.nTable st) 1).
  { destruct (MultiBlink _ _ _ _ _ _) as [[G' pS']|]; [|discriminate].
    simpl. intros H. injection H as <-. simpl. repeat split; auto; lia. }
  destruct (Z.eqb_spec (Sketch.nTable st) 2).
  { destruct (MultiBlink _ _ _ _ _ _) as [[G' pS']|]; [|discriminate].
    simpl. intros H. injection H as <-. simpl. repeat split; auto; lia. }
  intros H. injection H as <-. simpl. repeat split; auto; lia.
Qed.

Lemma show_if_needed_fields st :
  Sketch.nTable (Sketch.show_if_needed st) = Sketch.nTable st
  /\ Sketch.bLastHigh (Sketch.show_if_needed st) = Sketch.bLastHigh st
  /\ Sketch.S1 (Sketch.show_if_needed st) = Sketch.S1 st
  /\ Sketch.S2 (Sketch.show_if_needed st) = Sketch.S2 st
  /\ Sketch.S3 (Sketch.show_if_needed st) = Sketch.S3 st
  /\ trace (Sketch.glob (Sketch.show_if_needed st)) = trace (Sketch.glob st)
  /\ leds (Sketch.glob (Sketch.show_if_needed st)) = leds (Sketch.glob st).
Proof.
  unfold Sketch.show_if_needed.
  by destruct (needsUpdate (Sketch.glob st)).
Qed.

Lemma LEDInit_loop_length (n : nat) : forall i G G',
  0 <= i -> Sketch.LEDInit_loop i n G = Some G' -> n <> O ->
  i + Z.of_nat n <= Z.of_nat (length (leds G)).
Proof.
  induction n as [|n IH]; intros i G G' Hi H Hn0; [done|].
  cbn [Sketch.LEDInit_loop] in H.
  destruct (led_store i _ G) as [G1|] eqn:Hst; [|discriminate]. simpl in H.
  apply led_store_inv in Hst as (l & Hz & ->).
  destruct (zset_inv _ _ _ _ Hz) as (Hlen & Hg & _).
  apply zget_Some_range in Hg.
  destruct n as [|n']; [lia|].
  apply IH in H; [|lia|done]. cbn [leds] in H. lia.
Qed.

(** Where [InitTables] is defined it leaves every LED black. *)
Lemma InitTables_black t1 t2 t3 st st' :
  Sketch.InitTables t1 t2 t3 st = Some st' ->
  Sketch.all_black (Sketch.glob st').
Proof.
  unfold Sketch.InitTables, Sketch.LEDInit.
  destruct (Sketch.LEDInit_loop 0 _ (Sketch.glob st)) as [G0|] eqn:E0;
    [|discriminate].
  assert (Hlen : 0 + Z.of_nat (Z.to_nat NUM_LEDS)
                 <= Z.of_nat (length (leds (Sketch.glob st)))).
  { apply (LEDInit_loop_length _ 0 _ _ (Z.le_refl 0) E0).
    unfold NUM_LEDS. lia. }
  destruct (LEDInit_loop_spec (Z.to_nat NUM_LEDS) 0 (Sketch.glob st)
              ltac:(lia) Hlen) as (G1 & E1 & _ & _ & _ & B & _).
  rewrite E0 in E1. injection E1 as <-. simpl.
  destruct (BlinkInit_spec t1 (Sketch.S1 st) (set_needsUpdate G0))
    as (pS1 & -> & _).
  simpl.
  match goal with
  | |- context [BlinkInit t2 _ _ ?G] =>
      destruct (BlinkInit_spec t2 (Sketch.S2 st) G) as (pS2 & -> & _)
  end.
  simpl.
  match goal with
  | |- context [BlinkInit t3 _ _ ?G] =>
      destruct (BlinkInit_spec t3 (Sketch.S3 st) G) as (pS3 & -> & _)
  end.
  simpl. intros H. injection H as <-. intros j Hj. simpl. apply B.
  unfold NUM_LEDS in *. lia.
Qed.

(** The frames shown up to the end of a call of [loop] are those shown up
    to its call of [FastLED.show()]. *)
Lemma loop_shown i st st' :
  Sketch.loop i st = Some st' ->
  exists st1,
    Sketch.loop_switch i st = Some st1
    /\ Sketch.shown st' = Sketch.shown (Sketch.show_if_needed st1).
Proof.
  unfold Sketch.loop.
  destruct (Sketch.loop_switch i st) as [st1|]; [|discriminate].
  simpl. intros H. exists st1. split; [done|].
  by destruct (loop_run_inv _ _ _ H) as (_ & -> & _).
Qed.

(** X11. [loop] keeps the strip coherent with the LED array: if, before a
    call, [needsUpdate] is set or the last frame shown is the LED array,
    the same holds after it.  What a call shows depends on the switch.  A
    call that sees no rising edge shows the LED array as it stands on
    entry when [needsUpdate] is set, and nothing when it is not: a colour
    stored by a pass is shown by such a next call.  A call that sees a
    rising edge shows one frame, all black: [InitTables] clears the array
    before [FastLED.show()], so colours stored but not yet shown are never
    shown. *)
Theorem loop_keeps_strip_coherent (i : Sketch.loop_in)
    (st st' : Sketch.state) :
  Sketch.coherent st ->
  Sketch.loop i st = Some st' ->
  Sketch.coherent st'
  /\ (negb (Sketch.bLastHigh st) && Sketch.pin i = false ->
      Sketch.shown st'
      = if needsUpdate (Sketch.glob st)
        then leds (Sketch.glob st) :: Sketch.shown st
        else Sketch.shown st)
  /\ (negb (Sketch.bLastHigh st) && Sketch.pin i = true ->
      exists frame,
        Sketch.shown st' = frame :: Sketch.shown st
        /\ forall j, 0 <= j < NUM_LEDS ->
             zget frame j = Some (FastLED.of_code FastLED.Black)).
Proof.
  intros Hc Hloop. split; [by apply (loop_coherent i st)|].
  destruct (loop_shown _ _ _ Hloop) as (st1 & E1 & ->).
  unfold Sketch.loop_switch, Sketch.switchState in E1.
  destruct (negb (Sketch.bLastHigh st) && Sketch.pin i).
  - split; [discriminate|]. intros _.
    destruct (Sketch.init_ms i) as [[t1 t2] t3].
    pose proof (InitTables_black _ _ _ _ _ E1) as Hb.
    apply InitTables_inv in E1 as (_ & _ & Hs & Hn & _). cbn [Sketch.shown] in Hs.
    exists (leds (Sketch.glob st1)). split; [|exact Hb].
    unfold Sketch.show_if_needed. rewrite Hn. cbn [Sketch.shown].
    by rewrite Hs.
  - split; [|discriminate]. intros _. injection E1 as <-.
    unfold Sketch.show_if_needed. cbn [Sketch.glob].
    by destruct (needsUpdate (Sketch.glob st)).
Qed.

Lemma loop_keeps_strip_coherent_witness :
  let st := Sketch.mkState
              (mkGlobals (replicate 8 (FastLED.of_code FastLED.Blue)) true [])
              (replicate 8 (mkScratchpad true 0 0 None 0))
              (replicate 6 (mkScratchpad true 0 0 None 0))
              (replicate 8 (mkScratchpad true 0 0 None 0)) 0 false [] in
  exists st',
    Sketch.loop (loop_at true 5) st = Some st'
    /\ Sketch.coherent st'
    /\ Sketch.shown st' = [replicate 8 (FastLED.of_code FastLED.Black)].
Proof.
  intros st. eexists. split; [vm_compute; reflexivity|]. split.
  - refine (proj1 (loop_keeps_strip_coherent (loop_at true 5) st _ _ _));
      [intros H; discriminate H | vm_compute; reflexivity].
  - vm_compute. reflexivity.
Defined.

(** X12. [loop] changes table on a rising edge of the switch and at no
    other time: with [nTable] one of 0, 1, 2, a call that reads the
    switch high after a low reading leaves [nTable] at the next table,
    2 being followed by 0, and any other call leaves [nTable] as it is and
    touches the scratchpads of the selected table only. *)
Theorem loop_changes_table_on_rising_edge (i : Sketch.loop_in)
    (st st' : Sketch.state) :
  0 <= Sketch.nTable st <= 2 ->
  Sketch.loop i st = Some st' ->
  Sketch.bLastHigh st' = Sketch.pin i
  /\ (negb (Sketch.bLastHigh st) && Sketch.pin i = true ->
      Sketch.nTable st' = (Sketch.nTable st + 1) mod 3)
  /\ (negb (Sketch.bLastHigh st) && Sketch.pin i = false ->
      Sketch.nTable st' = Sketch.nTable st
      /\ (Sketch.nTable st <> 0 -> Sketch.S1 st' = Sketch.S1 st)
      /\ (Sketch.nTable st <> 1 -> Sketch.S2 st' = Sketch.S2 st)
      /\ (Sketch.nTable st <> 2 -> Sketch.S3 st' = Sketch.S3 st)).
Proof.
  intros Hn. unfold Sketch.loop.
  destruct (Sketch.loop_switch i st) as [st1|] eqn:E1; [|discriminate].
  simpl. intros E2.
  destruct (loop_run_inv _ _ _ E2) as (Hb & _ & Hin & Hout & H1 & H2 & H3).
  destruct (show_if_needed_fields st1) as (Fn & Fb & F1 & F2 & F3 & _).
  rewrite Fn, Fb, ?F1, ?F2, ?F3 in *.
  unfold Sketch.loop_switch, Sketch.switchState in E1.
  destruct (negb (Sketch.bLastHigh st) && Sketch.pin i).
  - destruct (Sketch.init_ms i) as [[t1 t2] t3].
    apply InitTables_inv in E1 as (En & Eb & _). simpl in En, Eb.
    rewrite to_uint8_id in En by (unfold is_uint8; lia).
    split; [congruence|]. split; [|discriminate]. intros _.
    destruct (Z.eq_dec (Sketch.nTable st) 2) as [H|H].
    + rewrite Hout by lia. simpl. by rewrite H.
    + rewrite Hin by lia. rewrite En. symmetry. apply Z.mod_small. lia.
  - injection E1 as <-. simpl in *.
    split; [exact Hb|]. split; [discriminate|]. intros _.
    rewrite Hin by lia. auto.
Qed.

Lemma loop_changes_table_on_rising_edge_witness :
  let st := Sketch.mkState
              (mkGlobals (replicate 8 (FastLED.of_code FastLED.Black)) true [])
              (replicate 8 (mkScratchpad true 0 0 None 0))
              (replicate 6 (mkScratchpad true 0 0 None 0))
              (replicate 8 (mkScratchpad true 0 0 None 0)) 1 false [] in
  exists st',
    Sketch.loop (loop_at true 9) st = Some st' /\ Sketch.nTable st' = 2.
Proof.
  intros st. eexists. split; [vm_compute; reflexivity|].
  refine (proj1 (proj2 (loop_changes_table_on_rising_edge (loop_at true 9)
                          st _ _ _)) _);
    [simpl; lia | vm_compute; reflexivity | reflexivity].
Defined.

(** X13. The call of [loop] that takes [nTable] from 2 round to 0 runs no
    table at all: it resets every scratchpad of the three tables, shows
    an all-black strip, and returns with [needsUpdate] clear and each
    scratchpad exactly as [BlinkInit] left it; the first pass over table
    [T1] is made by the next call. *)
Theorem loop_wrap_runs_no_table (i : Sketch.loop_in) (st : Sketch.state)
    (t1 t2 t3 : Z) :
  length (leds (Sketch.glob st)) = Z.to_nat NUM_LEDS ->
  Sketch.nTable st = 2 ->
  Sketch.bLastHigh st = false ->
  Sketch.pin i = true ->
  Sketch.init_ms i = (t1, t2, t3) ->
  exists G' pS1 pS2 pS3,
    Sketch.loop i st =
      Some (Sketch.mkState G' pS1 pS2 pS3 0 true (leds G' :: Sketch.shown st))
    /\ Sketch.all_black G'
    /\ needsUpdate G' = false
    /\ Forall (is_reset t1) pS1
    /\ Forall (is_reset t2) pS2
    /\ Forall (is_reset t3) pS3.
Proof.
  intros Hlen Hn Hlast Hpin Hms. unfold Sketch.loop, Sketch.loop_switch.
  unfold Sketch.switchState. rewrite Hlast, Hpin, Hms, Hn. simpl negb.
  cbv iota.
  destruct (InitTables_spec t1 t2 t3
              (Sketch.mkState (Sketch.glob st) (Sketch.S1 st) (Sketch.S2 st)
                 (Sketch.S3 st) (to_uint8 (2 + 1)) true (Sketch.shown st)) Hlen)
    as (G' & pS1 & pS2 & pS3 & E & L' & N & B & _ & _ & R1 & _ & R2 & _ & R3).
  simpl in E. unfold andb. rewrite E. simpl.
  unfold Sketch.show_if_needed. simpl. rewrite N.
  exists (mkGlobals (leds G') false (trace G')), pS1, pS2, pS3.
  split; [reflexivity|]. simpl. repeat split; auto.
Qed.

Lemma loop_wrap_runs_no_table_witness :
  let st := Sketch.mkState
              (mkGlobals (replicate 8 (FastLED.of_code FastLED.Yellow)) false [])
              (replicate 8 (mkScratchpad true 1 0 None 0))
              (replicate 6 (mkScratchpad true 1 0 None 0))
              (replicate 8 (mkScratchpad true 2 0 None 0)) 2 false [] in
  exists G' pS1 pS2 pS3,
    Sketch.loop (loop_at true 77) st =
      Some (Sketch.mkState G' pS1 pS2 pS3 0 true (leds G' :: Sketch.shown st))
    /\ Sketch.all_black G'
    /\ needsUpdate G' = false
    /\ Forall (is_reset 77) pS1
    /\ Forall (is_reset 77) pS2
    /\ Forall (is_reset 77) pS3.
Proof.
  intros st.
  apply (loop_wrap_runs_no_table (loop_at true 77) st 77 77 77); reflexivity.
Defined.

(** X14. [loop] keeps the fade objects balanced across passes and table
    changes: if every object alive is owned by a scratchpad before the
    call, the same holds after it.  A change of table deletes the objects
    of all three tables, those of the tables not running included. *)
Theorem loop_keeps_fade_objects_balanced (i : Sketch.loop_in)
    (st st' : Sketch.state) :
  Sketch.balanced st ->
  Sketch.loop i st = Some st' ->
  Sketch.balanced st'.
Proof.
  intros Hb. unfold Sketch.loop.
  destruct (Sketch.loop_switch i st) as [st1|] eqn:E1; [|discriminate].
  simpl.
  assert (Hb1 : Sketch.balanced st1).
  { unfold Sketch.loop_switch, Sketch.switchState in E1.
    destruct (negb (Sketch.bLastHigh st) && Sketch.pin i).
    - destruct (Sketch.init_ms i) as [[t1 t2] t3].
      apply InitTables_inv in E1 as (_ & _ & _ & _ & Hl & R1 & R2 & R3).
      unfold Sketch.balanced in *. simpl in Hl.
      rewrite (is_reset_owned _ _ R1), (is_reset_owned _ _ R2),
              (is_reset_owned _ _ R3).
      lia.
    - injection E1 as <-. exact Hb. }
  destruct (show_if_needed_fields st1) as (_ & _ & F1 & F2 & F3 & Ft & _).
  set (st2 := Sketch.show_if_needed st1) in *.
  assert (Hb2 : Sketch.balanced st2)
    by (unfold Sketch.balanced in *; rewrite F1, F2, F3, Ft; exact Hb1).
  clearbody st2. clear -Hb2. unfold Sketch.loop_run, Sketch.balanced in *.
  destruct (Sketch.nTable st2 =? 0).
  { destruct (MultiBlink _ _ _ _ _ _) as [[G' pS']|] eqn:E; [|discriminate].
    simpl. intros H. injection H as <-. simpl. unfold MultiBlink in E.
    destruct (MultiBlink_loop_facts _ _ _ _ _ _ _ _ _ E) as (_ & _ & _ & _ & B).
    lia. }
  destruct (Sketch.nTable st2 =? 1).
  { destruct (MultiBlink _ _ _ _ _ _) as [[G' pS']|] eqn:E; [|discriminate].
    simpl. intros H. injection H as <-. simpl. unfold MultiBlink in E.
    destruct (MultiBlink_loop_facts _ _ _ _ _ _ _ _ _ E) as (_ & _ & _ & _ & B).
    lia. }
  destruct (Sketch.nTable st2 =? 2).
  { destruct (MultiBlink _ _ _ _ _ _) as [[G' pS']|] eqn:E; [|discriminate].
    simpl. intros H. injection H as <-. simpl. unfold MultiBlink in E.
    destruct (MultiBlink_loop_facts _ _ _ _ _ _ _ _ _ E) as (_ & _ & _ & _ & B).
    lia. }
  intros H. injection H as <-. simpl. exact Hb2.
Qed.

Lemma loop_keeps_fade_objects_balanced_witness :
  let st := Sketch.mkState
              (mkGlobals (replicate 8 (FastLED.of_code FastLED.Black)) true [])
              (replicate 8 (mkScratchpad true 0 0 None 0))
              (replicate 6 (mkScratchpad true 0 0 None 0))
              (replicate 8 (mkScratchpad true 0 0 None 0)) 1 true [] in
  exists st',
    Sketch.loop (loop_at true 5) st = Some st'
    /\ Sketch.balanced st'
    /\ owned_count (Sketch.S2 st') = 2%nat.
Proof.
  intros st. eexists. split; [vm_compute; reflexivity|].
  split; [|vm_compute; reflexivity].
  apply (loop_keeps_fade_objects_balanced (loop_at true 5) st);
    [reflexivity | vm_compute; reflexivity].
Defined.

(** X15. [InitTables] on an LED array of [NUM_LEDS] LEDs is defined and
    resets the whole sketch: every LED is black, [needsUpdate] is set,
    every scratchpad of each of the three tables is in the reset state
    with the clock value its own [BlinkInit] read, no scratchpad owns a
    fade object any more (each one owned was deleted), and the table
    selected, the switch state and the frames shown are not touched. *)
Theorem InitTables_resets_everything (t1 t2 t3 : Z) (st : Sketch.state) :
  length (leds (Sketch.glob st)) = Z.to_nat NUM_LEDS ->
  exists st',
    Sketch.InitTables t1 t2 t3 st = Some st'
    /\ Sketch.all_black (Sketch.glob st')
    /\ needsUpdate (Sketch.glob st') = true
    /\ Forall (is_reset t1) (Sketch.S1 st')
    /\ Forall (is_reset t2) (Sketch.S2 st')
    /\ Forall (is_reset t3) (Sketch.S3 st')
    /\ length (Sketch.S1 st') = length (Sketch.S1 st)
    /\ length (Sketch.S2 st') = length (Sketch.S2 st)
    /\ length (Sketch.S3 st') = length (Sketch.S3 st)
    /\ live (trace (Sketch.glob st'))
       = live (trace (Sketch.glob st))
         - Z.of_nat (owned_count (Sketch.S1 st))
         - Z.of_nat (owned_count (Sketch.S2 st))
         - Z.of_nat (owned_count (Sketch.S3 st))
    /\ Sketch.nTable st' = Sketch.nTable st
    /\ Sketch.bLastHigh st' = Sketch.bLastHigh st
    /\ Sketch.shown st' = Sketch.shown st.
Proof.
  intros Hlen.
  destruct (InitTables_spec t1 t2 t3 st Hlen)
    as (G' & pS1 & pS2 & pS3 & E & L' & N & B & Lv & Hl1 & R1 & Hl2 & R2
        & Hl3 & R3).
  eexists. split; [exact E|]. simpl. repeat split; auto.
Qed.

Lemma InitTables_resets_everything_witness :
  exists st',
    Sketch.InitTables 3 4 5 Sketch.power_on = Some st'
    /\ Sketch.all_black (Sketch.glob st')
    /\ needsUpdate (Sketch.glob st') = true
    /\ Forall (is_reset 3) (Sketch.S1 st')
    /\ Forall (is_reset 4) (Sketch.S2 st')
    /\ Forall (is_reset 5) (Sketch.S3 st').
Proof.
  destruct (InitTables_resets_everything 3 4 5 Sketch.power_on eq_refl)
    as (st' & E & B & N & R1 & R2 & R3 & _).
  exists st'. auto 10.
Defined.

(** ** More on single states *)

Lemma sub32_add32 w d :
  is_uint32 w -> 0 <= d < 4294967296 -> sub32 (add32 w d) w = d.
Proof.
  unfold is_uint32, sub32, add32, to_uint32. intros Hw Hd.
  rewrite Zminus_mod_idemp_l. replace (w + d - w) with d by lia.
  apply Z.mod_small. lia.
Qed.

(** X16. A [MB_GOTO] state with a valid target waits and then jumps, and
    its timer survives the roll-over of [millis()]: at a pass made [d]
    milliseconds (below 2^32) after the last wake-up, as read off the
    32-bit clock, the entry is left untouched while [d] is less than the
    active time, and from then on jumps to the target with the wake-up
    time moved on by the active time; the globals are never touched. *)
Theorem GOTO_jumps_when_its_time_has_passed (now d : Z) (env : tick_env)
    (T : sequence_t) (G : globals) (S : scratchpad_t) (ins : stateDef_t) :
  enabled S = true ->
  zget (state T) (currentState S) = Some ins ->
  stateID ins = MB_GOTO ->
  MAX_STATE_range (data1 ins) ->
  is_uint32 (lastWakeup S) ->
  0 <= d < 4294967296 ->
  now = add32 (lastWakeup S) d ->
  MultiBlink_entry now env T G S =
    Some (G, if activeTime ins <=? d
             then mkScratchpad true (data1 ins)
                               (add32 (lastWakeup S) (activeTime ins))
                               (nf S) (counter S)
             else S).
Proof.
  intros He Hi Hid Hj Hw Hd ->.
  destruct (Z.leb_spec (activeTime ins) d) as [Hx|Hx].
  - destruct (GOTO_in_bounds (add32 (lastWakeup S) d) env T G S ins He Hi Hid)
      as [-> _].
    + unfold expired. by rewrite sub32_add32.
    + unfold MAX_STATE_range, MAX_STATE in Hj. lia.
    + rewrite He, Z.mod_small by exact Hj. reflexivity.
  - rewrite (MultiBlink_entry_enabled _ _ _ _ _ _ He Hi).
    rewrite dispatch_GOTO by done.
    rewrite expired_false by (unfold expired; rewrite sub32_add32 by done; lia).
    reflexivity.
Qed.

Lemma GOTO_jumps_when_its_time_has_passed_witness :
  let T := mkSequence 0 [GOTO 1400 1; FADE 800 FastLED.Yellow FastLED.Black;
                         GOTO 0 0; NOP; NOP] in
  let G := mkGlobals (replicate 8 (FastLED.of_code FastLED.Black)) false [] in
  let S := mkScratchpad true 0 4294967000 None 0 in
  MultiBlink_entry 1104 (mkEnv 1104 true) T G S
  = Some (G, mkScratchpad true 1 1104 None 0).
Proof.
  intros T G S.
  refine (GOTO_jumps_when_its_time_has_passed 1104 1400 (mkEnv 1104 true) T G S
            (GOTO 1400 1) _ _ _ _ _ _ _); try reflexivity;
    unfold MAX_STATE_range, MAX_STATE, is_uint32; simpl; lia.
Defined.

(** X17. The pass that finds the time of a [MB_SET] state expired makes
    sure the LED holds the colour of the state (storing it, with
    [needsUpdate] set, only if it holds another one) and moves the entry
    to the next state, the wake-up time moving on by the active time. *)
Theorem SET_expired_stores_and_advances (now : Z) (env : tick_env)
    (T : sequence_t) (G : globals) (S : scratchpad_t) (ins : stateDef_t)
    (old : CRGB) :
  enabled S = true ->
  is_uint8 (currentState S) ->
  zget (state T) (currentState S) = Some ins ->
  stateID ins = MB_SET ->
  zget (leds G) (ledId T) = Some old ->
  expired now S ins ->
  exists G',
    MultiBlink_entry now env T G S =
      Some (G', mkScratchpad true ((currentState S + 1) mod MAX_STATE)
                             (add32 (lastWakeup S) (activeTime ins))
                             (nf S) (counter S))
    /\ zget (leds G') (ledId T) = Some (FastLED.of_code (data1 ins))
    /\ (old = FastLED.of_code (data1 ins) -> G' = G)
    /\ (old <> FastLED.of_code (data1 ins) ->
        needsUpdate G' = true
        /\ trace G' = EvWrite (ledId T) (FastLED.of_code (data1 ins)) :: trace G).
Proof.
  intros He Hcs Hi Hid Hold Hx.
  rewrite (MultiBlink_entry_enabled _ _ _ _ _ _ He Hi).
  rewrite dispatch_SET, expired_true by done.
  destruct (decide (old = FastLED.of_code (data1 ins))) as [->|Hne].
  - rewrite bool_decide_eq_true_2 by done. simpl.
    rewrite transition_sequential by done. rewrite He.
    exists G. repeat split; auto; done.
  - rewrite bool_decide_eq_false_2 by (rewrite Hold; congruence).
    rewrite Hold.
    destruct (led_store_Some (ledId T) (FastLED.of_code (data1 ins)) G old Hold)
      as (l & -> & Hl & _).
    simpl. rewrite transition_sequential by done. rewrite He.
    eexists. split; [reflexivity|]. simpl. repeat split; auto; done.
Qed.

Lemma SET_expired_stores_and_advances_witness :
  let T := mkSequence 6 [SET 1000 FastLED.Black; SET 1000 FastLED.Red;
                         NOP; NOP; NOP] in
  let G := mkGlobals (replicate 8 (FastLED.of_code FastLED.Black)) false [] in
  let S := mkScratchpad true 1 1000 None 0 in
  exists G',
    MultiBlink_entry 2003 (mkEnv 2003 true) T G S
      = Some (G', mkScratchpad true 2 2000 None 0)
    /\ zget (leds G') 6 = Some (FastLED.of_code FastLED.Red).
Proof.
  intros T G S.
  destruct (SET_expired_stores_and_advances 2003 (mkEnv 2003 true) T G S
              (SET 1000 FastLED.Red) (FastLED.of_code FastLED.Black))
    as (G' & E & Hl & _); try reflexivity.
  - unfold is_uint8. simpl. lia.
  - unfold expired. vm_compute. discriminate.
  - exists G'. split; [exact E|exact Hl].
Defined.

Lemma FADE_no_memory_pass now env T G S ins old :
  enabled S = true ->
  zget (state T) (currentState S) = Some ins ->
  stateID ins = MB_FADE ->
  ~ expired now S ins ->
  nf S = None -> alloc_ok env = false ->
  zget (leds G) (ledId T) = Some old ->
  exists l,
    MultiBlink_entry now env T G S =
      Some (mkGlobals l true
              (EvWrite (ledId T) (FastLED.of_code (data1 ins)) :: trace G), S)
    /\ zget l (ledId T) = Some (FastLED.of_code (data1 ins)).
Proof.
  intros He Hi Hid Hx Hnf Ha Hold.
  rewrite (MultiBlink_entry_enabled _ _ _ _ _ _ He Hi).
  rewrite dispatch_FADE, expired_false by done. rewrite Hnf, Ha.
  destruct (led_store_Some (ledId T) (FastLED.of_code (data1 ins)) G old Hold)
    as (l & -> & Hl & _).
  simpl. exists l. split; [|exact Hl].
  destruct S as [en cs w p c]. simpl in *. subst p. reflexivity.
Qed.

(** X18. When [new] finds no memory for the fade object, the fade does
    not start and is tried again at every pass: each pass before the
    expiry stores the start colour once more and sets [needsUpdate], makes
    no object, and leaves the scratchpad exactly as it is, whatever the
    two colours are. *)
Theorem FADE_without_memory_retries (T : sequence_t) (G : globals)
    (S : scratchpad_t) (ins : stateDef_t) (ticks : list (Z * tick_env)) :
  enabled S = true ->
  zget (state T) (currentState S) = Some ins ->
  stateID ins = MB_FADE ->
  nf S = None ->
  is_Some (zget (leds G) (ledId T)) ->
  Forall (fun tk => ~ expired (fst tk) S ins /\ alloc_ok (snd tk) = false)
         ticks ->
  exists G',
    run_entry T ticks G S = Some (G', S)
    /\ trace G' = replicate (length ticks)
                    (EvWrite (ledId T) (FastLED.of_code (data1 ins)))
                  ++ trace G
    /\ (ticks <> [] ->
        needsUpdate G' = true
        /\ zget (leds G') (ledId T) = Some (FastLED.of_code (data1 ins))).
Proof.
  intros He Hi Hid Hnf Hl Hall. revert G Hl.
  induction Hall as [|[now env] rest [Hx Ha] _ IH]; intros G Hl.
  - exists G. simpl. repeat split; auto. done.
  - destruct Hl as [old Hold]. simpl in Hx, Ha.
    destruct (FADE_no_memory_pass now env T G S ins old He Hi Hid Hx Hnf Ha Hold)
      as (l & E & Hl1).
    destruct (IH (mkGlobals l true
                    (EvWrite (ledId T) (FastLED.of_code (data1 ins)) :: trace G)))
      as (G' & E' & Htr & Hne); [simpl; eauto|].
    exists G'. simpl. rewrite E. simpl. split; [exact E'|].
    split.
    + rewrite Htr. simpl. by rewrite replicate_app_cons.
    + intros _. destruct rest as [|tk rest'].
      * simpl in E'. injection E' as <-. simpl. auto.
      * apply Hne. discriminate.
Qed.

Lemma FADE_without_memory_retries_witness :
  let T := mkSequence 4 [FADE 1400 FastLED.Black FastLED.Beige;
                         SET 100 FastLED.Beige;
                         FADE 1400 FastLED.Beige FastLED.Black; NOP; NOP] in
  let G := mkGlobals (replicate 8 (FastLED.of_code FastLED.Red)) false [] in
  let S := mkScratchpad true 0 0 None 0 in
  exists G',
    run_entry T [(1, mkEnv 1 false); (2, mkEnv 2 false); (3, mkEnv 3 false)] G S
      = Some (G', S)
    /\ trace G' = replicate 3 (EvWrite 4 (FastLED.of_code FastLED.Black)).
Proof.
  intros T G S.
  destruct (FADE_without_memory_retries T G S
              (FADE 1400 FastLED.Black FastLED.Beige)
              [(1, mkEnv 1 false); (2, mkEnv 2 false); (3, mkEnv 3 false)])
    as (G' & E & Htr & _); try reflexivity.
  - eexists. reflexivity.
  - repeat constructor; simpl; unfold expired; vm_compute; intros H; by apply H.
  - exists G'. split; [exact E|exact Htr].
Defined.

(** ** The first sketch *)

Lemma Blink1_next_state cs :
  0 <= cs < Blink1.MAX_STATE ->
  to_uint8 ((cs + 1) mod Blink1.MAX_STATE) = 1 - cs.
Proof.
  unfold Blink1.MAX_STATE. intros H.
  assert (cs = 0 \/ cs = 1) as [-> | ->] by lia; reflexivity.
Qed.

Lemma Blink1_entry_ok_get e cs :
  length (Blink1.state e) = 2%nat -> 0 <= cs < Blink1.MAX_STATE ->
  is_Some (zget (Blink1.state e) cs).
Proof.
  intros Hl Hcs. apply zget_in_range. rewrite Hl.
  unfold Blink1.MAX_STATE in Hcs. lia.
Qed.

Lemma Blink1_loop_entry_inv m1 m2 e pins :
  Blink1.entry_ok e ->
  exists e' pins',
    Blink1.loop_entry m1 m2 e pins = Some (e', pins')
    /\ Blink1.entry_ok e'
    /\ Blink1.ledPin e' = Blink1.ledPin e
    /\ (forall p, p <> Blink1.ledPin e -> pins' p = pins p)
    /\ (Blink1.shows pins e -> Blink1.shows pins' e').
Proof.
  intros [Hl Hcs]. unfold Blink1.loop_entry.
  destruct (Blink1_entry_ok_get e _ Hl Hcs) as [st Hst]. rewrite Hst. simpl.
  destruct (_ >=? _).
  - rewrite Blink1_next_state by done.
    destruct (Blink1_entry_ok_get e (1 - Blink1.currentState e) Hl)
      as [st' Hst']; [unfold Blink1.MAX_STATE in *; lia|].
    rewrite Hst'. simpl. eexists _, _. split; [reflexivity|].
    split; [split; simpl; [done|unfold Blink1.MAX_STATE in *; lia]|].
    split; [reflexivity|]. split.
    + intros p Hp. unfold Blink1.digitalWrite.
      destruct (Z.eqb_spec p (Blink1.ledPin e)); [done|reflexivity].
    + intros _. exists st'. simpl. split; [exact Hst'|].
      unfold Blink1.digitalWrite. by rewrite Z.eqb_refl.
  - eexists _, _. split; [reflexivity|]. split; [by split|].
    split; [reflexivity|]. split; auto.
Qed.

Lemma Blink1_shows_frame pins pins' e :
  pins' (Blink1.ledPin e) = pins (Blink1.ledPin e) ->
  Blink1.shows pins e -> Blink1.shows pins' e.
Proof. intros Hp (st & Hst & Hv). exists st. split; [done|congruence]. Qed.

Lemma Blink1_loop_from_inv clk tab : forall i pins,
  NoDup (map Blink1.ledPin tab) ->
  Forall Blink1.entry_ok tab ->
  Forall (Blink1.shows pins) tab ->
  exists tab' pins',
    Blink1.loop_from clk i tab pins = Some (tab', pins')
    /\ Forall Blink1.entry_ok tab'
    /\ map Blink1.ledPin tab' = map Blink1.ledPin tab
    /\ (forall p, p ∉ map Blink1.ledPin tab -> pins' p = pins p)
    /\ Forall (Blink1.shows pins') tab'.
Proof.
  induction tab as [|e rest IH]; intros i pins Hnd Hok Hsh.
  - exists [], pins. simpl. repeat split; auto.
  - inversion Hnd as [|? ? Hnotin Hnd']; subst.
    inversion Hok as [|? ? Hok1 Hokr]; subst.
    inversion Hsh as [|? ? Hsh1 Hshr]; subst.
    destruct (Blink1_loop_entry_inv (fst (clk i)) (snd (clk i)) e pins Hok1)
      as (e1 & pins1 & E1 & Hok1' & Hpin & Hfr1 & Hs1).
    assert (Hshr1 : Forall (Blink1.shows pins1) rest).
    { rewrite Forall_forall in Hshr |- *. intros x Hx.
      apply (Blink1_shows_frame pins); [|by apply Hshr].
      apply Hfr1. intros Heq. apply Hnotin. rewrite <- Heq.
      by apply list_elem_of_fmap_2. }
    destruct (IH (S i) pins1 Hnd' Hokr Hshr1)
      as (rest1 & pins2 & E2 & Hokr' & Hmap & Hfr2 & Hs2).
    exists (e1 :: rest1), pins2. simpl. rewrite E1. simpl. rewrite E2. simpl.
    split; [reflexivity|]. split; [by constructor|].
    split; [by rewrite Hpin, Hmap|]. split.
    + intros p Hp. rewrite Hfr2, Hfr1; [reflexivity| |].
      * intros ->. apply Hp. left.
      * intros Hin. apply Hp. by right.
    + constructor; [|exact Hs2].
      apply (Blink1_shows_frame pins1); [|by apply Hs1].
      apply Hfr2. by rewrite Hpin.
Qed.

Lemma Blink1_setup_from_inv clk tab : forall i pins,
  NoDup (map Blink1.ledPin tab) ->
  Forall Blink1.entry_ok tab ->
  exists tab' pins',
    Blink1.setup_from clk i tab pins = Some (tab', pins')
    /\ Forall Blink1.entry_ok tab'
    /\ map Blink1.ledPin tab' = map Blink1.ledPin tab
    /\ (forall p, p ∉ map Blink1.ledPin tab -> pins' p = pins p)
    /\ Forall (Blink1.shows pins') tab'.
Proof.
  induction tab as [|e rest IH]; intros i pins Hnd Hok.
  - exists [], pins. simpl. repeat split; auto.
  - inversion Hnd as [|? ? Hnotin Hnd']; subst.
    inversion Hok as [|? ? [Hl Hcs] Hokr]; subst.
    destruct (Blink1_entry_ok_get e _ Hl Hcs) as [st Hst].
    destruct (IH (S i) (Blink1.digitalWrite (Blink1.ledPin e)
                          (Blink1.activeVal st) pins) Hnd' Hokr)
      as (rest1 & pins2 & E2 & Hokr' & Hmap & Hfr2 & Hs2).
    eexists (_ :: rest1), pins2. simpl. unfold Blink1.setup_entry.
    rewrite Hst. simpl. rewrite E2. simpl.
    split; [reflexivity|]. split; [constructor; [by split|done]|].
    split; [simpl; by rewrite Hmap|]. split.
    + intros p Hp. rewrite Hfr2 by (intros Hin; apply Hp; by right).
      unfold Blink1.digitalWrite.
      destruct (Z.eqb_spec p (Blink1.ledPin e)) as [->|]; [|reflexivity].
      exfalso. apply Hp. left.
    + constructor; [|exact Hs2]. exists st. simpl. split; [exact Hst|].
      rewrite Hfr2 by done. unfold Blink1.digitalWrite.
      by rewrite Z.eqb_refl.
Qed.

(** X19. In the first sketch every output pin is at the level of the
    state its entry is in: for a table of two-state entries on different
    pins, [setup] is defined and leaves each pin at the level of the
    entry's current state, and [loop] is defined and keeps it so, keeps
    every state index at 0 or 1 and touches no pin outside the table. *)
Theorem Blink1_pins_show_the_states (tab : list Blink1.ledTable)
    (pins : Z -> Z) (clk0 : nat -> Z) (clk : nat -> Z * Z) :
  NoDup (map Blink1.ledPin tab) ->
  Forall Blink1.entry_ok tab ->
  exists tab0 pins0 tab1 pins1,
    Blink1.setup clk0 tab pins = Some (tab0, pins0)
    /\ Forall (Blink1.shows pins0) tab0
    /\ Blink1.loop clk tab0 pins0 = Some (tab1, pins1)
    /\ Forall Blink1.entry_ok tab1
    /\ Forall (Blink1.shows pins1) tab1
    /\ (forall p, p ∉ map Blink1.ledPin tab -> pins1 p = pins p).
Proof.
  intros Hnd Hok.
  destruct (Blink1_setup_from_inv clk0 tab 0 pins Hnd Hok)
    as (tab0 & pins0 & E0 & Hok0 & Hmap0 & Hfr0 & Hs0).
  destruct (Blink1_loop_from_inv clk tab0 0 pins0) as
    (tab1 & pins1 & E1 & Hok1 & Hmap1 & Hfr1 & Hs1);
    [by rewrite Hmap0|done|done|].
  exists tab0, pins0, tab1, pins1. repeat split; auto.
  intros p Hp. rewrite Hfr1, Hfr0; [reflexivity|done|by rewrite Hmap0].
Qed.

Lemma Blink1_pins_show_the_states_witness :
  exists tab0 pins0 tab1 pins1,
    Blink1.setup (fun _ => 0) Blink1.T (fun _ => 0) = Some (tab0, pins0)
    /\ Forall (Blink1.shows pins0) tab0
    /\ Blink1.loop (fun _ => (300, 301)) tab0 pins0 = Some (tab1, pins1)
    /\ Forall Blink1.entry_ok tab1
    /\ Forall (Blink1.shows pins1) tab1
    /\ (forall p, p ∉ map Blink1.ledPin Blink1.T -> pins1 p = 0).
Proof.
  apply (Blink1_pins_show_the_states Blink1.T (fun _ => 0) (fun _ => 0)
           (fun _ => (300, 301))).
  - apply NoDup_ListNoDup. repeat constructor; simpl; intuition discriminate.
  - repeat constructor; vm_compute; discriminate.
Defined.

(** X20. The deadline of the first sketch is not safe at the roll-over
    of [millis()]: when [lastTransTime + activeTime] passes 2^32 the sum
    wraps to a small number, and an entry polled before the clock has
    rolled over changes state at once, however little time has passed
    since its last transition. *)
Theorem Blink1_deadline_wraps_and_fires_at_once (m1 m2 : Z)
    (e : Blink1.ledTable) (pins : Z -> Z) (st : Blink1.stateDef) :
  Blink1.entry_ok e ->
  zget (Blink1.state e) (Blink1.currentState e) = Some st ->
  is_uint32 (Blink1.lastTransTime e) ->
  is_uint16 (Blink1.activeTime st) ->
  4294967296 <= Blink1.lastTransTime e + Blink1.activeTime st ->
  Blink1.lastTransTime e <= m1 ->
  exists st',
    zget (Blink1.state e) (1 - Blink1.currentState e) = Some st'
    /\ Blink1.loop_entry m1 m2 e pins =
         Some (Blink1.mkLed (Blink1.ledPin e) (1 - Blink1.currentState e)
                            (Blink1.state e) m2,
               Blink1.digitalWrite (Blink1.ledPin e) (Blink1.activeVal st') pins).
Proof.
  intros [Hl Hcs] Hst Hw Ht Hover Hm.
  destruct (Blink1_entry_ok_get e (1 - Blink1.currentState e) Hl)
    as [st' Hst']; [unfold Blink1.MAX_STATE in *; lia|].
  exists st'. split; [exact Hst'|].
  unfold Blink1.loop_entry. rewrite Hst. simpl.
  assert (Hadd : add32 (Blink1.lastTransTime e) (Blink1.activeTime st)
                 = Blink1.lastTransTime e + Blink1.activeTime st - 4294967296).
  { unfold add32, to_uint32, is_uint32, is_uint16 in *.
    symmetry. apply (Z.mod_unique_pos _ _ 1); lia. }
  rewrite Hadd.
  destruct (Z.geb_spec m1 (Blink1.lastTransTime e + Blink1.activeTime st
                           - 4294967296)) as [_|Hlt].
  - rewrite Blink1_next_state by done. rewrite Hst'. reflexivity.
  - unfold is_uint16 in Ht. lia.
Qed.

Lemma Blink1_deadline_wraps_and_fires_at_once_witness :
  let e := Blink1.mkLed 3 0 [Blink1.mkStateDef Blink1.HIGH 300;
                             Blink1.mkStateDef Blink1.LOW 300] 4294967100 in
  exists st',
    zget (Blink1.state e) 1 = Some st'
    /\ Blink1.loop_entry 4294967101 4294967101 e (fun _ => 1) =
         Some (Blink1.mkLed 3 1 (Blink1.state e) 4294967101,
               Blink1.digitalWrite 3 (Blink1.activeVal st') (fun _ => 1)).
Proof.
  intros e.
  refine (Blink1_deadline_wraps_and_fires_at_once 4294967101 4294967101 e
            (fun _ => 1) (Blink1.mkStateDef Blink1.HIGH 300) _ _ _ _ _ _);
    try reflexivity;
    unfold Blink1.entry_ok, Blink1.MAX_STATE, is_uint32, is_uint16; simpl;
    try lia.
Defined.

(** ** The second sketch *)



(** ** The timing of a fade *)



(** X23. The first pass over a fade between two different colours makes
    the fade object, stores the start colour and does not move the entry;
    the period the object is given is the active time cut to 16 bits, so
    a fade of 65536 ms or more steps at the interval of its time modulo
    65536 and then stands still until the full time has passed. *)
Theorem FADE_start_cuts_the_period_to_16_bits (now : Z) (env : tick_env)
    (T : sequence_t) (G : globals) (S : scratchpad_t) (ins : stateDef_t)
    (old : CRGB) :
  enabled S = true ->
  zget (state T) (currentState S) = Some ins ->
  stateID ins = MB_FADE ->
  ~ expired now S ins ->
  nf S = None -> alloc_ok env = true ->
  zget (leds G) (ledId T) = Some old ->
  FastLED.of_code (data1 ins) <> FastLED.of_code (data2 ins) ->
  exists l f,
    MultiBlink_entry now env T G S =
      Some (mkGlobals l true
              (EvWrite (ledId T) (FastLED.of_code (data1 ins))
               :: EvNew :: trace G),
            set_nf S (Some f))
    /\ zget l (ledId T) = Some (FastLED.of_code (data1 ins))
    /\ _steps f = max_delta (FastLED.of_code (data1 ins))
                            (FastLED.of_code (data2 ins))
    /\ _timeInterval f =
         Z.max 1 ((activeTime ins mod 65536)
                  / max_delta (FastLED.of_code (data1 ins))
                              (FastLED.of_code (data2 ins))).
Proof.
  intros He Hi Hid Hx Hnf Ha Hold Hne.
  pose proof (of_code_valid (data1 ins)) as V0.
  pose proof (of_code_valid (data2 ins)) as V1.
  destruct (fade_dMax_max_delta _ _ V0 V1) as [Heq Hrange].
  assert (Hd : fade_dMax (FastLED.of_code (data1 ins))
                         (FastLED.of_code (data2 ins)) <> 0).
  { rewrite Heq. intros Hz. apply Hne.
    destruct (FastLED.of_code (data1 ins)) as [r0 g0 b0],
             (FastLED.of_code (data2 ins)) as [r1 g1 b1].
    unfold max_delta in Hz. simpl in Hz. f_equal; lia. }
  destruct (setFade_defined (to_uint16 (activeTime ins)) _ _ Hd)
    as (f & Hf & Hs & _).
  rewrite (MultiBlink_entry_enabled _ _ _ _ _ _ He Hi).
  rewrite dispatch_FADE, expired_false by done. rewrite Hnf, Ha, Hf. simpl.
  destruct (led_store_Some (ledId T) (FastLED.of_code (data1 ins))
              (log EvNew G) old Hold) as (l & -> & Hl & _).
  simpl. exists l, f. split; [reflexivity|]. split; [exact Hl|].
  split; [congruence|].
  apply (setFade_interval _ _ _ f V0 V1 (to_uint16_range _) Hf).
Qed.

Lemma FADE_start_cuts_the_period_to_16_bits_witness :
  let T := mkSequence 0 [FADE 65791 FastLED.Black FastLED.White;
                         NOP; NOP; NOP; NOP] in
  let G := mkGlobals (replicate 8 (FastLED.of_code FastLED.Red)) false [] in
  let S := mkScratchpad true 0 0 None 0 in
  exists l f,
    MultiBlink_entry 1 (mkEnv 1 true) T G S =
      Some (mkGlobals l true
              [EvWrite 0 (FastLED.of_code FastLED.Black); EvNew],
            set_nf S (Some f))
    /\ _steps f = 255
    /\ _timeInterval f = 1.
Proof.
  intros T G S.
  destruct (FADE_start_cuts_the_period_to_16_bits 1 (mkEnv 1 true) T G S
              (FADE 65791 FastLED.Black FastLED.White)
              (FastLED.of_code FastLED.Red))
    as (l & f & E & _ & Hs & Hi); try reflexivity.
  - unfold expired. vm_compute. intros H. by apply H.
  - vm_compute. discriminate.
  - exists l, f. split; [exact E|]. split; [exact Hs|exact Hi].
Defined.

(** ** A loop inside a loop *)

Section NestedLoops.

Variables (id c m n : Z) (G : globals) (w : Z) (p : option cNeoFade).
Hypothesis Hled : zget (leds G) id = Some (FastLED.of_code c).
Hypothesis Hw : is_uint32 w.
Hypothesis Hm : 1 <= m <= 65535.
Hypothesis Hn : 2 <= n.

Lemma nested_state_0 now env j :
  MultiBlink_entry now env (nested_table id c m n) G (at_state w p 0 j)
  = Some (G, at_state w p 1 j).
Proof.
  rewrite (MultiBlink_entry_enabled _ _ _ _ _ (SET 0 c)) by reflexivity.
  rewrite dispatch_SET by reflexivity.
  rewrite expired_true by (by apply expired_at_0).
  simpl ledId. simpl data1.
  rewrite bool_decide_eq_true_2 by exact Hled. simpl.
  rewrite transition_sequential by (unfold is_uint8; simpl; lia).
  simpl. rewrite add32_0 by done. reflexivity.
Qed.

Lemma nested_inner_jump now env j :
  0 <= j -> j + 1 < m ->
  MultiBlink_entry now env (nested_table id c m n) G (at_state w p 1 j)
  = Some (G, at_state w p 0 (j + 1)).
Proof.
  intros Hj Hjm.
  rewrite (LOOP_expiry_jump now env _ G (at_state w p 1 j) (DO 0 0 m));
    try reflexivity; try done; try (simpl; lia).
  - simpl. rewrite add32_0 by done. reflexivity.
  - by apply expired_at_0.
Qed.

Lemma nested_inner_end now env j :
  0 <= j < 65535 -> m <= j + 1 ->
  MultiBlink_entry now env (nested_table id c m n) G (at_state w p 1 j)
  = Some (G, at_state w p 2 0).
Proof.
  intros Hj Hjm.
  rewrite (LOOP_expiry_fall_through now env _ G (at_state w p 1 j) (DO 0 0 m));
    try reflexivity.
  - simpl. rewrite add32_0 by done. reflexivity.
  - unfold is_uint8. simpl. lia.
  - by apply expired_at_0.
  - simpl. rewrite to_uint16_id by (unfold is_uint16; lia). lia.
Qed.

(** The outer loop state always finds the counter at 0, counts one loop
    and jumps back. *)
Lemma nested_outer_jump now env :
  MultiBlink_entry now env (nested_table id c m n) G (at_state w p 2 0)
  = Some (G, at_state w p 0 1).
Proof.
  rewrite (LOOP_expiry_jump now env _ G (at_state w p 2 0) (DO 0 0 n));
    try reflexivity; try done; try (simpl; lia).
  - simpl. rewrite add32_0 by done. reflexivity.
  - by apply expired_at_0.
Qed.

Lemma nested_rounds (k : nat) : forall ticks j,
  length ticks = (2 * k)%nat ->
  0 <= j -> k = O \/ j + Z.of_nat k < m ->
  run_entry (nested_table id c m n) ticks G (at_state w p 0 j)
  = Some (G, at_state w p 0 (j + Z.of_nat k)).
Proof.
  induction k as [|k IH]; intros ticks j Hlen Hj Hjm.
  - destruct ticks; [|discriminate]. simpl. by rewrite Z.add_0_r.
  - destruct Hjm as [?|Hjm]; [discriminate|].
    destruct ticks as [|[now1 env1] [|[now2 env2] rest]];
      simpl in Hlen; try lia.
    rewrite (run_entry_step _ _ _ _ _ _ _ _ (nested_state_0 now1 env1 j)).
    rewrite (run_entry_step _ _ _ _ _ _ _ _
               (nested_inner_jump now2 env2 j Hj ltac:(lia))).
    rewrite IH by lia. do 3 f_equal. lia.
Qed.

(** From the state the outer loop jumps to (state 0 with one loop
    counted), the run comes back to that very state. *)
Lemma nested_cycle ticks t1 t2 t3 :
  Z.of_nat (length ticks) = 2 * Z.max 0 (m - 2) ->
  run_entry (nested_table id c m n) (ticks ++ [t1; t2; t3]) G
    (at_state w p 0 1)
  = Some (G, at_state w p 0 1).
Proof.
  intros Hlen. destruct t1 as [now1 env1], t2 as [now2 env2], t3 as [now3 env3].
  rewrite run_entry_app.
  rewrite (nested_rounds (Z.to_nat (Z.max 0 (m - 2))) ticks 1) by lia.
  set (j := 1 + Z.of_nat (Z.to_nat (Z.max 0 (m - 2)))).
  change (run_entry (nested_table id c m n)
            [(now1, env1); (now2, env2); (now3, env3)] G (at_state w p 0 j)
          = Some (G, at_state w p 0 1)).
  rewrite (run_entry_step _ _ _ _ _ _ _ _ (nested_state_0 now1 env1 j)).
  rewrite (run_entry_step _ _ _ _ _ _ _ _
             (nested_inner_end now2 env2 j ltac:(unfold j; lia)
                ltac:(unfold j; lia))).
  rewrite (run_entry_step _ _ _ _ _ _ _ _ (nested_outer_jump now3 env3)).
  reflexivity.
Qed.

(** From the reset state the run reaches that state after the first
    pass through the outer loop state. *)
Lemma nested_first_round ticks t1 t2 t3 :
  Z.of_nat (length ticks) = 2 * (m - 1) ->
  run_entry (nested_table id c m n) (ticks ++ [t1; t2; t3]) G
    (at_state w p 0 0)
  = Some (G, at_state w p 0 1).
Proof.
  intros Hlen. destruct t1 as [now1 env1], t2 as [now2 env2], t3 as [now3 env3].
  rewrite run_entry_app.
  rewrite (nested_rounds (Z.to_nat (m - 1)) ticks 0) by lia.
  set (j := 0 + Z.of_nat (Z.to_nat (m - 1))).
  change (run_entry (nested_table id c m n)
            [(now1, env1); (now2, env2); (now3, env3)] G (at_state w p 0 j)
          = Some (G, at_state w p 0 1)).
  rewrite (run_entry_step _ _ _ _ _ _ _ _ (nested_state_0 now1 env1 j)).
  rewrite (run_entry_step _ _ _ _ _ _ _ _
             (nested_inner_end now2 env2 j ltac:(unfold j; lia)
                ltac:(unfold j; lia))).
  rewrite (run_entry_step _ _ _ _ _ _ _ _ (nested_outer_jump now3 env3)).
  reflexivity.
Qed.

End NestedLoops.

(** X24. Loops do not nest: the loop counter of a scratchpad is shared by
    all loop states of its table, and a loop state that ends sets it back
    to 0.  With a loop [DO(0, 0, m)] followed by an outer loop
    [DO(0, 0, n)] with [n >= 2], the run from the reset state comes, after
    the [m] visits of the inner loop state and one of the outer, to state
    0 with one loop counted, and from there it returns to that very state
    again and again: the outer state finds the counter at 0 at every
    visit, and the state after the outer loop is never reached. *)
Theorem nested_loops_never_end (id c m n w : Z) (G : globals)
    (p : option cNeoFade) (first ticks : list (Z * tick_env))
    (t1 t2 t3 : Z * tick_env) :
  zget (leds G) id = Some (FastLED.of_code c) ->
  is_uint32 w ->
  1 <= m <= 65535 ->
  2 <= n ->
  Z.of_nat (length first) = 2 * (m - 1) ->
  Z.of_nat (length ticks) = 2 * Z.max 0 (m - 2) ->
  run_entry (nested_table id c m n) (first ++ [t1; t2; t3]) G
    (at_state w p 0 0)
  = Some (G, at_state w p 0 1)
  /\ run_entry (nested_table id c m n) (ticks ++ [t1; t2; t3]) G
       (at_state w p 0 1)
     = Some (G, at_state w p 0 1).
Proof.
  intros Hled Hw Hm Hn Hfirst Hlen. split.
  - by apply nested_first_round.
  - by apply nested_cycle.
Qed.

Lemma nested_loops_never_end_witness :
  let G := mkGlobals (replicate 8 (FastLED.of_code FastLED.Blue)) false [] in
  run_entry (nested_table 0 FastLED.Blue 3 2)
    (every_ms 0 4 ++ [(4, mkEnv 4 true); (5, mkEnv 5 true); (6, mkEnv 6 true)])
    G (at_state 0 None 0 0)
  = Some (G, at_state 0 None 0 1)
  /\ run_entry (nested_table 0 FastLED.Blue 3 2)
       (every_ms 0 2 ++ [(4, mkEnv 4 true); (5, mkEnv 5 true); (6, mkEnv 6 true)])
       G (at_state 0 None 0 1)
     = Some (G, at_state 0 None 0 1).
Proof.
  intros G.
  refine (nested_loops_never_end 0 FastLED.Blue 3 2 0 G None
            (every_ms 0 4) (every_ms 0 2)
            (4, mkEnv 4 true) (5, mkEnv 5 true) (6, mkEnv 6 true)
            _ _ _ _ _ _);
    try reflexivity; unfold is_uint32; lia.
Defined.

(** ** The count of a loop state over a run *)

Lemma transition_counter ins S b j :
  counter (transition ins S b j) = counter S.
Proof. unfold transition. by destruct (negb _). Qed.

(** Only the expiry of a loop state changes the loop counter. *)
Lemma MultiBlink_entry_counter now env T G S G' S' :
  MultiBlink_entry now env T G S = Some (G', S') ->
  loop_expiring now T S = false ->
  counter S' = counter S.
Proof.
  unfold MultiBlink_entry, loop_expiring, expiring. destruct (enabled S) eqn:He.
  2: { intros H _. by injection H as <- <-. }
  destruct (zget (state T) (currentState S)) as [ins|] eqn:Hi; [|discriminate].
  simpl. set (e := sub32 now (lastWakeup S) >=? activeTime ins).
  assert (Hdone : forall G1 S1 b j,
            counter S1 = counter S ->
            Some (G1, transition ins S1 b j) = Some (G', S') ->
            counter S' = counter S).
  { intros G1 S1 b j Hc H. injection H as <- <-.
    by rewrite transition_counter. }
  destruct (stateID_cases (stateID ins))
    as [Hid|[Hid|[Hid|[Hid|[Hid|[Hid|Hid]]]]]].
  - rewrite dispatch_SET by done.
    destruct (bool_decide _).
    + simpl. intros H _. eapply Hdone; [|exact H]; reflexivity.
    + destruct (zget (leds G) (ledId T)); [|discriminate].
      destruct (led_store _ _ G) as [G1|]; [|discriminate].
      simpl. intros H _. eapply Hdone; [|exact H]; reflexivity.
  - rewrite dispatch_FADE by done. destruct e.
    + destruct (led_store _ _ _) as [G1|]; [|discriminate].
      simpl. intros H _. eapply Hdone; [|exact H]; reflexivity.
    + destruct (nf S) as [f|] eqn:Hnf.
      * destruct (negb (isEnded f)).
        -- destruct (getNext now (ms env) f) as [[f' [|]] [rgb|]]; simpl.
           ++ destruct (led_store _ _ G) as [G1|]; [|discriminate].
              simpl. intros H _. eapply Hdone; [|exact H]; reflexivity.
           ++ intros H _. eapply Hdone; [|exact H]; reflexivity.
           ++ intros H _. eapply Hdone; [|exact H]; reflexivity.
           ++ intros H _. eapply Hdone; [|exact H]; reflexivity.
        -- simpl. intros H _. eapply Hdone; [|exact H]; reflexivity.
      * destruct (alloc_ok env).
        -- destruct (setFade _ _ _) as [f|]; [|discriminate]. simpl.
           destruct (led_store _ _ _) as [G1|]; [|discriminate].
           simpl. intros H _. eapply Hdone; [|exact H]; reflexivity.
        -- destruct (led_store _ _ _) as [G1|]; [|discriminate].
           simpl. intros H _. eapply Hdone; [|exact H]; reflexivity.
  - rewrite dispatch_LOOP by done. destruct e.
    + rewrite Hid. discriminate.
    + simpl. intros H _. eapply Hdone; [|exact H]; reflexivity.
  - rewrite dispatch_GOTO by done.
    destruct e; simpl; intros H _; (eapply Hdone; [|exact H]; reflexivity).
  - rewrite dispatch_STOP by done. simpl. intros H _. by injection H as <- <-.
  - rewrite dispatch_NULL by done. simpl. intros H _. eapply Hdone; [|exact H]; reflexivity.
  - rewrite dispatch_default by done. simpl. intros H _. eapply Hdone; [|exact H]; reflexivity.
Qed.

Lemma loop_expiry_outcome_counter n k ins S :
  counter (loop_expiry_outcome n k ins S) = if k <? n then k else 0.
Proof. unfold loop_expiry_outcome. by destruct (k <? n). Qed.

(** What a pass at which a loop state expires has found. *)
Lemma loop_expiring_inv now T S :
  loop_expiring now T S = true ->
  exists ins,
    enabled S = true
    /\ zget (state T) (currentState S) = Some ins
    /\ stateID ins = MB_LOOP
    /\ expired now S ins.
Proof.
  unfold loop_expiring, expiring, expired.
  destruct (enabled S); [|discriminate].
  destruct (zget (state T) (currentState S)) as [ins|]; [|discriminate].
  simpl. destruct (Z.geb_spec (sub32 now (lastWakeup S)) (activeTime ins));
    [|discriminate].
  intros Hid. apply Z.eqb_eq in Hid. exists ins. repeat split; auto.
Qed.

Lemma filter_at_index_all L l :
  Forall (fun p : scratchpad_t * scratchpad_t => currentState (fst p) = L) l ->
  List.filter (at_index L) l = l.
Proof.
  induction 1 as [|p l Hp _ IH]; [reflexivity|].
  cbn [List.filter]. unfold at_index at 1. rewrite Hp, Z.eqb_refl.
  by rewrite IH.
Qed.

Section LoopCount.

Variables (T : sequence_t) (L : Z) (ins : stateDef_t).
Hypothesis HL : MAX_STATE_range L.
Hypothesis Hins : zget (state T) L = Some ins.
Hypothesis Hid : stateID ins = MB_LOOP.
Hypothesis Hn : 1 <= data2 ins <= 65535.
Hypothesis Hj : MAX_STATE_range (data1 ins).

(** While no other loop state expires, the loop counter holds the number
    of expiries of the round so far. *)
Lemma loop_passes_count (ticks : list (Z * tick_env)) :
  forall (G : globals) (S : scratchpad_t) (c : Z),
    counter S = c -> 0 <= c < data2 ins ->
    Forall (fun p => currentState (fst p) = L) (loop_passes T ticks G S) ->
    forall (i : nat) (Sb Sa : scratchpad_t),
      loop_passes T ticks G S !! i = Some (Sb, Sa) ->
      Sa = loop_expiry_outcome (data2 ins)
             ((c + Z.of_nat i) mod data2 ins + 1) ins Sb.
Proof.
  induction ticks as [|[now env] rest IH]; intros G S c Hc Hc' Hall i Sb Sa;
    cbn [loop_passes] in *.
  - by rewrite lookup_nil.
  - destruct (MultiBlink_entry now env T G S) as [[G1 S1]|] eqn:E;
      [|by rewrite lookup_nil].
    destruct (loop_expiring now T S) eqn:Hx.
    + cbn [app] in *. apply Forall_cons in Hall as [HS Hall]. cbn [fst] in HS.
      destruct (loop_expiring_inv _ _ _ Hx) as (ins' & He & Hi & _ & Hexp).
      rewrite HS, Hins in Hi. injection Hi as <-.
      assert (E1 : MultiBlink_entry now env T G S
                   = Some (G, loop_expiry_outcome (data2 ins) (c + 1) ins S)).
      { apply (LOOP_repeats_uint16 (data2 ins) Hn); auto; try lia.
        - rewrite HS. unfold MAX_STATE_range, MAX_STATE in HL.
          unfold is_uint8. lia.
        - by rewrite HS. }
      rewrite E1 in E. injection E as <- <-.
      destruct i as [|i].
      * cbn. intros H. injection H as <- <-.
        rewrite Z.add_0_r, Z.mod_small by lia. reflexivity.
      * cbn [lookup list_lookup]. intros H.
        destruct (Z.ltb_spec (c + 1) (data2 ins)) as [Hlt|Hge].
        -- assert (Hc1 : counter (loop_expiry_outcome (data2 ins) (c + 1) ins S)
                         = c + 1).
           { rewrite loop_expiry_outcome_counter.
             destruct (Z.ltb_spec (c + 1) (data2 ins)); [reflexivity|lia]. }
           rewrite (IH G _ (c + 1) Hc1 ltac:(lia) Hall i Sb Sa H).
           do 3 f_equal. lia.
        -- assert (Hc1 : counter (loop_expiry_outcome (data2 ins) (c + 1) ins S)
                         = 0).
           { rewrite loop_expiry_outcome_counter.
             destruct (Z.ltb_spec (c + 1) (data2 ins)); [lia|reflexivity]. }
           rewrite (IH G _ 0 Hc1 ltac:(lia) Hall i Sb Sa H).
           replace (c + Z.of_nat (Datatypes.S i))
             with (0 + Z.of_nat i + 1 * data2 ins) by lia.
           by rewrite Z_mod_plus_full.
    + cbn [app] in *.
      apply (IH G1 S1 c); auto.
      rewrite (MultiBlink_entry_counter _ _ _ _ _ _ _ E Hx). exact Hc.
Qed.

End LoopCount.

(** C4 (amended). Let [ins] be a loop state [DO(t, j, n)] at a valid
    index [L] of a table entry, with [1 <= n <= 65535] and a valid target
    index [j].  Over the passes of a run that starts with the loop counter
    at 0 and in which no other loop state of the entry expires (up to the
    first undefined pass, if there is one), the expiries of the state go in
    rounds of [n]: each of the first [n - 1] of a round jumps to [j] with
    one more loop counted, the [n]-th sets the counter back to 0 and goes
    on to the next state in sequence, and the next expiry starts a new
    round.  With [n = 1] every expiry goes on in sequence. *)
Theorem LOOP_rounds_from_counter_0 (T : sequence_t) (L : Z) (ins : stateDef_t)
    (ticks : list (Z * tick_env)) (G : globals) (S : scratchpad_t) :
  MAX_STATE_range L ->
  zget (state T) L = Some ins ->
  stateID ins = MB_LOOP ->
  1 <= data2 ins <= 65535 ->
  MAX_STATE_range (data1 ins) ->
  counter S = 0 ->
  Forall (fun p => currentState (fst p) = L) (loop_passes T ticks G S) ->
  LOOP_visits T L ins ticks G S.
Proof.
  intros HL Hins Hid Hn Hj Hc Hall i Sb Sa.
  rewrite (filter_at_index_all _ _ Hall). intros H.
  rewrite (loop_passes_count T L ins HL Hins Hid Hn Hj ticks G S 0 Hc
             ltac:(lia) Hall i Sb Sa H).
  reflexivity.
Qed.

Lemma LOOP_rounds_from_counter_0_witness :
  map (fun p => (counter (fst p), currentState (snd p), counter (snd p)))
      (loop_passes T1_0 (every_ms 0 (Z.to_nat 1400))
         (strip_of FastLED.Black) (at_state 0 None 0 0))
  = [(0, 0, 1); (1, 0, 2); (2, 0, 3); (3, 3, 0); (0, 0, 1)]
  /\ LOOP_visits T1_0 2 (DO 0 0 4) (every_ms 0 (Z.to_nat 1400))
       (strip_of FastLED.Black) (at_state 0 None 0 0).
Proof.
  split; [vm_compute; reflexivity|].
  apply (LOOP_rounds_from_counter_0 T1_0 2 (DO 0 0 4)
           (every_ms 0 (Z.to_nat 1400)) (strip_of FastLED.Black)
           (at_state 0 None 0 0)).
  - unfold MAX_STATE_range, MAX_STATE. lia.
  - reflexivity.
  - reflexivity.
  - unfold DO. simpl. lia.
  - unfold MAX_STATE_range, MAX_STATE, DO. simpl. lia.
  - reflexivity.
  - apply (bool_decide_unpack _). vm_compute. reflexivity.
Defined.

(** The statement fails where a condition of the theorem does: for an outer
    loop [DO(0, 0, 2)] after an inner loop, whose second expiry finds the
    counter at 0 again and jumps, and for a count of 65536, where the
    16-bit counter wraps to 0 at the 65536th expiry and the state jumps. *)
Lemma LOOP_visits_fails_nested_and_at_65536 :
  ~ LOOP_visits (nested_table 0 FastLED.Blue 3 2) 2 (DO 0 0 2)
      (every_ms 0 (Z.to_nat 12)) (strip_of FastLED.Blue) (at_state 0 None 0 0)
  /\ ~ LOOP_visits (self_loop_table 0 65536) 0 (DO 0 0 65536)
         (replicate (Z.to_nat 65536) (0, mkEnv 0 true))
         (strip_of FastLED.Blue) (at_state 0 None 0 0).
Proof.
  split; intros H.
  - assert (E : List.filter (at_index 2)
                  (loop_passes (nested_table 0 FastLED.Blue 3 2)
                     (every_ms 0 (Z.to_nat 12)) (strip_of FastLED.Blue)
                     (at_state 0 None 0 0)) !! 1%nat
                = Some (at_state 0 None 2 0, at_state 0 None 0 1))
      by (vm_compute; reflexivity).
    apply H in E. vm_compute in E. discriminate E.
  - assert (E : List.filter (at_index 0)
                  (loop_passes (self_loop_table 0 65536)
                     (replicate (Z.to_nat 65536) (0, mkEnv 0 true))
                     (strip_of FastLED.Blue) (at_state 0 None 0 0))
                  !! Z.to_nat 65535
                = Some (at_state 0 None 0 65535, at_state 0 None 0 0))
      by (vm_compute; reflexivity).
    apply H in E. vm_compute in E. discriminate E.
Qed.
